(** * PL-SLAM (monocular, points and lines): two-view initializer and local mapper

    A shallow embedding of [Initializer.cc] and of the control part of
    [LocalMapping.cc], and the properties of the specification that concern
    them.

    Numbers are modelled as the C++ code has them: [float] is IEEE binary32,
    [double] is IEEE binary64, both as [spec_float] with the operations of
    the Standard Library's [SpecFloat] at precision 24 and 53; [int] and
    [size_t] values are integers and naturals.  What the code delegates to
    OpenCV, Eigen or libm (SVD, matrix products, norms, [acos]) is an
    operation of the class [CvKernel]. *)

From Stdlib Require Import ZArith Bool Lia Permutation Sorted.
From Stdlib Require Import Floats.SpecFloat.
From stdpp Require Import base list gmap.

Open Scope Z_scope.

(* ===================================================================== *)
(** * IEEE arithmetic of the C++ types [float] and [double] *)
(* ===================================================================== *)

Module Float.

(** A C++ [float] (binary32) or [double] (binary64) value.  The two formats
    share the carrier; the operations below say which format rounds. *)
Definition float := spec_float.
Definition double := spec_float.

Definition prec32 : Z := 24.
Definition emax32 : Z := 128.
Definition prec64 : Z := 53.
Definition emax64 : Z := 1024.

(** binary32 operations: [a+b], [a-b], [a*b], [a/b] on two [float]s. *)
Definition fadd : float -> float -> float := SFadd prec32 emax32.
Definition fsub : float -> float -> float := SFsub prec32 emax32.
Definition fmul : float -> float -> float := SFmul prec32 emax32.
Definition fdiv : float -> float -> float := SFdiv prec32 emax32.

(** binary64 operations. *)
Definition dmul : double -> double -> double := SFmul prec64 emax64.
Definition ddiv : double -> double -> double := SFdiv prec64 emax64.

(** Rounding of the value [m * 2^e] into each format. *)
Definition round32 (s : bool) (m : positive) (e : Z) : float :=
  binary_normalize prec32 emax32 (cond_Zopp s (Zpos m)) e s.
Definition round64 (s : bool) (m : positive) (e : Z) : double :=
  binary_normalize prec64 emax64 (cond_Zopp s (Zpos m)) e s.

(** The implicit conversion [float -> double] (exact) and the conversion
    [double -> float] of an initialisation or assignment (round to nearest
    even). *)
Definition to_double (x : float) : double :=
  match x with
  | S754_finite s m e => round64 s m e
  | _ => x
  end.

Definition to_float (x : double) : float :=
  match x with
  | S754_finite s m e => round32 s m e
  | _ => x
  end.

(** [int -> double] and [int -> float]. *)
Definition int_to_double (n : Z) : double :=
  binary_normalize prec64 emax64 n 0 false.
Definition int_to_float (n : Z) : float :=
  binary_normalize prec32 emax32 n 0 false.

(** [static_cast<int>(x)] of a [double]: truncation toward zero (the values
    met here are far inside the range of [int]). *)
Definition double_to_int (x : double) : Z :=
  match x with
  | S754_finite s m (Zneg p) => cond_Zopp s (Z.shiftr (Zpos m) (Zpos p))
  | S754_finite s m e => cond_Zopp s (Z.shiftl (Zpos m) e)
  | _ => 0
  end.

(** A decimal literal [num/den] read as a [double] (the nearest one), and
    the same literal initialising a [const float]. *)
Definition dlit (num den : Z) : double :=
  ddiv (int_to_double num) (int_to_double den).
Definition flit (num den : Z) : float := to_float (dlit num den).

(** Comparisons ([SFcompare] is the IEEE comparison on values of one format;
    with a NaN operand every comparison is false). *)
Definition flt (a b : float) : bool := SFltb a b.
Definition fle (a b : float) : bool := SFleb a b.
Definition fgt (a b : float) : bool := SFltb b a.
Definition fge (a b : float) : bool := SFleb b a.
Definition feq (a b : float) : bool := SFeqb a b.

Definition is_nan (x : float) : bool :=
  match x with S754_nan => true | _ => false end.

(** [isfinite]. *)
Definition isfinite (x : float) : bool :=
  match x with
  | S754_zero _ | S754_finite _ _ _ => true
  | _ => false
  end.

(** The place of a value that is not a NaN in the order of the comparisons:
    its class (infinities, signs, zero), then exponent and mantissa, both
    negated for a negative value; and the order on places. *)
Definition rank (x : float) : Z * Z * Z :=
  match x with
  | S754_zero _ => (0, 0, 0)
  | S754_infinity s => (if s then -2 else 2, 0, 0)
  | S754_nan => (3, 0, 0)
  | S754_finite s m e => if s then (-1, - e, - Zpos m) else (1, e, Zpos m)
  end.

Definition lex_le (a b : Z * Z * Z) : Prop :=
  a.1.1 < b.1.1 \/
  (a.1.1 = b.1.1 /\ (a.1.2 < b.1.2 \/ (a.1.2 = b.1.2 /\ a.2 <= b.2))).

(** [a <= b] between two numbers. *)
Definition le_numbers (a b : float) : Prop :=
  is_nan a = false /\ is_nan b = false /\ fle a b = true.

Definition fabs : float -> float := SFabs.
Definition fneg : float -> float := SFopp.

Definition fzero : float := S754_zero false.

#[global] Instance float_inhabited : Inhabited float := populate fzero.

End Float.

Import Float.

(* ===================================================================== *)
(** * Initializer.cc: data *)
(* ===================================================================== *)

Module Initializer.

(** [cv::Point2f], [cv::Point3f] (also used for the 3x1 [cv::Mat] columns
    [p3dC1], [normal1], ...), [cv::KeyPoint] and [KeyLine]. *)
Record Point2f := mkPoint2f { p2x : float; p2y : float }.
Record Point3f := mkPoint3f { p3x : float; p3y : float; p3z : float }.
Record KeyPoint := mkKeyPoint { pt : Point2f; octave : Z }.
Record KeyLine := mkKeyLine
  { startPointX : float; startPointY : float;
    endPointX : float; endPointY : float }.

(** [Eigen::Vector3d], the coefficients of a line. *)
Record Vector3d := mkVector3d { l0 : double; l1 : double; l2 : double }.

(** [typedef pair<int,int> Match]: indices into frame 1 and frame 2. *)
Definition Match : Type := nat * nat.

(** A [cv::Mat] of type [CV_32F], by rows; [cv::Mat()] is the empty one. *)
Definition Mat : Type := list (list float).
Definition emptyMat : Mat := [].

(** [M.at<float>(i,j)]. *)
Definition at_ (M : Mat) (i j : nat) : float :=
  nth j (nth i M []) fzero.

(** [-M]. *)
Definition negMat (M : Mat) : Mat := map (map fneg) M.

Definition zero3 : Point3f := mkPoint3f fzero fzero fzero.

#[global] Instance Point3f_inhabited : Inhabited Point3f := populate zero3.
#[global] Instance KeyPoint_inhabited : Inhabited KeyPoint :=
  populate (mkKeyPoint (mkPoint2f fzero fzero) 0).
#[global] Instance KeyLine_inhabited : Inhabited KeyLine :=
  populate (mkKeyLine fzero fzero fzero fzero).
#[global] Instance Vector3d_inhabited : Inhabited Vector3d :=
  populate (mkVector3d fzero fzero fzero).

(** [v.resize(n, d)]: keeps the first [n] elements and pads with [d]. *)
Definition resize {A} (n : nat) (d : A) (v : list A) : list A :=
  take n v ++ replicate (n - length v) d.

(** What the initializer delegates to OpenCV and libm.  Each operation is
    named after the call it stands for. *)
Class CvKernel := {
  (** [P1 = K[I|0]] and [P2 = K[R|t]] of [CheckRT] and [ReconstructLine]. *)
  cv_P1 : Mat -> Mat;
  cv_P2 : Mat -> Mat -> Mat -> Mat;
  (** [O2 = -R.t()*t]. *)
  cv_center : Mat -> Mat -> Point3f;
  (** [R*p+t]. *)
  cv_affine : Mat -> Mat -> Point3f -> Point3f;
  (** [cv::norm(v)] and [a.dot(b)], both returning [double]. *)
  cv_norm : Point3f -> double;
  cv_dot : Point3f -> Point3f -> double;
  (** [Initializer::Triangulate(kp1,kp2,P1,P2,x3D)] (SVD of the DLT system). *)
  Triangulate : KeyPoint -> KeyPoint -> Mat -> Mat -> Point3f;
  (** [acos(c)*180/CV_PI]. *)
  acos_deg : float -> float;
  (** [E21 = K.t()*F21*K] followed by [DecomposeE(E21,R1,R2,t)]. *)
  DecomposeE : Mat -> Mat -> Mat * Mat * Mat;
  (** The singular values [d1,d2,d3] of [A = invK*H21*K] and the eight
      hypotheses [(vR[i], vt[i])] built from its SVD in [ReconstructH]. *)
  cv_singularH : Mat -> Mat -> float * float * float;
  cv_hypothesesH : Mat -> Mat -> list (Mat * Mat);
  (** [lineVector2.dot(Th_) / (norm(lineVector2)*norm(Th_))] for the ray
      through an endpoint [(x,y)] of line 1, with
      [F21 = K^-T [t21]x R21 K^-1], in [ReconstructLine]. *)
  cv_epipolarCos : Mat -> Mat -> Mat -> float -> float -> Vector3d -> float;
  (** [LineTriangulate(kl1,kl2,P1,P2,klf1,klf2,S,E)]. *)
  LineTriangulate :
    KeyLine -> KeyLine -> Mat -> Mat -> Vector3d -> Vector3d -> Point3f * Point3f
}.

(** The members of [Initializer] that the functions below read. *)
Record InitializerState := mkInitializer {
  mvKeys1 : list KeyPoint;
  mvKeys2 : list KeyPoint;
  mvMatches12 : list Match;
  mK : Mat;
  mSigma : float;
  mSigma2 : float;
  mvKeyLines1 : list KeyLine;
  mvKeyLines2 : list KeyLine;
  mvKeyLineFunctions1 : list Vector3d;
  mvKeyLineFunctions2 : list Vector3d
}.

(* --------------------------------------------------------------------- *)
(** ** Scorers *)
(* --------------------------------------------------------------------- *)

(** One direction of a scorer: [if(chiSquare>th) bIn = false; else score +=
    thScore - chiSquare;] on the pair (score, bIn). *)
Definition score_direction (th thScore chiSquare : float)
  (acc : float * bool) : float * bool :=
  if fgt chiSquare th then (acc.1, false)
  else (fadd acc.1 (fsub thScore chiSquare), acc.2).

(** [1.0/(sigma*sigma)] assigned to a [float]. *)
Definition invSigmaSquare (sigma : float) : float :=
  to_float (ddiv (int_to_double 1) (to_double (fmul sigma sigma))).

Definition sq (a : float) : float := fmul a a.

(** The two chi-square values of match [(kp1,kp2)] in [CheckHomography]:
    [chiSquare1] (error in the first image, through [H12]) and
    [chiSquare2] (error in the second image, through [H21]). *)
Definition chiSquaresH (H21 H12 : Mat) (sigma : float) (kp1 kp2 : KeyPoint)
  : float * float :=
  let h11 := at_ H21 0 0 in let h12 := at_ H21 0 1 in let h13 := at_ H21 0 2 in
  let h21 := at_ H21 1 0 in let h22 := at_ H21 1 1 in let h23 := at_ H21 1 2 in
  let h31 := at_ H21 2 0 in let h32 := at_ H21 2 1 in let h33 := at_ H21 2 2 in
  let h11inv := at_ H12 0 0 in let h12inv := at_ H12 0 1 in
  let h13inv := at_ H12 0 2 in let h21inv := at_ H12 1 0 in
  let h22inv := at_ H12 1 1 in let h23inv := at_ H12 1 2 in
  let h31inv := at_ H12 2 0 in let h32inv := at_ H12 2 1 in
  let h33inv := at_ H12 2 2 in
  let u1 := p2x (pt kp1) in let v1 := p2y (pt kp1) in
  let u2 := p2x (pt kp2) in let v2 := p2y (pt kp2) in
  let w2in1inv := to_float (ddiv (int_to_double 1)
    (to_double (fadd (fadd (fmul h31inv u2) (fmul h32inv v2)) h33inv))) in
  let u2in1 := fmul (fadd (fadd (fmul h11inv u2) (fmul h12inv v2)) h13inv) w2in1inv in
  let v2in1 := fmul (fadd (fadd (fmul h21inv u2) (fmul h22inv v2)) h23inv) w2in1inv in
  let squareDist1 := fadd (sq (fsub u1 u2in1)) (sq (fsub v1 v2in1)) in
  let chiSquare1 := fmul squareDist1 (invSigmaSquare sigma) in
  let w1in2inv := to_float (ddiv (int_to_double 1)
    (to_double (fadd (fadd (fmul h31 u1) (fmul h32 v1)) h33))) in
  let u1in2 := fmul (fadd (fadd (fmul h11 u1) (fmul h12 v1)) h13) w1in2inv in
  let v1in2 := fmul (fadd (fadd (fmul h21 u1) (fmul h22 v1)) h23) w1in2inv in
  let squareDist2 := fadd (sq (fsub u2 u1in2)) (sq (fsub v2 v1in2)) in
  let chiSquare2 := fmul squareDist2 (invSigmaSquare sigma) in
  (chiSquare1, chiSquare2).

(** [const float th = 5.991;] of [CheckHomography]. *)
Definition thH : float := flit 5991 1000.

(** The body of the loop of [CheckHomography] for match [m]: the new score
    and the flag stored in [vbMatchesInliers[i]]. *)
Definition CheckHomography_body (s : InitializerState) (H21 H12 : Mat)
  (sigma : float) (score : float) (m : Match) : float * bool :=
  let kp1 := mvKeys1 s !!! m.1 in
  let kp2 := mvKeys2 s !!! m.2 in
  let chi := chiSquaresH H21 H12 sigma kp1 kp2 in
  score_direction thH thH chi.2 (score_direction thH thH chi.1 (score, true)).

(** Runs a loop body over the matches, threading the score and collecting
    the flags. *)
Fixpoint score_loop (body : float -> Match -> float * bool)
  (ms : list Match) (score : float) : float * list bool :=
  match ms with
  | [] => (score, [])
  | m :: ms' =>
      let r := body score m in
      let rest := score_loop body ms' r.1 in
      (rest.1, r.2 :: rest.2)
  end.

(** [Initializer::CheckHomography]: the score and [vbMatchesInliers]. *)
Definition CheckHomography (s : InitializerState) (H21 H12 : Mat)
  (sigma : float) : float * list bool :=
  score_loop (CheckHomography_body s H21 H12 sigma) (mvMatches12 s) fzero.

(** The two chi-square values of a match in [CheckFundamental]:
    [chiSquare1] (distance to the epipolar line [l2 = F21 x1]) and
    [chiSquare2] (distance to [l1 = x2^T F21]). *)
Definition chiSquaresF (F21 : Mat) (sigma : float) (kp1 kp2 : KeyPoint)
  : float * float :=
  let f11 := at_ F21 0 0 in let f12 := at_ F21 0 1 in let f13 := at_ F21 0 2 in
  let f21 := at_ F21 1 0 in let f22 := at_ F21 1 1 in let f23 := at_ F21 1 2 in
  let f31 := at_ F21 2 0 in let f32 := at_ F21 2 1 in let f33 := at_ F21 2 2 in
  let u1 := p2x (pt kp1) in let v1 := p2y (pt kp1) in
  let u2 := p2x (pt kp2) in let v2 := p2y (pt kp2) in
  let a2 := fadd (fadd (fmul f11 u1) (fmul f12 v1)) f13 in
  let b2 := fadd (fadd (fmul f21 u1) (fmul f22 v1)) f23 in
  let c2 := fadd (fadd (fmul f31 u1) (fmul f32 v1)) f33 in
  let num2 := fadd (fadd (fmul a2 u2) (fmul b2 v2)) c2 in
  let squareDist1 := fdiv (fmul num2 num2) (fadd (fmul a2 a2) (fmul b2 b2)) in
  let chiSquare1 := fmul squareDist1 (invSigmaSquare sigma) in
  let a1 := fadd (fadd (fmul f11 u2) (fmul f21 v2)) f31 in
  let b1 := fadd (fadd (fmul f12 u2) (fmul f22 v2)) f32 in
  let c1 := fadd (fadd (fmul f13 u2) (fmul f23 v2)) f33 in
  let num1 := fadd (fadd (fmul a1 u1) (fmul b1 v1)) c1 in
  let squareDist2 := fdiv (fmul num1 num1) (fadd (fmul a1 a1) (fmul b1 b1)) in
  let chiSquare2 := fmul squareDist2 (invSigmaSquare sigma) in
  (chiSquare1, chiSquare2).

(** [const float th = 3.841; const float thScore = 5.991;]. *)
Definition thF : float := flit 3841 1000.
Definition thScore : float := flit 5991 1000.

Definition CheckFundamental_body (s : InitializerState) (F21 : Mat)
  (sigma : float) (score : float) (m : Match) : float * bool :=
  let kp1 := mvKeys1 s !!! m.1 in
  let kp2 := mvKeys2 s !!! m.2 in
  let chi := chiSquaresF F21 sigma kp1 kp2 in
  score_direction thF thScore chi.2
    (score_direction thF thScore chi.1 (score, true)).

(** [Initializer::CheckFundamental]. *)
Definition CheckFundamental (s : InitializerState) (F21 : Mat)
  (sigma : float) : float * list bool :=
  score_loop (CheckFundamental_body s F21 sigma) (mvMatches12 s) fzero.

(* --------------------------------------------------------------------- *)
(** ** CheckRT *)
(* --------------------------------------------------------------------- *)

(** The double literals of the reconstruction code. *)
Definition d0_99998 : double := dlit 99998 100000.
Definition d0_9 : double := dlit 9 10.
Definition d0_7 : double := dlit 7 10.
Definition d0_75 : double := dlit 75 100.
Definition d0_40 : double := dlit 40 100.
Definition d0_98 : double := dlit 98 100.
Definition d1_00001 : double := dlit 100001 100000.

(** [std::sort] on a [vector<float>]: ascending for [operator<]. *)
Fixpoint insert_float (x : float) (l : list float) : list float :=
  match l with
  | [] => [x]
  | y :: l' => if flt y x then y :: insert_float x l' else x :: l
  end.

Definition sort_float (l : list float) : list float :=
  foldr insert_float [] l.

(** The number of [true] entries of a [vector<bool>]
    ([for(...) if(v[i]) N++;]). *)
Fixpoint count_true (v : list bool) : Z :=
  match v with
  | [] => 0
  | b :: v' => (if b then 1 else 0) + count_true v'
  end.

(** Ascending for [operator<]: no element is above its successor. *)
Definition ascending : list float -> Prop :=
  Sorted (fun a b => flt b a = false).

(** [a - b] on 3x1 matrices. *)
Definition vsub (a b : Point3f) : Point3f :=
  mkPoint3f (fsub (p3x a) (p3x b)) (fsub (p3y a) (p3y b)) (fsub (p3z a) (p3z b)).

Definition finite3 (p : Point3f) : bool :=
  isfinite (p3x p) && isfinite (p3y p) && isfinite (p3z p).

(** The locals [nGood], [vP3D], [vbGood], [vCosParallax] of [CheckRT]. *)
Record CheckRTState := mkCheckRTState {
  st_nGood : Z;
  st_vP3D : list Point3f;
  st_vbGood : list bool;
  st_vCosParallax : list float
}.

(** What [CheckRT] returns and writes through its reference parameters. *)
Record CheckRTResult := mkCheckRTResult {
  nGood : Z;
  r_vP3D : list Point3f;
  r_vbGood : list bool;
  parallax : float
}.

Section Reconstruction.
Context {cv : CvKernel}.

(** [normal1.dot(normal2)/(dist1*dist2)] for the point [p] seen from the
    camera centres [O1] and [O2]. *)
Definition cosParallaxOf (O1 O2 p : Point3f) : float :=
  let normal1 := vsub p O1 in
  let dist1 := to_float (cv_norm normal1) in
  let normal2 := vsub p O2 in
  let dist2 := to_float (cv_norm normal2) in
  to_float (ddiv (cv_dot normal1 normal2) (to_double (fmul dist1 dist2))).

(** The squared reprojection error of the camera-frame point [p] against
    the key point [kp]. *)
Definition squareError (fx fy cx cy : float) (p : Point3f) (kp : KeyPoint)
  : float :=
  let invZ := to_float (ddiv (int_to_double 1) (to_double (p3z p))) in
  let imx := fadd (fmul (fmul fx (p3x p)) invZ) cx in
  let imy := fadd (fmul (fmul fy (p3y p)) invZ) cy in
  fadd (sq (fsub imx (p2x (pt kp)))) (sq (fsub imy (p2y (pt kp)))).

(** The outcome of the tests of one iteration of the loop of [CheckRT] on an
    inlier match. *)
Inductive Verdict :=
| NotFinite
| Rejected
| Survives (p3dC1 : Point3f) (cosParallax : float).

Definition CheckRT_verdict (R t K : Mat) (th2 : float)
  (kp1 kp2 : KeyPoint) : Verdict :=
  let fx := at_ K 0 0 in let fy := at_ K 1 1 in
  let cx := at_ K 0 2 in let cy := at_ K 1 2 in
  let P1 := cv_P1 K in
  let O1 := zero3 in
  let P2 := cv_P2 K R t in
  let O2 := cv_center R t in
  let p3dC1 := Triangulate kp1 kp2 P1 P2 in
  if negb (finite3 p3dC1) then NotFinite
  else
    let cosParallax := cosParallaxOf O1 O2 p3dC1 in
    if fle (p3z p3dC1) fzero && flt (to_double cosParallax) d0_99998
    then Rejected
    else
      let p3dC2 := cv_affine R t p3dC1 in
      if fle (p3z p3dC2) fzero && flt (to_double cosParallax) d0_99998
      then Rejected
      else if fgt (squareError fx fy cx cy p3dC1 kp1) th2 then Rejected
      else if fgt (squareError fx fy cx cy p3dC2 kp2) th2 then Rejected
      else Survives p3dC1 cosParallax.

(** One iteration of the loop of [CheckRT], for index [i] and match [m]. *)
Definition CheckRT_body (R t K : Mat) (th2 : float)
  (vKeys1 vKeys2 : list KeyPoint) (vbMatchesInliers : list bool)
  (i : nat) (m : Match) (st : CheckRTState) : CheckRTState :=
  if negb (vbMatchesInliers !!! i) then st
  else
    match CheckRT_verdict R t K th2 (vKeys1 !!! m.1) (vKeys2 !!! m.2) with
    | NotFinite =>
        mkCheckRTState (st_nGood st) (st_vP3D st)
          (<[m.1 := false]> (st_vbGood st)) (st_vCosParallax st)
    | Rejected => st
    | Survives p3dC1 cosParallax =>
        mkCheckRTState (st_nGood st + 1)
          (<[m.1 := p3dC1]> (st_vP3D st))
          (if flt (to_double cosParallax) d0_99998
           then <[m.1 := true]> (st_vbGood st) else st_vbGood st)
          (st_vCosParallax st ++ [cosParallax])
    end.

Fixpoint CheckRT_loop (R t K : Mat) (th2 : float)
  (vKeys1 vKeys2 : list KeyPoint) (vbMatchesInliers : list bool)
  (i : nat) (ms : list Match) (st : CheckRTState) : CheckRTState :=
  match ms with
  | [] => st
  | m :: ms' =>
      CheckRT_loop R t K th2 vKeys1 vKeys2 vbMatchesInliers (S i) ms'
        (CheckRT_body R t K th2 vKeys1 vKeys2 vbMatchesInliers i m st)
  end.

(** The state before the loop: [vbGood = vector<bool>(n,false)],
    [vP3D.resize(n)], [nGood = 0]. *)
Definition CheckRT_init (vKeys1 : list KeyPoint) (vP3D : list Point3f)
  : CheckRTState :=
  mkCheckRTState 0 (resize (length vKeys1) zero3 vP3D)
    (replicate (length vKeys1) false) [].

(** [size_t idx = min(50,int(vCosParallax.size()-1))]. *)
Definition parallax_index (vCosParallax : list float) : nat :=
  Z.to_nat (Z.min 50 (Z.of_nat (length vCosParallax) - 1)).

(** The tail of [CheckRT]: the parallax from the recorded cosines. *)
Definition CheckRT_parallax (st : CheckRTState) : float :=
  if 0 <? st_nGood st then
    let sorted := sort_float (st_vCosParallax st) in
    acos_deg (nth (parallax_index sorted) sorted fzero)
  else fzero.

(** The locals when the loop of [CheckRT] is left. *)
Definition CheckRT_final (R t : Mat) (vKeys1 vKeys2 : list KeyPoint)
  (vMatches12 : list Match) (vbMatchesInliers : list bool) (K : Mat)
  (vP3D : list Point3f) (th2 : float) : CheckRTState :=
  CheckRT_loop R t K th2 vKeys1 vKeys2 vbMatchesInliers 0 vMatches12
    (CheckRT_init vKeys1 vP3D).

(** [Initializer::CheckRT]. *)
Definition CheckRT (R t : Mat) (vKeys1 vKeys2 : list KeyPoint)
  (vMatches12 : list Match) (vbMatchesInliers : list bool) (K : Mat)
  (vP3D : list Point3f) (th2 : float) : CheckRTResult :=
  let st := CheckRT_final R t vKeys1 vKeys2 vMatches12 vbMatchesInliers K
              vP3D th2 in
  mkCheckRTResult (st_nGood st) (st_vP3D st) (st_vbGood st)
    (CheckRT_parallax st).

(** The cosines recorded in [vCosParallax] by that call. *)
Definition CheckRT_recorded (R t : Mat) (vKeys1 vKeys2 : list KeyPoint)
  (vMatches12 : list Match) (vbMatchesInliers : list bool) (K : Mat)
  (vP3D : list Point3f) (th2 : float) : list float :=
  st_vCosParallax
    (CheckRT_final R t vKeys1 vKeys2 vMatches12 vbMatchesInliers K vP3D th2).

(* --------------------------------------------------------------------- *)
(** ** ReconstructF and ReconstructH *)
(* --------------------------------------------------------------------- *)

(** The reference parameters [R21], [t21], [vP3D], [vbTriangulated]. *)
Record OutParams := mkOutParams {
  R21 : Mat;
  t21 : Mat;
  vP3D : list Point3f;
  vbTriangulated : list bool
}.

(** [4.0*mSigma2] passed to the [float th2] of [CheckRT]. *)
Definition th2_of (s : InitializerState) : float :=
  to_float (dmul (int_to_double 4) (to_double (mSigma2 s))).

(** [CheckRT(R,t,mvKeys1,mvKeys2,mvMatches12,vbMatchesInliers,K,vP3Di,
    4.0*mSigma2,vbTriangulatedi,parallaxi)] on fresh vectors. *)
Definition CheckRT_hyp (s : InitializerState) (vbMatchesInliers : list bool)
  (K R t : Mat) : CheckRTResult :=
  CheckRT R t (mvKeys1 s) (mvKeys2 s) (mvMatches12 s) vbMatchesInliers K []
    (th2_of s).

(** [if(nGoodi>0.7*maxGood) nsimilar++], as the increment. *)
Definition similar (maxGood nGoodi : Z) : Z :=
  if fgt (int_to_double nGoodi) (dmul d0_7 (int_to_double maxGood))
  then 1 else 0.

(** [max(static_cast<int>(0.9*N),minTriangulated)]. *)
Definition nMinGood_of (N minTriangulated : Z) : Z :=
  Z.max (double_to_int (dmul d0_9 (int_to_double N))) minTriangulated.

(** The decision of [ReconstructF] once the four hypotheses are checked:
    [None] for [return false], [Some (R,t,c)] for the hypothesis copied
    out. *)
Definition ReconstructF_decide (N : Z) (R1 R2 t1 t2 : Mat)
  (c1 c2 c3 c4 : CheckRTResult) (minParallax : float) (minTriangulated : Z)
  : option (Mat * Mat * CheckRTResult) :=
  let maxGood :=
    Z.max (nGood c1) (Z.max (nGood c2) (Z.max (nGood c3) (nGood c4))) in
  let nMinGood := nMinGood_of N minTriangulated in
  let nsimilar :=
    similar maxGood (nGood c1) + similar maxGood (nGood c2) +
    similar maxGood (nGood c3) + similar maxGood (nGood c4) in
  if (maxGood <? nMinGood) || (1 <? nsimilar) then None
  else if maxGood =? nGood c1 then
    if fgt (parallax c1) minParallax then Some (R1, t1, c1) else None
  else if maxGood =? nGood c2 then
    if fgt (parallax c2) minParallax then Some (R2, t1, c2) else None
  else if maxGood =? nGood c3 then
    if fgt (parallax c3) minParallax then Some (R1, t2, c3) else None
  else if maxGood =? nGood c4 then
    if fgt (parallax c4) minParallax then Some (R2, t2, c4) else None
  else None.

(** [Initializer::ReconstructF]: the returned flag and the reference
    parameters after the call ([o] holds them before the call). *)
Definition ReconstructF (s : InitializerState) (vbMatchesInliers : list bool)
  (F21 K : Mat) (o : OutParams) (minParallax : float) (minTriangulated : Z)
  : bool * OutParams :=
  let N := count_true vbMatchesInliers in
  let '(R1, R2, t) := DecomposeE F21 K in
  let t1 := t in
  let t2 := negMat t in
  let c1 := CheckRT_hyp s vbMatchesInliers K R1 t1 in
  let c2 := CheckRT_hyp s vbMatchesInliers K R2 t1 in
  let c3 := CheckRT_hyp s vbMatchesInliers K R1 t2 in
  let c4 := CheckRT_hyp s vbMatchesInliers K R2 t2 in
  match ReconstructF_decide N R1 R2 t1 t2 c1 c2 c3 c4 minParallax
          minTriangulated with
  | None => (false, mkOutParams emptyMat emptyMat (vP3D o) (vbTriangulated o))
  | Some (R, t, c) => (true, mkOutParams R t (r_vP3D c) (r_vbGood c))
  end.

(** The locals [nGood1 .. nGood4], [maxGood] and [nsimilar] of that call. *)
Definition countsF (s : InitializerState) (vbMatchesInliers : list bool)
  (F21 K : Mat) : Z * Z * Z * Z :=
  let '(R1, R2, t) := DecomposeE F21 K in
  (nGood (CheckRT_hyp s vbMatchesInliers K R1 t),
   nGood (CheckRT_hyp s vbMatchesInliers K R2 t),
   nGood (CheckRT_hyp s vbMatchesInliers K R1 (negMat t)),
   nGood (CheckRT_hyp s vbMatchesInliers K R2 (negMat t))).

Definition maxGoodF (s : InitializerState) (vbMatchesInliers : list bool)
  (F21 K : Mat) : Z :=
  let '(g1, g2, g3, g4) := countsF s vbMatchesInliers F21 K in
  Z.max g1 (Z.max g2 (Z.max g3 g4)).

Definition nsimilarF (s : InitializerState) (vbMatchesInliers : list bool)
  (F21 K : Mat) : Z :=
  let '(g1, g2, g3, g4) := countsF s vbMatchesInliers F21 K in
  let maxGood := Z.max g1 (Z.max g2 (Z.max g3 g4)) in
  similar maxGood g1 + similar maxGood g2 + similar maxGood g3 +
  similar maxGood g4.


(** The parallax of the first hypothesis [(R1,t)]. *)
Definition parallax1F (s : InitializerState) (vbMatchesInliers : list bool)
  (F21 K : Mat) : float :=
  parallax (CheckRT_hyp s vbMatchesInliers K (DecomposeE F21 K).1.1
              (DecomposeE F21 K).2).

(** The locals of the loop over the eight hypotheses of [ReconstructH]. *)
Record BestState := mkBestState {
  bestGood : Z;
  secondBestGood : Z;
  bestSolutionIdx : Z;
  bestParallax : float;
  bestP3D : list Point3f;
  bestTriangulated : list bool
}.

Definition best_init : BestState :=
  mkBestState 0 0 (-1) (int_to_float (-1)) [] [].

(** One iteration of that loop, for hypothesis [i] with result [c]. *)
Definition best_step (i : nat) (c : CheckRTResult) (b : BestState)
  : BestState :=
  if bestGood b <? nGood c then
    mkBestState (nGood c) (bestGood b) (Z.of_nat i) (parallax c)
      (r_vP3D c) (r_vbGood c)
  else if secondBestGood b <? nGood c then
    mkBestState (bestGood b) (nGood c) (bestSolutionIdx b) (bestParallax b)
      (bestP3D b) (bestTriangulated b)
  else b.

Fixpoint best_loop (i : nat) (cs : list CheckRTResult) (b : BestState)
  : BestState :=
  match cs with
  | [] => b
  | c :: cs' => best_loop (S i) cs' (best_step i c b)
  end.

(** The final test of [ReconstructH]:
    [secondBestGood<0.75*bestGood && bestParallax>=minParallax &&
     bestGood>minTriangulated && bestGood>0.9*N]. *)
Definition acceptH (N : Z) (b : BestState) (minParallax : float)
  (minTriangulated : Z) : bool :=
  flt (int_to_double (secondBestGood b))
      (dmul d0_75 (int_to_double (bestGood b)))
  && fge (bestParallax b) minParallax
  && (minTriangulated <? bestGood b)
  && fgt (int_to_double (bestGood b)) (dmul d0_9 (int_to_double N)).

(** [d1/d2<1.00001 || d2/d3<1.00001]. *)
Definition degenerateH (d : float * float * float) : bool :=
  let '(d1, d2, d3) := d in
  flt (to_double (fdiv d1 d2)) d1_00001 || flt (to_double (fdiv d2 d3)) d1_00001.

(** The locals after the loop over the hypotheses of [ReconstructH]. *)
Definition bestH (s : InitializerState) (vbMatchesInliers : list bool)
  (H21 K : Mat) : BestState :=
  best_loop 0
    (map (fun h : Mat * Mat => CheckRT_hyp s vbMatchesInliers K h.1 h.2)
       (cv_hypothesesH H21 K))
    best_init.

(** [Initializer::ReconstructH]. *)
Definition ReconstructH (s : InitializerState) (vbMatchesInliers : list bool)
  (H21 K : Mat) (o : OutParams) (minParallax : float) (minTriangulated : Z)
  : bool * OutParams :=
  let N := count_true vbMatchesInliers in
  if degenerateH (cv_singularH H21 K) then (false, o)
  else
    let hyps := cv_hypothesesH H21 K in
    let b := bestH s vbMatchesInliers H21 K in
    if acceptH N b minParallax minTriangulated then
      let h := nth (Z.to_nat (bestSolutionIdx b)) hyps (emptyMat, emptyMat) in
      (true, mkOutParams h.1 h.2 (bestP3D b) (bestTriangulated b))
    else (false, o).

(* --------------------------------------------------------------------- *)
(** ** ReconstructLine *)
(* --------------------------------------------------------------------- *)

(** [v[i] = x] on a [std::vector]: defined only inside the vector. *)
Definition write_at {A} (i : nat) (x : A) (v : list A) : option (list A) :=
  if decide (i < length v)%nat then Some (<[i := x]> v) else None.

(** The reference parameters [vLineS3D], [vLineE3D], [vbLineTriangulated]. *)
Record LineOut := mkLineOut {
  vLineS3D : list Point3f;
  vLineE3D : list Point3f;
  vbLineTriangulated : list bool
}.

(** The tests of one iteration of the loop of [ReconstructLine]: the two
    end points when the match is kept, [None] when an instruction
    [continue] is reached. *)
Definition ReconstructLine_accept (s : InitializerState) (K R t : Mat)
  (m : Match) : option (Point3f * Point3f) :=
  let kl1 := mvKeyLines1 s !!! m.1 in
  let kl2 := mvKeyLines2 s !!! m.2 in
  let klf1 := mvKeyLineFunctions1 s !!! m.1 in
  let klf2 := mvKeyLineFunctions2 s !!! m.2 in
  let Result1 :=
    cv_epipolarCos K R t (startPointX kl1) (startPointY kl1) klf2 in
  let Result2 :=
    cv_epipolarCos K R t (endPointX kl1) (endPointY kl1) klf2 in
  if fgt (to_double (fabs Result1)) d0_98
     || fgt (to_double (fabs Result2)) d0_98 then None
  else
    let '(L3dSC1, L3dEC1) :=
      LineTriangulate kl1 kl2 (cv_P1 K) (cv_P2 K R t) klf1 klf2 in
    if negb (finite3 L3dSC1 && finite3 L3dEC1) then None
    else
      let O2 := cv_center R t in
      let cosParallax1 := cosParallaxOf zero3 O2 L3dSC1 in
      let cosParallax2 := cosParallaxOf zero3 O2 L3dEC1 in
      if fge (to_double cosParallax1) d0_99998
         || fge (to_double cosParallax2) d0_99998 then None
      else Some (L3dSC1, L3dEC1).

(** One iteration: the three writes at [index = vLineMatches[i].first].
    The reprojection errors [errorC1], [errorC2] are locals that are never
    read and the drawing goes to a temporary image; neither is modelled. *)
Definition ReconstructLine_body (s : InitializerState) (K R t : Mat)
  (m : Match) (o : LineOut) : option LineOut :=
  match ReconstructLine_accept s K R t m with
  | None => Some o
  | Some (L3dSC1, L3dEC1) =>
      S ← write_at m.1 L3dSC1 (vLineS3D o);
      E ← write_at m.1 L3dEC1 (vLineE3D o);
      T ← write_at m.1 true (vbLineTriangulated o);
      Some (mkLineOut S E T)
  end.

Fixpoint ReconstructLine_loop (s : InitializerState) (K R t : Mat)
  (ms : list Match) (o : LineOut) : option LineOut :=
  match ms with
  | [] => Some o
  | m :: ms' =>
      o' ← ReconstructLine_body s K R t m o;
      ReconstructLine_loop s K R t ms' o'
  end.

(** [Initializer::ReconstructLine]; [None] when a write falls outside its
    vector (undefined behaviour in C++). *)
Definition ReconstructLine (s : InitializerState) (vLineMatches : list Match)
  (K R t : Mat) (o : LineOut) : option LineOut :=
  let n := length (mvKeys1 s) in
  ReconstructLine_loop s K R t vLineMatches
    (mkLineOut (resize n zero3 (vLineS3D o)) (resize n zero3 (vLineE3D o))
       (resize n false (vbLineTriangulated o))).

(* --------------------------------------------------------------------- *)
(** ** Initialize *)
(* --------------------------------------------------------------------- *)

(** What the two threads [FindHomography] and [FindFundamental] leave in
    [vbMatchesInliersH, SH, H] and [vbMatchesInliersF, SF, F] (the fields
    [H21_best] and [F21_best] are the matrices [H] and [F]).  They run
    RANSAC over the sample sets drawn with [DUtils::Random] and estimate
    each model by SVD; their result is an input here. *)
Record RansacOut := mkRansacOut {
  vbMatchesInliersH : list bool; SH : float; H21_best : Mat;
  vbMatchesInliersF : list bool; SF : float; F21_best : Mat
}.

(** Which reconstruction is called. *)
Inductive Model := ModelH | ModelF.

(** [float RH = SH/(SH+SF);]. *)
Definition RH_of (r : RansacOut) : float := fdiv (SH r) (fadd (SH r) (SF r)).

(** [minParallax = 1.0] and [minTriangulated = 50] of both calls. *)
Definition minParallax0 : float := to_float (dlit 10 10).
Definition minTriangulated0 : Z := 50.

(** Step 1 of [Initialize]: the pairs [(i, vMatches12[i])] with
    [vMatches12[i] >= 0]. *)
Fixpoint build_matches (i : nat) (vMatches12 : list Z) : list Match :=
  match vMatches12 with
  | [] => []
  | j :: rest =>
      if 0 <=? j then (i, Z.to_nat j) :: build_matches (S i) rest
      else build_matches (S i) rest
  end.

(** [Initializer::Initialize] (points only) from step 4 on: the model whose
    reconstruction is called, and what that call returns. *)
Definition Initialize (s : InitializerState) (r : RansacOut) (o : OutParams)
  : Model * (bool * OutParams) :=
  let RH := RH_of r in
  if fgt (to_double RH) d0_40 then
    (ModelH, ReconstructH s (vbMatchesInliersH r) (H21_best r) (mK s) o
               minParallax0 minTriangulated0)
  else
    (ModelF, ReconstructF s (vbMatchesInliersF r) (F21_best r) (mK s) o
               minParallax0 minTriangulated0).

(** [Initializer::Initialize] with line matches: [ReconstructLine] runs
    after a successful reconstruction, with the recovered [R21], [t21]. *)
Definition InitializeLines (s : InitializerState) (r : RansacOut)
  (vLineMatches12 : list Z) (o : OutParams) (lo : LineOut)
  : Model * (bool * OutParams) * option LineOut :=
  let res := Initialize s r o in
  let mvLineMatches12 := build_matches 0 vLineMatches12 in
  if res.2.1 then
    (res, ReconstructLine s mvLineMatches12 (mK s) (R21 res.2.2)
            (t21 res.2.2) lo)
  else (res, Some lo).

End Reconstruction.

(* --------------------------------------------------------------------- *)
(** ** Predicates used to state the properties *)
(* --------------------------------------------------------------------- *)

(** The inlier flag of a match whose two chi-squares are [c1], [c2]: neither
    is above the threshold. *)
Definition both_pass (th c1 c2 : float) : bool :=
  negb (fgt c1 th) && negb (fgt c2 th).

(** What the loop of [CheckRT] keeps true: [nGood] is the number of recorded
    cosines and bounds the number of flags set. *)
Definition CheckRT_inv (st : CheckRTState) : Prop :=
  st_nGood st = Z.of_nat (length (st_vCosParallax st)) /\
  count_true (st_vbGood st) <= st_nGood st.

(** The three vectors of [ReconstructLine] all have [n] elements. *)
Definition sized (n : nat) (o : LineOut) : Prop :=
  length (vLineS3D o) = n /\ length (vLineE3D o) = n /\
  length (vbLineTriangulated o) = n.


(* --------------------------------------------------------------------- *)
(** ** Initialize: the match list and the sample sets *)
(* --------------------------------------------------------------------- *)

#[global] Instance Point2f_inhabited : Inhabited Point2f :=
  populate (mkPoint2f fzero fzero).

(** The writes [mvbMatched1[i]=true] and [mvbMatched1[i]=false] of step 1,
    for [i] running over [vMatches12]. *)
Fixpoint fill_matched1 (i : nat) (vMatches12 : list Z)
  (mvbMatched1 : list bool) : option (list bool) :=
  match vMatches12 with
  | [] => Some mvbMatched1
  | j :: rest =>
      v ← write_at i (0 <=? j) mvbMatched1;
      fill_matched1 (S i) rest v
  end.

(** Step 1 of [Initialize]: [mvMatches12] and [mvbMatched1] after the loop
    ([mvbMatched1] is first resized to [mvKeys1.size()]); [None] when a write
    to [mvbMatched1] falls outside it. *)
Definition Initialize_step1 (s : InitializerState) (vMatches12 : list Z)
  (mvbMatched1 : list bool) : option (list Match * list bool) :=
  v ← fill_matched1 0 vMatches12
        (resize (length (mvKeys1 s)) false mvbMatched1);
  Some (build_matches 0 vMatches12, v).

(** [DUtils::Random::RandomInt(min,max)]: the value returned by the call
    number [k] of the run. *)
Definition RandomSource : Type := nat -> Z -> Z -> Z.

(** [idx = v[randi]; v[randi] = v.back(); v.pop_back();] on
    [vAvailableIndices]: the index drawn and the indices left; [None] when
    [randi] is outside the vector. *)
Definition draw (randi : Z) (v : list nat) : option (nat * list nat) :=
  if randi <? 0 then None
  else
    idx ← v !! Z.to_nat randi;
    back ← last v;
    Some (idx, take (length v - 1) (<[Z.to_nat randi := back]> v)).

(** The [j] remaining draws of one sample set, the next call of the random
    source being call number [k]. *)
Fixpoint select_set (rnd : RandomSource) (k j : nat)
  (vAvailableIndices : list nat) : option (list nat) :=
  match j with
  | O => Some []
  | S j' =>
      d ← draw (rnd k 0 (Z.of_nat (length vAvailableIndices) - 1))
            vAvailableIndices;
      rest ← select_set rnd (S k) j' d.2;
      Some (d.1 :: rest)
  end.

(** The sets of the iterations [it, it+1, ..]: each starts again from
    [vAllIndices = 0 .. N-1]. *)
Fixpoint select_sets (rnd : RandomSource) (N it n : nat)
  : option (list (list nat)) :=
  match n with
  | O => Some []
  | S n' =>
      set ← select_set rnd (8 * it) 8 (seq 0 N);
      rest ← select_sets rnd N (S it) n';
      Some (set :: rest)
  end.

(** Step 2 of [Initialize]: [mvSets]. *)
Definition Initialize_step2 (rnd : RandomSource) (N mMaxIterations : nat)
  : option (list (list nat)) :=
  select_sets rnd N 0 mMaxIterations.

(* --------------------------------------------------------------------- *)
(** ** Normalize, FindHomography and FindFundamental *)
(* --------------------------------------------------------------------- *)

(** What the two estimators delegate to OpenCV: [M.inv()], [M.t()], [A*B],
    and the SVD-based [ComputeH21] and [ComputeF21]. *)
Class SvdKernel := {
  cv_inv : Mat -> Mat;
  cv_t : Mat -> Mat;
  cv_mul : Mat -> Mat -> Mat;
  ComputeH21 : list Point2f -> list Point2f -> Mat;
  ComputeF21 : list Point2f -> list Point2f -> Mat
}.

(** [Initializer::Normalize]: the normalised points and the matrix [T].
    ([N] is converted to [float] by the divisions; [fabs] is exact, and a
    sum of two floats formed in [double] and stored in a [float] is their
    [float] sum.) *)
Definition Normalize (vKeys : list KeyPoint) : list Point2f * Mat :=
  let N := int_to_float (Z.of_nat (length vKeys)) in
  let meanX :=
    fdiv (fold_left (fun a k => fadd a (p2x (pt k))) vKeys fzero) N in
  let meanY :=
    fdiv (fold_left (fun a k => fadd a (p2y (pt k))) vKeys fzero) N in
  let centred :=
    map (fun k => mkPoint2f (fsub (p2x (pt k)) meanX)
                            (fsub (p2y (pt k)) meanY)) vKeys in
  let meanDevX :=
    fdiv (fold_left (fun a p => fadd a (fabs (p2x p))) centred fzero) N in
  let meanDevY :=
    fdiv (fold_left (fun a p => fadd a (fabs (p2y p))) centred fzero) N in
  let sX := to_float (ddiv (int_to_double 1) (to_double meanDevX)) in
  let sY := to_float (ddiv (int_to_double 1) (to_double meanDevY)) in
  (map (fun p => mkPoint2f (fmul (p2x p) sX) (fmul (p2y p) sY)) centred,
   [[sX; fzero; fmul (fneg meanX) sX];
    [fzero; sY; fmul (fneg meanY) sY];
    [fzero; fzero; int_to_float 1]]).

(** The best result so far of a RANSAC loop: [vbMatchesInliers], [score] and
    the matrix. *)
Definition Best : Type := list bool * float * Mat.

(** [if(currentScore>score) { M = Mi.clone(); vbMatchesInliers =
    vbCurrentInliers; score = currentScore; }]. *)
Definition keep_best (best : Best) (Mi : Mat) (r : float * list bool) : Best :=
  if fgt r.1 best.1.2 then (r.2, r.1, Mi) else best.

Section Ransac.
Context {svd : SvdKernel}.

(** [vPn1i[j] = vPn1[mvMatches12[idx].first]] and
    [vPn2i[j] = vPn2[mvMatches12[idx].second]] for [idx = mvSets[it][j]]. *)
Definition minimal_set (s : InitializerState) (vPn1 vPn2 : list Point2f)
  (set : list nat) : list Point2f * list Point2f :=
  (map (fun idx => vPn1 !!! (mvMatches12 s !!! idx).1) set,
   map (fun idx => vPn2 !!! (mvMatches12 s !!! idx).2) set).

(** [H21i = T2inv*Hn*T1] for one sample set. *)
Definition candidateH (s : InitializerState) (set : list nat) : Mat :=
  let n1 := Normalize (mvKeys1 s) in
  let n2 := Normalize (mvKeys2 s) in
  let T2inv := cv_inv n2.2 in
  let p := minimal_set s n1.1 n2.1 set in
  let Hn := ComputeH21 p.1 p.2 in
  cv_mul (cv_mul T2inv Hn) n1.2.

(** [CheckHomography(H21i, H12i, vbCurrentInliers, mSigma)] with
    [H12i = H21i.inv()]. *)
Definition scoreH (s : InitializerState) (H21i : Mat) : float * list bool :=
  CheckHomography s H21i (cv_inv H21i) (mSigma s).

(** [Initializer::FindHomography]: [vbMatchesInliers], [score] and [H21]
    after the call; [H21] holds [H21_in] before it. *)
Definition FindHomography (s : InitializerState) (mvSets : list (list nat))
  (H21_in : Mat) : Best :=
  let N := length (mvMatches12 s) in
  fold_left
    (fun best set =>
       let H21i := candidateH s set in keep_best best H21i (scoreH s H21i))
    mvSets (replicate N false, fzero, H21_in).

(** [F21i = T2t*Fn*T1] for one sample set. *)
Definition candidateF (s : InitializerState) (set : list nat) : Mat :=
  let n1 := Normalize (mvKeys1 s) in
  let n2 := Normalize (mvKeys2 s) in
  let T2t := cv_t n2.2 in
  let p := minimal_set s n1.1 n2.1 set in
  let Fn := ComputeF21 p.1 p.2 in
  cv_mul (cv_mul T2t Fn) n1.2.

Definition scoreF (s : InitializerState) (F21i : Mat) : float * list bool :=
  CheckFundamental s F21i (mSigma s).

(** [Initializer::FindFundamental]; its [N] is the size that
    [vbMatchesInliers] has before the call. *)
Definition FindFundamental (s : InitializerState) (mvSets : list (list nat))
  (vbMatchesInliers_in : list bool) (F21_in : Mat) : Best :=
  let N := length vbMatchesInliers_in in
  fold_left
    (fun best set =>
       let F21i := candidateF s set in keep_best best F21i (scoreF s F21i))
    mvSets (replicate N false, fzero, F21_in).

End Ransac.

(** [Initializer::SkewSymmetricMatrix] of the 3x1 matrix [v]. *)
Definition SkewSymmetricMatrix (v : Mat) : Mat :=
  let v0 := at_ v 0 0 in let v1 := at_ v 1 0 in let v2 := at_ v 2 0 in
  [[int_to_float 0; fneg v2; v1];
   [v2; int_to_float 0; fneg v0];
   [fneg v1; v0; int_to_float 0]].

(** The initializer with the two frames exchanged. *)
Definition swap_frames (s : InitializerState) : InitializerState :=
  mkInitializer (mvKeys2 s) (mvKeys1 s)
    (map (fun m : Match => (m.2, m.1)) (mvMatches12 s)) (mK s) (mSigma s)
    (mSigma2 s) (mvKeyLines2 s) (mvKeyLines1 s) (mvKeyLineFunctions2 s)
    (mvKeyLineFunctions1 s).

(* --------------------------------------------------------------------- *)
(** ** Further predicates used to state the properties *)
(* --------------------------------------------------------------------- *)

(** [RandomInt(min,max)] returns a value between [min] and [max]. *)
Definition in_range (rnd : RandomSource) : Prop :=
  forall (k : nat) (lo hi : Z), lo <= hi -> lo <= rnd k lo hi <= hi.

(** [M.t()] of a 3x3 matrix. *)
Definition transpose3 (M : Mat) : Mat :=
  [[at_ M 0 0; at_ M 1 0; at_ M 2 0];
   [at_ M 0 1; at_ M 1 1; at_ M 2 1];
   [at_ M 0 2; at_ M 1 2; at_ M 2 2]].

(** What the loop over the hypotheses of [ReconstructH] keeps true once the
    results [cs] have been gone through: [bestGood] is the highest count,
    reached first at [bestSolutionIdx], whose parallax and points are kept,
    and [secondBestGood] is the highest count among the other results. *)
Definition best_inv (cs : list CheckRTResult) (b : BestState) : Prop :=
  0 <= secondBestGood b <= bestGood b /\
  Forall (fun c => nGood c <= bestGood b) cs /\
  (bestGood b = 0 -> bestSolutionIdx b = -1 /\ secondBestGood b = 0) /\
  (0 < bestGood b ->
   exists (i : nat) (c : CheckRTResult),
     bestSolutionIdx b = Z.of_nat i /\ cs !! i = Some c /\
     nGood c = bestGood b /\ bestParallax b = parallax c /\
     bestP3D b = r_vP3D c /\ bestTriangulated b = r_vbGood c /\
     Forall (fun c' => nGood c' < bestGood b) (take i cs) /\
     Forall (fun c' => nGood c' <= secondBestGood b)
       (take i cs ++ drop (S i) cs) /\
     (secondBestGood b = 0 \/
      Exists (fun c' => nGood c' = secondBestGood b)
        (take i cs ++ drop (S i) cs))).

(** The match [m] passes all the tests of an iteration of [CheckRT]. *)
Definition survives {cv : CvKernel} (R t K : Mat) (th2 : float)
  (vKeys1 vKeys2 : list KeyPoint) (m : Match) : bool :=
  match CheckRT_verdict R t K th2 (vKeys1 !!! m.1) (vKeys2 !!! m.2) with
  | Survives _ _ => true
  | _ => false
  end.

(** It passes them with [cosParallax<0.99998]. *)
Definition triangulated {cv : CvKernel} (R t K : Mat) (th2 : float)
  (vKeys1 vKeys2 : list KeyPoint) (m : Match) : bool :=
  match CheckRT_verdict R t K th2 (vKeys1 !!! m.1) (vKeys2 !!! m.2) with
  | Survives _ cosParallax => flt (to_double cosParallax) d0_99998
  | _ => false
  end.

(** Some match of [ms] that [ReconstructLine] keeps has first index [k]. *)
Definition accepted_at {cv : CvKernel} (s : InitializerState) (K R t : Mat)
  (ms : list Match) (k : nat) : Prop :=
  Exists (fun m : Match =>
            m.1 = k /\ is_Some (ReconstructLine_accept s K R t m)) ms.

(** Step 1 of [Initialize] with lines, on the line matches:
    [mvLineMatches12] and [mvbLineMatched1] (resized to
    [mvKeyLines1.size()]) after the loop. *)
Definition Initialize_line_matches (s : InitializerState)
  (vLineMatches12 : list Z) (mvbLineMatched1 : list bool)
  : option (list Match * list bool) :=
  v ← fill_matched1 0 vLineMatches12
        (resize (length (mvKeyLines1 s)) false mvbLineMatched1);
  Some (build_matches 0 vLineMatches12, v).

End Initializer.

(* ===================================================================== *)
(** * LocalMapping.cc: control state and keyframe culling *)
(* ===================================================================== *)

Module LocalMapping.

Import Initializer.

(** [KeyFrame*] and [MapPoint*]: addresses into the map. *)
Definition KFptr : Type := nat.
Definition MPptr : Type := nat.

(** Modelled from the spec: MapPoint.cc is not among the sources.  A
    MapPoint has a bad flag and its observing keyframes (keyframe to
    feature index); [Observations()] is the counter [nObs] the class keeps
    beside them. *)
Record MapPoint := mkMapPoint {
  mp_isBad : bool;
  mp_Observations : Z;
  mp_GetObservations : list (KFptr * nat)
}.

(** Modelled from the spec: KeyFrame.cc is not among the sources.  A
    KeyFrame has an id, its features [mvKeysUn], the observed MapPoints
    [GetMapPointMatches()] (null where a feature has none), depths for the
    stereo case, its covisible keyframes and a bad flag. *)
Record KeyFrame := mkKeyFrame {
  mnId : Z;
  kf_mvKeysUn : list KeyPoint;
  GetMapPointMatches : list (option MPptr);
  mvDepth : list float;
  mThDepth : float;
  GetVectorCovisibleKeyFrames : list KFptr;
  kf_isBad : bool
}.

#[global] Instance MapPoint_inhabited : Inhabited MapPoint :=
  populate (mkMapPoint false 0 []).
#[global] Instance KeyFrame_inhabited : Inhabited KeyFrame :=
  populate (mkKeyFrame 0 [] [] [] fzero [] false).

(** The objects the pointers reach. *)
Record Heap := mkHeap {
  keyframes : gmap KFptr KeyFrame;
  mappoints : gmap MPptr MapPoint
}.

Definition kf_at (h : Heap) (p : KFptr) : KeyFrame :=
  default inhabitant (keyframes h !! p).
Definition mp_at (h : Heap) (p : MPptr) : MapPoint :=
  default inhabitant (mappoints h !! p).

(** Modelled from the spec: [KeyFrame::SetBadFlag] flags the keyframe bad. *)
Definition SetBadFlag (h : Heap) (p : KFptr) : Heap :=
  let kf := kf_at h p in
  mkHeap
    (<[p := mkKeyFrame (mnId kf) (kf_mvKeysUn kf) (GetMapPointMatches kf)
              (mvDepth kf) (mThDepth kf) (GetVectorCovisibleKeyFrames kf)
              true]> (keyframes h))
    (mappoints h).

(** The members of [LocalMapping]. *)
Record State := mkState {
  mbMonocular : bool;
  mbResetRequested : bool;
  mbFinishRequested : bool;
  mbFinished : bool;
  mbAbortBA : bool;
  mbStopped : bool;
  mbStopRequested : bool;
  mbNotStop : bool;
  mbAcceptKeyFrames : bool;
  mlNewKeyFrames : list KFptr;
  mlpRecentAddedMapPoints : list MPptr;
  mlpRecentAddedMapLines : list nat;
  mpCurrentKeyFrame : KFptr
}.

(** [LocalMapping::LocalMapping(pMap, bMonocular)]. *)
Definition LocalMapping_new (bMonocular : bool) : State :=
  {| mbMonocular := bMonocular;
     mbResetRequested := false;
     mbFinishRequested := false;
     mbFinished := true;
     mbAbortBA := false;
     mbStopped := false;
     mbStopRequested := false;
     mbNotStop := false;
     mbAcceptKeyFrames := true;
     mlNewKeyFrames := [];
     mlpRecentAddedMapPoints := [];
     mlpRecentAddedMapLines := [];
     mpCurrentKeyFrame := 0%nat |}.

(** The entry of [Run]: [mbFinished = false]. *)
Definition Run_enter (s : State) : State :=
  mkState (mbMonocular s) (mbResetRequested s) (mbFinishRequested s) false
    (mbAbortBA s) (mbStopped s) (mbStopRequested s) (mbNotStop s)
    (mbAcceptKeyFrames s) (mlNewKeyFrames s) (mlpRecentAddedMapPoints s)
    (mlpRecentAddedMapLines s) (mpCurrentKeyFrame s).

Definition InsertKeyFrame (pKF : KFptr) (s : State) : State :=
  mkState (mbMonocular s) (mbResetRequested s) (mbFinishRequested s)
    (mbFinished s) true (mbStopped s) (mbStopRequested s) (mbNotStop s)
    (mbAcceptKeyFrames s) (mlNewKeyFrames s ++ [pKF])
    (mlpRecentAddedMapPoints s) (mlpRecentAddedMapLines s)
    (mpCurrentKeyFrame s).

Definition RequestStop (s : State) : State :=
  mkState (mbMonocular s) (mbResetRequested s) (mbFinishRequested s)
    (mbFinished s) true (mbStopped s) true (mbNotStop s)
    (mbAcceptKeyFrames s) (mlNewKeyFrames s) (mlpRecentAddedMapPoints s)
    (mlpRecentAddedMapLines s) (mpCurrentKeyFrame s).

(** [Stop()]: the returned flag and the state. *)
Definition Stop (s : State) : bool * State :=
  if mbStopRequested s && negb (mbNotStop s) then
    (true,
     mkState (mbMonocular s) (mbResetRequested s) (mbFinishRequested s)
       (mbFinished s) (mbAbortBA s) true (mbStopRequested s) (mbNotStop s)
       (mbAcceptKeyFrames s) (mlNewKeyFrames s) (mlpRecentAddedMapPoints s)
       (mlpRecentAddedMapLines s) (mpCurrentKeyFrame s))
  else (false, s).

Definition isStopped (s : State) : bool := mbStopped s.
Definition stopRequested (s : State) : bool := mbStopRequested s.

(** [Release()]: nothing when [mbFinished]; otherwise the two stop flags are
    cleared and the queued keyframes deleted. *)
Definition Release (s : State) : State :=
  if mbFinished s then s
  else
    mkState (mbMonocular s) (mbResetRequested s) (mbFinishRequested s)
      (mbFinished s) (mbAbortBA s) false false (mbNotStop s)
      (mbAcceptKeyFrames s) [] (mlpRecentAddedMapPoints s)
      (mlpRecentAddedMapLines s) (mpCurrentKeyFrame s).

Definition SetAcceptKeyFrames (flag : bool) (s : State) : State :=
  mkState (mbMonocular s) (mbResetRequested s) (mbFinishRequested s)
    (mbFinished s) (mbAbortBA s) (mbStopped s) (mbStopRequested s)
    (mbNotStop s) flag (mlNewKeyFrames s) (mlpRecentAddedMapPoints s)
    (mlpRecentAddedMapLines s) (mpCurrentKeyFrame s).

Definition SetNotStop (flag : bool) (s : State) : bool * State :=
  if flag && mbStopped s then (false, s)
  else
    (true,
     mkState (mbMonocular s) (mbResetRequested s) (mbFinishRequested s)
       (mbFinished s) (mbAbortBA s) (mbStopped s) (mbStopRequested s) flag
       (mbAcceptKeyFrames s) (mlNewKeyFrames s) (mlpRecentAddedMapPoints s)
       (mlpRecentAddedMapLines s) (mpCurrentKeyFrame s)).

Definition InterruptBA (s : State) : State :=
  mkState (mbMonocular s) (mbResetRequested s) (mbFinishRequested s)
    (mbFinished s) true (mbStopped s) (mbStopRequested s) (mbNotStop s)
    (mbAcceptKeyFrames s) (mlNewKeyFrames s) (mlpRecentAddedMapPoints s)
    (mlpRecentAddedMapLines s) (mpCurrentKeyFrame s).

(** The control flags and the queue, without the map contents. *)
Definition control (s : State)
  : bool * bool * bool * bool * bool * bool * bool * bool * list KFptr :=
  (mbResetRequested s, mbFinishRequested s, mbFinished s, mbAbortBA s,
   mbStopped s, mbStopRequested s, mbNotStop s, mbAcceptKeyFrames s,
   mlNewKeyFrames s).

(* --------------------------------------------------------------------- *)
(** ** KeyFrameCulling *)
(* --------------------------------------------------------------------- *)

(** The inner loop over [observations] of MapPoint [pMP], counting in
    [nObs] the keyframes other than [pKF] that see it at a level
    [scaleLeveli <= scaleLevel+1], and leaving at [thObs]. *)
Fixpoint count_observers (h : Heap) (pKF : KFptr) (scaleLevel thObs : Z)
  (observations : list (KFptr * nat)) (nObs : Z) : Z :=
  match observations with
  | [] => nObs
  | (pKFi, idx) :: rest =>
      if decide (pKFi = pKF) then
        count_observers h pKF scaleLevel thObs rest nObs
      else
        let scaleLeveli := octave (kf_mvKeysUn (kf_at h pKFi) !!! idx) in
        if scaleLeveli <=? scaleLevel + 1 then
          if thObs <=? nObs + 1 then nObs + 1
          else count_observers h pKF scaleLevel thObs rest (nObs + 1)
        else count_observers h pKF scaleLevel thObs rest nObs
  end.

Definition thObs : Z := 3.

(** One iteration of the loop over [vpMapPoints], on the pair
    [(nRedundantObservations, nMPs)]. *)
Definition culling_body (h : Heap) (monocular : bool) (pKF : KFptr)
  (i : nat) (pMP : option MPptr) (acc : Z * Z) : Z * Z :=
  match pMP with
  | None => acc
  | Some p =>
      let mp := mp_at h p in
      let kf := kf_at h pKF in
      if mp_isBad mp then acc
      else if negb monocular
              && (fgt (mvDepth kf !!! i) (mThDepth kf)
                  || flt (mvDepth kf !!! i) fzero) then acc
      else
        let nMPs := acc.2 + 1 in
        if thObs <? mp_Observations mp then
          let scaleLevel := octave (kf_mvKeysUn kf !!! i) in
          let nObs :=
            count_observers h pKF scaleLevel thObs (mp_GetObservations mp) 0 in
          if thObs <=? nObs then (acc.1 + 1, nMPs) else (acc.1, nMPs)
        else (acc.1, nMPs)
  end.

Fixpoint culling_loop (h : Heap) (monocular : bool) (pKF : KFptr)
  (i : nat) (vpMapPoints : list (option MPptr)) (acc : Z * Z) : Z * Z :=
  match vpMapPoints with
  | [] => acc
  | pMP :: rest =>
      culling_loop h monocular pKF (S i) rest
        (culling_body h monocular pKF i pMP acc)
  end.

(** [nRedundantObservations>0.9*nMPs] for keyframe [pKF]. *)
Definition redundant (h : Heap) (monocular : bool) (pKF : KFptr) : bool :=
  let acc :=
    culling_loop h monocular pKF 0 (GetMapPointMatches (kf_at h pKF)) (0, 0) in
  fgt (int_to_double acc.1) (dmul d0_9 (int_to_double acc.2)).

(** The outer loop over the covisible keyframes. *)
Fixpoint KeyFrameCulling_loop (monocular : bool) (vpLocalKeyFrames : list KFptr)
  (h : Heap) : Heap :=
  match vpLocalKeyFrames with
  | [] => h
  | pKF :: rest =>
      if mnId (kf_at h pKF) =? 0 then KeyFrameCulling_loop monocular rest h
      else if redundant h monocular pKF then
        KeyFrameCulling_loop monocular rest (SetBadFlag h pKF)
      else KeyFrameCulling_loop monocular rest h
  end.

(** [LocalMapping::KeyFrameCulling]. *)
Definition KeyFrameCulling (s : State) (h : Heap) : Heap :=
  KeyFrameCulling_loop (mbMonocular s)
    (GetVectorCovisibleKeyFrames (kf_at h (mpCurrentKeyFrame s))) h.


(* --------------------------------------------------------------------- *)
(** ** The keyframe queue, reset and finish *)
(* --------------------------------------------------------------------- *)

(** [CheckNewKeyFrames()]: [!mlNewKeyFrames.empty()]. *)
Definition CheckNewKeyFrames (s : State) : bool :=
  match mlNewKeyFrames s with [] => false | _ :: _ => true end.

(** Step 1 of [ProcessNewKeyFrame]: [mpCurrentKeyFrame =
    mlNewKeyFrames.front(); mlNewKeyFrames.pop_front();], undefined on an
    empty list.  The steps that follow work on the map and leave the members
    modelled here as they are, except [mlpRecentAddedMapPoints] and
    [mlpRecentAddedMapLines], which may grow. *)
Definition ProcessNewKeyFrame_front (s : State) : option State :=
  match mlNewKeyFrames s with
  | [] => None
  | pKF :: rest =>
      Some (mkState (mbMonocular s) (mbResetRequested s) (mbFinishRequested s)
              (mbFinished s) (mbAbortBA s) (mbStopped s) (mbStopRequested s)
              (mbNotStop s) (mbAcceptKeyFrames s) rest
              (mlpRecentAddedMapPoints s) (mlpRecentAddedMapLines s) pKF)
  end.

(** [AcceptKeyFrames()]. *)
Definition AcceptKeyFrames (s : State) : bool := mbAcceptKeyFrames s.

(** The first block of [RequestReset()]: [mbResetRequested = true]; the
    caller then waits until [Run] has cleared the flag. *)
Definition RequestReset_flag (s : State) : State :=
  mkState (mbMonocular s) true (mbFinishRequested s) (mbFinished s)
    (mbAbortBA s) (mbStopped s) (mbStopRequested s) (mbNotStop s)
    (mbAcceptKeyFrames s) (mlNewKeyFrames s) (mlpRecentAddedMapPoints s)
    (mlpRecentAddedMapLines s) (mpCurrentKeyFrame s).

Definition ResetIfRequested (s : State) : State :=
  if mbResetRequested s then
    mkState (mbMonocular s) false (mbFinishRequested s) (mbFinished s)
      (mbAbortBA s) (mbStopped s) (mbStopRequested s) (mbNotStop s)
      (mbAcceptKeyFrames s) [] [] [] (mpCurrentKeyFrame s)
  else s.

Definition RequestFinish (s : State) : State :=
  mkState (mbMonocular s) (mbResetRequested s) true (mbFinished s)
    (mbAbortBA s) (mbStopped s) (mbStopRequested s) (mbNotStop s)
    (mbAcceptKeyFrames s) (mlNewKeyFrames s) (mlpRecentAddedMapPoints s)
    (mlpRecentAddedMapLines s) (mpCurrentKeyFrame s).

Definition CheckFinish (s : State) : bool := mbFinishRequested s.

(** [SetFinish()]: [mbFinished = true; mbStopped = true;]. *)
Definition SetFinish (s : State) : State :=
  mkState (mbMonocular s) (mbResetRequested s) (mbFinishRequested s) true
    (mbAbortBA s) true (mbStopRequested s) (mbNotStop s)
    (mbAcceptKeyFrames s) (mlNewKeyFrames s) (mlpRecentAddedMapPoints s)
    (mlpRecentAddedMapLines s) (mpCurrentKeyFrame s).

Definition isFinished (s : State) : bool := mbFinished s.

(** [mbAbortBA = false;] in the loop of [Run]. *)
Definition Run_clearAbortBA (s : State) : State :=
  mkState (mbMonocular s) (mbResetRequested s) (mbFinishRequested s)
    (mbFinished s) false (mbStopped s) (mbStopRequested s) (mbNotStop s)
    (mbAcceptKeyFrames s) (mlNewKeyFrames s) (mlpRecentAddedMapPoints s)
    (mlpRecentAddedMapLines s) (mpCurrentKeyFrame s).

(** A call made on the mapper by another thread or by [Run], and the two
    assignments that [Run] makes itself. *)
Inductive Call :=
| CallInsertKeyFrame (pKF : KFptr)
| CallRequestStop
| CallStop
| CallRelease
| CallSetAcceptKeyFrames (flag : bool)
| CallSetNotStop (flag : bool)
| CallInterruptBA
| CallRequestReset
| CallResetIfRequested
| CallRequestFinish
| CallRun_enter
| CallRun_clearAbortBA
| CallSetFinish.

(** The members after the call. *)
Definition call (c : Call) (s : State) : State :=
  match c with
  | CallInsertKeyFrame pKF => InsertKeyFrame pKF s
  | CallRequestStop => RequestStop s
  | CallStop => (Stop s).2
  | CallRelease => Release s
  | CallSetAcceptKeyFrames flag => SetAcceptKeyFrames flag s
  | CallSetNotStop flag => (SetNotStop flag s).2
  | CallInterruptBA => InterruptBA s
  | CallRequestReset => RequestReset_flag s
  | CallResetIfRequested => ResetIfRequested s
  | CallRequestFinish => RequestFinish s
  | CallRun_enter => Run_enter s
  | CallRun_clearAbortBA => Run_clearAbortBA s
  | CallSetFinish => SetFinish s
  end.

(** A sequence of calls, in the order in which they take the mutexes. *)
Definition calls (cs : list Call) (s : State) : State :=
  fold_left (fun s c => call c s) cs s.

(* --------------------------------------------------------------------- *)
(** ** MapPointCulling and MapLineCulling *)
(* --------------------------------------------------------------------- *)

(** Modelled from the spec: MapPoint.cc and MapLine.cc are not among the
    sources.  The members of a MapPoint or MapLine that the culling of the
    recently added ones reads: the bad flag, [GetFoundRatio()],
    [mnFirstKFid] and [Observations()]. *)
Record Landmark := mkLandmark {
  lm_isBad : bool;
  lm_GetFoundRatio : float;
  lm_mnFirstKFid : Z;
  lm_Observations : Z
}.

#[global] Instance Landmark_inhabited : Inhabited Landmark :=
  populate (mkLandmark false fzero 0 0).

Definition lm_at (lms : gmap nat Landmark) (p : nat) : Landmark :=
  default inhabitant (lms !! p).

(** Modelled from the spec: [SetBadFlag] of a MapPoint or MapLine sets it
    bad. *)
Definition lm_SetBadFlag (lms : gmap nat Landmark) (p : nat) : gmap nat Landmark :=
  let lm := lm_at lms p in
  <[p := mkLandmark true (lm_GetFoundRatio lm) (lm_mnFirstKFid lm)
            (lm_Observations lm)]> lms.

(** The conversion [(int)x] of an id. *)
Definition to_int (z : Z) : Z := (z + 2 ^ 31) mod 2 ^ 32 - 2 ^ 31.

(** [(int)nCurrentKFid-(int)pMP->mnFirstKFid] (the subtraction is undefined
    in C++ when it leaves the range of [int]). *)
Definition age (nCurrentKFid : Z) (lm : Landmark) : Z :=
  to_int nCurrentKFid - to_int (lm_mnFirstKFid lm).

(** [0.25f]. *)
Definition f0_25 : float := flit 25 100.

(** The loop of [MapPointCulling] and of [MapLineCulling] over the list of
    recently added elements: the list that is left and the elements after
    the calls of [SetBadFlag]. *)
Fixpoint cull_recent (cnThObs nCurrentKFid : Z) (lit : list nat)
  (lms : gmap nat Landmark) : list nat * gmap nat Landmark :=
  match lit with
  | [] => ([], lms)
  | pMP :: rest =>
      let lm := lm_at lms pMP in
      if lm_isBad lm then cull_recent cnThObs nCurrentKFid rest lms
      else if flt (lm_GetFoundRatio lm) f0_25 then
        cull_recent cnThObs nCurrentKFid rest (lm_SetBadFlag lms pMP)
      else if (2 <=? age nCurrentKFid lm) && (lm_Observations lm <=? cnThObs)
      then cull_recent cnThObs nCurrentKFid rest (lm_SetBadFlag lms pMP)
      else if 3 <=? age nCurrentKFid lm then
        cull_recent cnThObs nCurrentKFid rest lms
      else
        let r := cull_recent cnThObs nCurrentKFid rest lms in
        (pMP :: r.1, r.2)
  end.

(** [nThObs]: 2 for a monocular mapper, 3 otherwise. *)
Definition nThObs_of (s : State) : Z := if mbMonocular s then 2 else 3.

(** [LocalMapping::MapPointCulling]: the mapper and the MapPoints after
    the call. *)
Definition MapPointCulling (s : State) (h : Heap) (points : gmap nat Landmark)
  : State * gmap nat Landmark :=
  let r := cull_recent (nThObs_of s) (mnId (kf_at h (mpCurrentKeyFrame s)))
             (mlpRecentAddedMapPoints s) points in
  (mkState (mbMonocular s) (mbResetRequested s) (mbFinishRequested s)
     (mbFinished s) (mbAbortBA s) (mbStopped s) (mbStopRequested s)
     (mbNotStop s) (mbAcceptKeyFrames s) (mlNewKeyFrames s) r.1
     (mlpRecentAddedMapLines s) (mpCurrentKeyFrame s), r.2).

(** [LocalMapping::MapLineCulling]. *)
Definition MapLineCulling (s : State) (h : Heap) (lines : gmap nat Landmark)
  : State * gmap nat Landmark :=
  let r := cull_recent (nThObs_of s) (mnId (kf_at h (mpCurrentKeyFrame s)))
             (mlpRecentAddedMapLines s) lines in
  (mkState (mbMonocular s) (mbResetRequested s) (mbFinishRequested s)
     (mbFinished s) (mbAbortBA s) (mbStopped s) (mbStopRequested s)
     (mbNotStop s) (mbAcceptKeyFrames s) (mlNewKeyFrames s)
     (mlpRecentAddedMapPoints s) r.1 (mpCurrentKeyFrame s), r.2).

(** The verdicts of the culling on an element that is not bad: flagged bad,
    or left on the list. *)
Definition cull_flags (cnThObs nCurrentKFid : Z) (lm : Landmark) : bool :=
  flt (lm_GetFoundRatio lm) f0_25
  || (2 <=? age nCurrentKFid lm) && (lm_Observations lm <=? cnThObs).

Definition cull_keeps (cnThObs nCurrentKFid : Z) (lm : Landmark) : bool :=
  negb (lm_isBad lm) && negb (cull_flags cnThObs nCurrentKFid lm)
  && negb (3 <=? age nCurrentKFid lm).

(* --------------------------------------------------------------------- *)
(** ** Predicates used to state the properties of the mapper *)
(* --------------------------------------------------------------------- *)

(** The stop flags agree: a stopped mapper has a pending stop request and
    is not protected by [mbNotStop]. *)
Definition stop_inv (s : State) : Prop :=
  mbStopped s = true -> mbStopRequested s = true /\ mbNotStop s = false.

(** The element with its bad flag set. *)
Definition set_bad (lm : Landmark) : Landmark :=
  mkLandmark true (lm_GetFoundRatio lm) (lm_mnFirstKFid lm) (lm_Observations lm).

(** The element [p] after the culling of the list [lit], from the elements
    before it: bad when it is on the list, was not bad and meets one of the
    two conditions; as before otherwise. *)
Definition culled (cnThObs nCurrentKFid : Z) (lit : list nat)
  (lms : gmap nat Landmark) (p : nat) : Landmark :=
  if bool_decide (p ∈ lit) && negb (lm_isBad (lm_at lms p))
     && cull_flags cnThObs nCurrentKFid (lm_at lms p)
  then set_bad (lm_at lms p) else lm_at lms p.

(** The observation [o] is counted by the inner loop of [KeyFrameCulling]:
    another keyframe than [pKF], at a level [scaleLeveli <= scaleLevel+1]. *)
Definition sees_near_scale (h : Heap) (pKF : KFptr) (scaleLevel : Z)
  (o : KFptr * nat) : bool :=
  negb (bool_decide (o.1 = pKF))
  && (octave (kf_mvKeysUn (kf_at h o.1) !!! o.2) <=? scaleLevel + 1).

End LocalMapping.

(* ===================================================================== *)
(** * Worked scenarios *)
(* ===================================================================== *)

(** Concrete inputs on which the functions above are evaluated.  The OpenCV
    operations are given by a small table-driven instance: a hypothesis is a
    pair of 1x1 matrices [R = [[n]]], [t = [[s]]]; under it the matches whose
    first key point has abscissa below [n] triangulate in front of both
    cameras when [s > 0], all others behind them; the ordinate of the key
    point is the cosine of the parallax of its match. *)
Module Scenario.

Import Initializer LocalMapping.

Definition fl (n : Z) : float := int_to_float n.

(** The intrinsics [fx = fy = 1], [cx = cy = 0]. *)
Definition K1 : Mat :=
  [[fl 1; fl 0; fl 0]; [fl 0; fl 1; fl 0]; [fl 0; fl 0; fl 1]].

Definition scen_Triangulate (kp1 kp2 : KeyPoint) (P1 P2 : Mat) : Point3f :=
  let x := p2x (pt kp1) in
  let y := p2y (pt kp1) in
  if flt x (at_ P2 0 0) && flt fzero (at_ P2 1 0)
  then mkPoint3f x y (fl 1)
  else mkPoint3f (fneg x) (fneg y) (fl (-1)).

(** [acos] in degrees at the cosines the scenarios use: 60 at 0.5, 90 at
    0, and 0 at 1 and everywhere else. *)
Definition scen_acos_deg (c : float) : float :=
  if feq c (flit 5 10) then fl 60
  else if feq c fzero then fl 90
  else fzero.

Definition scen_cv : CvKernel := {|
  cv_P1 := fun K => K;
  cv_P2 := fun K R t => R ++ t;
  cv_center := fun R t => zero3;
  cv_affine := fun R t p => p;
  cv_norm := fun v => int_to_double 1;
  cv_dot := fun a b => to_double (fabs (p3y a));
  Triangulate := scen_Triangulate;
  acos_deg := scen_acos_deg;
  DecomposeE := fun F21 K => ([[at_ F21 0 0]], [[at_ F21 0 1]], [[fl 1]]);
  cv_singularH := fun H21 K => (at_ H21 1 0, at_ H21 1 1, at_ H21 1 2);
  cv_hypothesesH := fun H21 K =>
    map (fun n : float => ([[n]], [[fl 1]])) (nth 0 H21 []);
  cv_epipolarCos := fun K R t x y klf => fzero;
  LineTriangulate := fun kl1 kl2 P1 P2 klf1 klf2 =>
    (mkPoint3f (startPointX kl1) (startPointY kl1) (fl 1),
     mkPoint3f (endPointX kl1) (endPointY kl1) (fl 1))
|}.

(** [n] key points [(i, c)], [i = 0 .. n-1], each matched to itself. *)
Definition keys (n : nat) (c : float) : list KeyPoint :=
  map (fun i => mkKeyPoint (mkPoint2f (fl (Z.of_nat i)) c) 0) (seq 0 n).
Definition matches (n : nat) : list Match :=
  map (fun i => (i, i)) (seq 0 n).

(** An initializer over [n] such matches with [sigma = 1], and no lines. *)
Definition init_state (n : nat) (c : float) : InitializerState :=
  mkInitializer (keys n c) (keys n c) (matches n) K1 (fl 1) (fl 1) [] [] [] [].

Definition all_inliers (n : nat) : list bool := replicate n true.

(** [F21] and [H21] carrying the hypothesis table. *)
Definition F_of (n1 n2 : Z) : Mat := [[fl n1; fl n2]].
Definition H_of (ns : list Z) : Mat := [map fl ns; [fl 4; fl 2; fl 1]].

(** One match for the scorers. *)
Definition scorer_state (kp1 kp2 : KeyPoint) : InitializerState :=
  mkInitializer [kp1] [kp2] [(0%nat, 0%nat)] K1 (fl 1) (fl 1) [] [] [] [].
Definition kpt (x y : Z) : KeyPoint := mkKeyPoint (mkPoint2f (fl x) (fl y)) 0.

Definition F_shear : Mat :=
  [[fl 0; fl 0; fl 0]; [fl 0; fl 0; fl (-1)]; [fl 0; fl 2; fl 0]].
Definition H_double : Mat :=
  [[fl 2; fl 0; fl 0]; [fl 0; fl 2; fl 0]; [fl 0; fl 0; fl 1]].
Definition H_half : Mat :=
  [[flit 5 10; fl 0; fl 0]; [fl 0; flit 5 10; fl 0]; [fl 0; fl 0; fl 1]].

(** One line of frame 1 matched to one line of frame 2. *)
Definition line1 : KeyLine := mkKeyLine (fl 0) (flit 5 10) (fl 1) (flit 5 10).
Definition line_state (nkeys : nat) (nlines : nat) : InitializerState :=
  mkInitializer (keys nkeys (flit 5 10)) (keys nkeys (flit 5 10)) []
    K1 (fl 1) (fl 1)
    (replicate nlines line1) (replicate nlines line1)
    (replicate nlines (mkVector3d fzero fzero fzero))
    (replicate nlines (mkVector3d fzero fzero fzero)).
Definition lines0 : LineOut := mkLineOut [] [] [].

(** *** Keyframe culling *)

(** [n] key points at pyramid level [oct]. *)
Definition keys_at (n : nat) (oct : Z) : list KeyPoint :=
  replicate n (mkKeyPoint (mkPoint2f fzero fzero) oct).

(** Keyframe [id] with [n] features at level [oct], feature [i] observing
    MapPoint [i] for [i < nobs]. *)
Definition kf_of (id : Z) (n : nat) (oct : Z) (nobs : nat)
  (covisible : list KFptr) : KeyFrame :=
  mkKeyFrame id (keys_at n oct)
    (map (fun i => if decide (i < nobs)%nat then Some i else None) (seq 0 n))
    (replicate n fzero) fzero covisible false.

(** A MapPoint seen at feature [i] by each keyframe of [kfs]. *)
Definition mp_seen (i : nat) (kfs : list KFptr) : MapPoint :=
  mkMapPoint false (Z.of_nat (length kfs)) (map (fun k => (k, i)) kfs).

(** Four keyframes 0..3, the current one being 2 with keyframe 3 covisible.
    Keyframe 3 sees ten MapPoints at level 1; the first nine are also seen
    by keyframes 0, 1, 2 at level 1, the tenth by keyframe 3 only. *)
Definition heap_ninety : Heap :=
  mkHeap
    (list_to_map
       [(0%nat, kf_of 0 10 1 9 []); (1%nat, kf_of 1 10 1 9 []);
        (2%nat, kf_of 2 10 1 9 [3%nat]); (3%nat, kf_of 3 10 1 10 [])])
    (list_to_map
       (map (fun i => (i, mp_seen i [0; 1; 2; 3]%nat)) (seq 0 9)
        ++ [(9%nat, mp_seen 9 [3%nat])])).

(** Keyframe 3 sees one MapPoint at level 0; keyframes 0, 1, 2 see it at
    the coarser level 1. *)
Definition heap_coarser : Heap :=
  mkHeap
    (list_to_map
       [(0%nat, kf_of 0 1 1 1 []); (1%nat, kf_of 1 1 1 1 []);
        (2%nat, kf_of 2 1 1 1 [3%nat]); (3%nat, kf_of 3 1 0 1 [])])
    (list_to_map [(0%nat, mp_seen 0 [0; 1; 2; 3]%nat)]).

(** A monocular mapper whose current keyframe is 2. *)
Definition mapper2 : State :=
  mkState true false false false false false false false false [] [] [] 2%nat.

(** A reconstruction's output parameters before the call. *)
Definition out_before : OutParams :=
  mkOutParams [[fl 7]] [[fl 7]] [mkPoint3f (fl 7) (fl 7) (fl 7)] [true].

(** *** The sample sets and the two estimates *)

(** A random source that always returns the lower bound. *)
Definition first_index : RandomSource := fun _ lo _ => lo.

(** The estimates of the two threads for [n] matches that are all inliers
    of both models, with scores [SH = sh] and [SF = sf]. *)
Definition ransac_of (n : nat) (sh sf : Z) (H21 F21 : Mat) : RansacOut :=
  mkRansacOut (all_inliers n) (fl sh) H21 (all_inliers n) (fl sf) F21.

End Scenario.

(* ===================================================================== *)
(** * The specification's wording of two conditions, in exact arithmetic *)
(* ===================================================================== *)

Module SpecWords.

Import Initializer LocalMapping.

(** "Reject if (a) maxGood < max(0.9*N_inliers, 50), or (b) more than one
    hypothesis achieves >= 70% of maxGood", on the four counts. *)
Definition spec_rejectF (N g1 g2 g3 g4 : Z) : bool :=
  let maxGood := Z.max g1 (Z.max g2 (Z.max g3 g4)) in
  let achieves g := if 7 * maxGood <=? 10 * g then 1 else 0 in
  (10 * maxGood <? 9 * N) || (maxGood <? 50)
  || (1 <? achieves g1 + achieves g2 + achieves g3 + achieves g4).



(** "Observed by at least 3 other keyframes at equal-or-finer scale": the
    keyframes other than [pKF] that see the point at a level not above
    [scaleLevel]. *)
Definition finer_observers (h : Heap) (pKF : KFptr) (scaleLevel : Z)
  (observations : list (KFptr * nat)) : Z :=
  Z.of_nat (length (filter
    (fun o : KFptr * nat =>
       o.1 <> pKF /\
       octave (kf_mvKeysUn (kf_at h o.1) !!! o.2) <= scaleLevel)
    observations)).

(** The valid MapPoints of [pKF] (not null, not bad), with their feature
    index. *)
Definition valid_points (h : Heap) (pKF : KFptr) : list (nat * MPptr) :=
  omap (fun ip : nat * option MPptr =>
          match ip.2 with
          | Some p => if mp_isBad (mp_at h p) then None else Some (ip.1, p)
          | None => None
          end)
    (imap (fun i p => (i, p)) (GetMapPointMatches (kf_at h pKF))).

(** "At least 90% of their valid MapPoints are observed by at least 3 other
    keyframes at equal-or-finer scale." *)
Definition spec_redundant (h : Heap) (pKF : KFptr) : bool :=
  let valid := valid_points h pKF in
  let seen :=
    filter (fun ip : nat * MPptr =>
              3 <= finer_observers h pKF
                     (octave (kf_mvKeysUn (kf_at h pKF) !!! ip.1))
                     (mp_GetObservations (mp_at h ip.2)))
      valid in
  9 * Z.of_nat (length valid) <=? 10 * Z.of_nat (length seen).

End SpecWords.

(* ===================================================================== *)
(** * Facts on the IEEE comparisons *)
(* ===================================================================== *)

Module FloatFacts.

Import Initializer.

Lemma SFcompare_antisym (a b : spec_float) :
  SFcompare b a = option_map CompOpp (SFcompare a b).
Proof.
  destruct a as [sa|sa| |sa ma ea], b as [sb|sb| |sb mb eb]; simpl;
    try reflexivity; try (destruct sa; reflexivity);
    try (destruct sb; reflexivity);
    try (destruct sa, sb; reflexivity).
  destruct sa, sb; simpl; try reflexivity;
    rewrite (Z.compare_antisym ea eb);
    destruct (ea ?= eb) eqn:E; simpl; try reflexivity;
    change Eq with (CompOpp Eq) at 1;
    rewrite (Pos.compare_cont_antisym ma mb Eq);
    destruct (Pos.compare_cont Eq ma mb); reflexivity.
Qed.

Lemma flt_asym a b : flt a b = true -> flt b a = false.
Proof.
  unfold flt, SFltb. rewrite (SFcompare_antisym a b).
  destruct (SFcompare a b) as [[]|]; simpl; congruence.
Qed.

Lemma fle_not_flt a b : fle a b = true -> flt b a = false.
Proof.
  unfold fle, flt, SFleb, SFltb. rewrite (SFcompare_antisym a b).
  destruct (SFcompare a b) as [[]|]; simpl; congruence.
Qed.



Lemma SFcompare_total a b :
  is_nan a = false -> is_nan b = false -> exists c, SFcompare a b = Some c.
Proof.
  destruct a, b; simpl; intros; try discriminate; eauto.
Qed.

Lemma not_flt_fle a b :
  is_nan a = false -> is_nan b = false -> flt b a = false -> fle a b = true.
Proof.
  intros Ha Hb. destruct (SFcompare_total a b Ha Hb) as [c Hc].
  unfold flt, fle, SFltb, SFleb. rewrite (SFcompare_antisym a b), Hc.
  destruct c; simpl; congruence.
Qed.

Lemma fle_rank a b :
  is_nan a = false -> is_nan b = false ->
  (fle a b = true <-> lex_le (rank a) (rank b)).
Proof.
  intros Ha Hb. unfold fle, SFleb, lex_le.
  destruct a as [sa|sa| |sa ma ea]; [| |discriminate|];
  (destruct b as [sb|sb| |sb mb eb]; [| |discriminate|]); simpl.
  1-8: destruct sa; try destruct sb; simpl; split; intros; try lia;
       try reflexivity; try discriminate.
  all: try (destruct sb; simpl; split; intros; try lia; try reflexivity;
            try discriminate; fail).
  change (Pos.compare_cont Eq ma mb) with (Pos.compare ma mb).
  destruct sa, sb; simpl;
    try (split; intros; try lia; try reflexivity; try discriminate; fail).
  - destruct (Z.compare_spec ea eb); simpl;
      try (split; intros; try lia; try reflexivity; try discriminate; fail).
    destruct (Pos.compare_spec ma mb); simpl; split; intros; try lia;
      try reflexivity; try discriminate.
  - destruct (Z.compare_spec ea eb); simpl;
      try (split; intros; try lia; try reflexivity; try discriminate; fail).
    destruct (Pos.compare_spec ma mb); simpl; split; intros; try lia;
      try reflexivity; try discriminate.
Qed.

Lemma le_numbers_trans a b c :
  le_numbers a b -> le_numbers b c -> le_numbers a c.
Proof.
  intros (Ha & Hb & Hab) (_ & Hc & Hbc). split_and!; try assumption.
  rewrite fle_rank in * by assumption. unfold lex_le in *. lia.
Qed.

(** The literals are the doubles and floats a compiler reads. *)
Example literal_values :
  d0_40 = S754_finite false 7205759403792794 (-54) /\
  d0_9 = S754_finite false 8106479329266893 (-53) /\
  d0_75 = S754_finite false 6755399441055744 (-53) /\
  thH = S754_finite false 12564038 (-21) /\
  thF = S754_finite false 16110322 (-22) /\
  minParallax0 = S754_finite false 8388608 (-23).
Proof. split_and!; vm_compute; reflexivity. Qed.












End FloatFacts.

(* ===================================================================== *)
(** * Properties of the initializer *)
(* ===================================================================== *)

Module InitializerProofs.

Import Initializer Scenario FloatFacts SpecWords.

(** ** [std::sort] *)

Lemma insert_float_perm x l : Permutation (insert_float x l) (x :: l).
Proof.
  induction l as [|y l IH]; simpl; [reflexivity|].
  destruct (flt y x); [|reflexivity].
  rewrite IH. apply perm_swap.
Qed.

Lemma sort_float_perm l : Permutation (sort_float l) l.
Proof.
  induction l as [|x l IH]; simpl; [reflexivity|].
  rewrite insert_float_perm. now constructor.
Qed.

Lemma sort_float_length l : length (sort_float l) = length l.
Proof. apply Permutation_length, sort_float_perm. Qed.

Lemma insert_float_hd x y l :
  flt x y = false -> HdRel (fun a b => flt b a = false) y l ->
  flt y x = true ->
  HdRel (fun a b => flt b a = false) y (insert_float x l).
Proof.
  intros Hxy Hl Hyx. destruct l as [|z l]; simpl.
  - constructor. exact Hxy.
  - destruct (flt z x); constructor; [now inversion Hl | exact Hxy].
Qed.

Lemma insert_float_sorted x l : ascending l -> ascending (insert_float x l).
Proof.
  unfold ascending. induction 1 as [|y l Hs IH Hh]; simpl.
  - repeat constructor.
  - destruct (flt y x) eqn:E.
    + constructor; [exact IH|]. apply insert_float_hd; auto using flt_asym.
    + constructor; [now constructor|]. constructor. exact E.
Qed.

Lemma sort_float_sorted l : ascending (sort_float l).
Proof.
  induction l as [|x l IH]; simpl; [constructor|].
  now apply insert_float_sorted.
Qed.

(** Without NaN the sorted sequence is ordered throughout. *)
Lemma sort_float_strongly_sorted l :
  Forall (fun x => is_nan x = false) l ->
  StronglySorted le_numbers (sort_float l).
Proof.
  intros Hl. apply Sorted_StronglySorted.
  - intros a b c. apply le_numbers_trans.
  - assert (Hs : Forall (fun x => is_nan x = false) (sort_float l)).
    { rewrite Forall_forall in *. intros x Hx. apply Hl.
      now rewrite <- (sort_float_perm l). }
    pose proof (sort_float_sorted l) as Ha. unfold ascending in Ha.
    induction Ha as [|x k Hk IH Hh]; [constructor|].
    apply Forall_cons in Hs as [Hx Hs].
    constructor; [now apply IH|].
    destruct Hh as [|y k' Hxy]; constructor.
    apply Forall_cons in Hs as [Hy _].
    split_and!; try assumption. now apply not_flt_fle.
Qed.

(** ** Vectors *)

Lemma resize_length {A} n (d : A) v : length (resize n d v) = n.
Proof.
  unfold resize. rewrite length_app, length_take, length_replicate. lia.
Qed.

Lemma write_at_Some {A} i (x : A) v :
  (i < length v)%nat -> write_at i x v = Some (<[i := x]> v).
Proof. intros Hi. unfold write_at. now rewrite decide_True. Qed.

Lemma write_at_None {A} i (x : A) v :
  (length v <= i)%nat -> write_at i x v = None.
Proof.
  intros Hi. unfold write_at. rewrite decide_False; [reflexivity | lia].
Qed.

Lemma count_true_insert_false i l :
  count_true (<[i := false]> l) <= count_true l.
Proof.
  revert i. induction l as [|b l IH]; intros [|i]; simpl; try lia.
  - destruct b; lia.
  - specialize (IH i). lia.
Qed.

Lemma count_true_insert_true i l :
  count_true (<[i := true]> l) <= count_true l + 1.
Proof.
  revert i. induction l as [|b l IH]; intros [|i]; simpl; try lia.
  - destruct b; lia.
  - specialize (IH i). lia.
Qed.

Lemma count_true_replicate n : count_true (replicate n false) = 0.
Proof. induction n; simpl; lia. Qed.

(** ** Scorers *)

Lemma two_directions th ts c1 c2 sc :
  score_direction th ts c2 (score_direction th ts c1 (sc, true)) =
  match fgt c1 th, fgt c2 th with
  | false, false => (fadd (fadd sc (fsub ts c1)) (fsub ts c2), true)
  | false, true => (fadd sc (fsub ts c1), false)
  | true, false => (fadd sc (fsub ts c2), false)
  | true, true => (sc, false)
  end.
Proof.
  unfold score_direction. simpl.
  destruct (fgt c1 th); simpl; destruct (fgt c2 th); reflexivity.
Qed.

Lemma score_loop_flags body (flag : Match -> bool) ms sc :
  (forall sc' m, (body sc' m).2 = flag m) ->
  (score_loop body ms sc).2 = flag <$> ms.
Proof.
  intros Hb. revert sc. induction ms as [|m ms IH]; intros sc; simpl;
    [reflexivity|].
  now rewrite Hb, IH.
Qed.

Lemma score_loop_score body ms sc :
  (score_loop body ms sc).1 = fold_left (fun a m => (body a m).1) ms sc.
Proof.
  revert sc. induction ms as [|m ms IH]; intros sc; simpl; [reflexivity|].
  apply IH.
Qed.

Lemma both_pass_le th c1 c2 :
  is_nan th = false -> both_pass th c1 c2 = true ->
  (is_nan c1 = false -> fle c1 th = true) /\
  (is_nan c2 = false -> fle c2 th = true).
Proof.
  unfold both_pass, fgt. intros Hth Hb.
  apply andb_true_iff in Hb as [H1 H2].
  apply negb_true_iff in H1, H2.
  split; intros Hn; now apply not_flt_fle.
Qed.

Lemma CheckFundamental_body_flag s F21 sigma sc m :
  (CheckFundamental_body s F21 sigma sc m).2 =
  both_pass thF
    (chiSquaresF F21 sigma (mvKeys1 s !!! m.1) (mvKeys2 s !!! m.2)).1
    (chiSquaresF F21 sigma (mvKeys1 s !!! m.1) (mvKeys2 s !!! m.2)).2.
Proof.
  unfold CheckFundamental_body, both_pass. rewrite two_directions.
  destruct (fgt _ thF); destruct (fgt _ thF); reflexivity.
Qed.

Lemma CheckHomography_body_flag s H21 H12 sigma sc m :
  (CheckHomography_body s H21 H12 sigma sc m).2 =
  both_pass thH
    (chiSquaresH H21 H12 sigma (mvKeys1 s !!! m.1) (mvKeys2 s !!! m.2)).1
    (chiSquaresH H21 H12 sigma (mvKeys1 s !!! m.1) (mvKeys2 s !!! m.2)).2.
Proof.
  unfold CheckHomography_body, both_pass. rewrite two_directions.
  destruct (fgt _ thH); destruct (fgt _ thH); reflexivity.
Qed.

Lemma CheckFundamental_flags s F21 sigma (i : nat) (m : Match) :
  mvMatches12 s !! i = Some m ->
  (CheckFundamental s F21 sigma).2 !! i =
  Some (both_pass thF
    (chiSquaresF F21 sigma (mvKeys1 s !!! m.1) (mvKeys2 s !!! m.2)).1
    (chiSquaresF F21 sigma (mvKeys1 s !!! m.1) (mvKeys2 s !!! m.2)).2).
Proof.
  intros Hm. unfold CheckFundamental.
  rewrite (score_loop_flags _ _ _ _ (CheckFundamental_body_flag s F21 sigma)).
  rewrite list_lookup_fmap. unfold Match in *. now rewrite Hm.
Qed.

Lemma CheckHomography_flags s H21 H12 sigma (i : nat) (m : Match) :
  mvMatches12 s !! i = Some m ->
  (CheckHomography s H21 H12 sigma).2 !! i =
  Some (both_pass thH
    (chiSquaresH H21 H12 sigma (mvKeys1 s !!! m.1) (mvKeys2 s !!! m.2)).1
    (chiSquaresH H21 H12 sigma (mvKeys1 s !!! m.1) (mvKeys2 s !!! m.2)).2).
Proof.
  intros Hm. unfold CheckHomography.
  rewrite (score_loop_flags _ _ _ _
             (CheckHomography_body_flag s H21 H12 sigma)).
  rewrite list_lookup_fmap. unfold Match in *. now rewrite Hm.
Qed.

(** C5. [CheckFundamental] flags a match as inlier only if, in each of the
    two directions, the squared distance to the epipolar line divided by
    sigma^2 is at most [th = 3.841] (for chi-squares that are numbers: the
    test of the code is "not above"); its score adds [5.991 - chiSquare] for
    each direction that passes the 3.841 test by itself, whatever the other
    direction does, so that in the two mixed cases the match is an outlier
    and still adds to the score, and some input has an outlier with a
    positive score.  [CheckHomography] accumulates in the same way, with
    5.991 as threshold and as score constant. *)
Theorem C5_scorers_accumulate_per_direction :
  (thF = flit 3841 1000 /\ thScore = flit 5991 1000 /\ thH = flit 5991 1000) /\
  (forall s F21 sigma sc m,
     CheckFundamental_body s F21 sigma sc m =
     match
       fgt (chiSquaresF F21 sigma (mvKeys1 s !!! m.1) (mvKeys2 s !!! m.2)).1 thF,
       fgt (chiSquaresF F21 sigma (mvKeys1 s !!! m.1) (mvKeys2 s !!! m.2)).2 thF
     with
     | false, false =>
         (fadd (fadd sc (fsub thScore
            (chiSquaresF F21 sigma (mvKeys1 s !!! m.1) (mvKeys2 s !!! m.2)).1))
            (fsub thScore
            (chiSquaresF F21 sigma (mvKeys1 s !!! m.1) (mvKeys2 s !!! m.2)).2),
          true)
     | false, true =>
         (fadd sc (fsub thScore
            (chiSquaresF F21 sigma (mvKeys1 s !!! m.1) (mvKeys2 s !!! m.2)).1),
          false)
     | true, false =>
         (fadd sc (fsub thScore
            (chiSquaresF F21 sigma (mvKeys1 s !!! m.1) (mvKeys2 s !!! m.2)).2),
          false)
     | true, true => (sc, false)
     end) /\
  (forall s F21 sigma,
     (CheckFundamental s F21 sigma).1 =
       fold_left (fun a m => (CheckFundamental_body s F21 sigma a m).1)
         (mvMatches12 s) fzero /\
     forall (i : nat) (m : Match), mvMatches12 s !! i = Some m ->
       (CheckFundamental s F21 sigma).2 !! i = Some true ->
       (is_nan (chiSquaresF F21 sigma (mvKeys1 s !!! m.1)
                  (mvKeys2 s !!! m.2)).1 = false ->
        fle (chiSquaresF F21 sigma (mvKeys1 s !!! m.1)
               (mvKeys2 s !!! m.2)).1 thF = true) /\
       (is_nan (chiSquaresF F21 sigma (mvKeys1 s !!! m.1)
                  (mvKeys2 s !!! m.2)).2 = false ->
        fle (chiSquaresF F21 sigma (mvKeys1 s !!! m.1)
               (mvKeys2 s !!! m.2)).2 thF = true)) /\
  (forall s F21 sigma (i : nat) (m : Match),
     mvMatches12 s !! i = Some m ->
     (CheckFundamental s F21 sigma).2 !! i =
     Some (both_pass thF
       (chiSquaresF F21 sigma (mvKeys1 s !!! m.1) (mvKeys2 s !!! m.2)).1
       (chiSquaresF F21 sigma (mvKeys1 s !!! m.1) (mvKeys2 s !!! m.2)).2)) /\
  (exists s F21 sigma,
     (CheckFundamental s F21 sigma).2 = [false] /\
     flt fzero (CheckFundamental s F21 sigma).1 = true) /\
  (forall s H21 H12 sigma sc m,
     CheckHomography_body s H21 H12 sigma sc m =
     match
       fgt (chiSquaresH H21 H12 sigma (mvKeys1 s !!! m.1) (mvKeys2 s !!! m.2)).1 thH,
       fgt (chiSquaresH H21 H12 sigma (mvKeys1 s !!! m.1) (mvKeys2 s !!! m.2)).2 thH
     with
     | false, false =>
         (fadd (fadd sc (fsub thH
            (chiSquaresH H21 H12 sigma (mvKeys1 s !!! m.1) (mvKeys2 s !!! m.2)).1))
            (fsub thH
            (chiSquaresH H21 H12 sigma (mvKeys1 s !!! m.1) (mvKeys2 s !!! m.2)).2),
          true)
     | false, true =>
         (fadd sc (fsub thH
            (chiSquaresH H21 H12 sigma (mvKeys1 s !!! m.1) (mvKeys2 s !!! m.2)).1),
          false)
     | true, false =>
         (fadd sc (fsub thH
            (chiSquaresH H21 H12 sigma (mvKeys1 s !!! m.1) (mvKeys2 s !!! m.2)).2),
          false)
     | true, true => (sc, false)
     end) /\
  (forall s H21 H12 sigma,
     (CheckHomography s H21 H12 sigma).1 =
       fold_left (fun a m => (CheckHomography_body s H21 H12 sigma a m).1)
         (mvMatches12 s) fzero) /\
  (forall s H21 H12 sigma (i : nat) (m : Match),
     mvMatches12 s !! i = Some m ->
     (CheckHomography s H21 H12 sigma).2 !! i =
     Some (both_pass thH
       (chiSquaresH H21 H12 sigma (mvKeys1 s !!! m.1) (mvKeys2 s !!! m.2)).1
       (chiSquaresH H21 H12 sigma (mvKeys1 s !!! m.1) (mvKeys2 s !!! m.2)).2)) /\
  (exists s H21 H12 sigma,
     (CheckHomography s H21 H12 sigma).2 = [false] /\
     flt fzero (CheckHomography s H21 H12 sigma).1 = true).
Proof.
  split; [split_and!; reflexivity|].
  split; [intros; apply two_directions|].
  split.
  { intros s F21 sigma. split; [apply score_loop_score|].
    intros i m Hm Hi. rewrite (CheckFundamental_flags s F21 sigma i m Hm) in Hi.
    injection Hi as Hi. now apply both_pass_le. }
  split; [intros; now apply CheckFundamental_flags|].
  split.
  { exists (scorer_state (kpt 0 1) (kpt 0 5)), F_shear, (fl 1).
    split; vm_compute; reflexivity. }
  split; [intros; apply two_directions|].
  split; [intros; apply score_loop_score|].
  split; [intros; now apply CheckHomography_flags|].
  exists (scorer_state (kpt 1 1) (kpt 4 4)), H_double, H_half, (fl 1).
  split; vm_compute; reflexivity.
Qed.

Section WithKernel.
Context {cv : CvKernel}.

(** ** Initialize *)


(** ** CheckRT *)

Lemma CheckRT_body_inv R t K th2 keys1 keys2 inl i m st :
  CheckRT_inv st -> CheckRT_inv (CheckRT_body R t K th2 keys1 keys2 inl i m st).
Proof.
  intros [Hn Hc]. unfold CheckRT_body.
  destruct (negb (inl !!! i)); [now split|].
  destruct (CheckRT_verdict _ _ _ _ _ _) as [| |p c]; [| now split |].
  - split; simpl; [exact Hn|].
    pose proof (count_true_insert_false m.1 (st_vbGood st)). lia.
  - split; simpl.
    + rewrite length_app. simpl. lia.
    + destruct (flt (to_double c) d0_99998); [|lia].
      pose proof (count_true_insert_true m.1 (st_vbGood st)). lia.
Qed.

Lemma CheckRT_loop_inv R t K th2 keys1 keys2 inl ms : forall i st,
  CheckRT_inv st ->
  CheckRT_inv (CheckRT_loop R t K th2 keys1 keys2 inl i ms st).
Proof.
  induction ms as [|m ms IH]; intros i st Hst; simpl; [exact Hst|].
  apply IH, CheckRT_body_inv, Hst.
Qed.

Lemma CheckRT_final_inv R t keys1 keys2 ms inl K v th2 :
  CheckRT_inv (CheckRT_final R t keys1 keys2 ms inl K v th2).
Proof.
  apply CheckRT_loop_inv. split; simpl; [reflexivity|].
  rewrite count_true_replicate. lia.
Qed.

(** C6. [CheckRT] returns as parallax the arc-cosine, in degrees, of the
    recorded cos-parallax at index [min(50, nGood-1)] of the sorted
    sequence of the recorded values (a permutation of them, ascending, and
    ordered throughout when none is a NaN), of which there are [nGood]:
    index 50
    when at least 51 matches survive, the last index otherwise; and it
    returns parallax 0 when no match survives. *)
Theorem C6_checkRT_parallax_index (R t : Mat) (keys1 keys2 : list KeyPoint)
  (ms : list Match) (inl : list bool) (K : Mat) (v : list Point3f)
  (th2 : float) :
  nGood (CheckRT R t keys1 keys2 ms inl K v th2) =
    Z.of_nat (length (CheckRT_recorded R t keys1 keys2 ms inl K v th2)) /\
  Permutation (sort_float (CheckRT_recorded R t keys1 keys2 ms inl K v th2))
    (CheckRT_recorded R t keys1 keys2 ms inl K v th2) /\
  ascending (sort_float (CheckRT_recorded R t keys1 keys2 ms inl K v th2)) /\
  (Forall (fun x => is_nan x = false)
     (CheckRT_recorded R t keys1 keys2 ms inl K v th2) ->
   StronglySorted le_numbers
     (sort_float (CheckRT_recorded R t keys1 keys2 ms inl K v th2))) /\
  (nGood (CheckRT R t keys1 keys2 ms inl K v th2) = 0 ->
   parallax (CheckRT R t keys1 keys2 ms inl K v th2) = fzero) /\
  (0 < nGood (CheckRT R t keys1 keys2 ms inl K v th2) ->
   parallax (CheckRT R t keys1 keys2 ms inl K v th2) =
     acos_deg
       (nth (Z.to_nat
               (Z.min 50 (nGood (CheckRT R t keys1 keys2 ms inl K v th2) - 1)))
          (sort_float (CheckRT_recorded R t keys1 keys2 ms inl K v th2))
          fzero)) /\
  (51 <= nGood (CheckRT R t keys1 keys2 ms inl K v th2) ->
   Z.min 50 (nGood (CheckRT R t keys1 keys2 ms inl K v th2) - 1) = 50) /\
  (0 < nGood (CheckRT R t keys1 keys2 ms inl K v th2) < 51 ->
   Z.to_nat (Z.min 50 (nGood (CheckRT R t keys1 keys2 ms inl K v th2) - 1)) =
   (length (sort_float (CheckRT_recorded R t keys1 keys2 ms inl K v th2)) - 1)%nat).
Proof.
  destruct (CheckRT_final_inv R t keys1 keys2 ms inl K v th2) as [Hn _].
  unfold CheckRT, CheckRT_recorded. simpl.
  set (st := CheckRT_final R t keys1 keys2 ms inl K v th2) in *.
  split; [exact Hn|].
  split; [apply sort_float_perm|].
  split; [apply sort_float_sorted|].
  split; [apply sort_float_strongly_sorted|].
  split; [|split; [|split]].
  - intros H0. unfold CheckRT_parallax. now rewrite H0.
  - intros Hpos. unfold CheckRT_parallax, parallax_index.
    destruct (0 <? st_nGood st) eqn:E; [|apply Z.ltb_ge in E; lia].
    now rewrite sort_float_length, <- Hn.
  - lia.
  - intros Hr. rewrite sort_float_length. lia.
Qed.

(** The iteration on a surviving match with [cosParallax >= 0.99998]. *)
Lemma CheckRT_body_low_parallax R t K th2 keys1 keys2 inl i (m : Match) st p c :
  inl !!! i = true ->
  CheckRT_verdict R t K th2 (keys1 !!! m.1) (keys2 !!! m.2) = Survives p c ->
  fge (to_double c) d0_99998 = true ->
  CheckRT_body R t K th2 keys1 keys2 inl i m st =
    mkCheckRTState (st_nGood st + 1) (<[m.1 := p]> (st_vP3D st))
      (st_vbGood st) (st_vCosParallax st ++ [c]).
Proof.
  intros Hi Hv Hc. unfold CheckRT_body. rewrite Hi, Hv. simpl.
  unfold fge in Hc. apply fle_not_flt in Hc. now rewrite Hc.
Qed.

Lemma CheckRT_body_other R t K th2 keys1 keys2 inl i (m : Match) st j :
  j <> m.1 ->
  st_vbGood (CheckRT_body R t K th2 keys1 keys2 inl i m st) !! j =
    st_vbGood st !! j /\
  st_vP3D (CheckRT_body R t K th2 keys1 keys2 inl i m st) !! j =
    st_vP3D st !! j.
Proof.
  intros Hj. unfold CheckRT_body.
  destruct (negb (inl !!! i)); [now split|].
  destruct (CheckRT_verdict _ _ _ _ _ _) as [| |p c]; simpl; [| now split |].
  - split; [|reflexivity]. now apply list_lookup_insert_ne.
  - split; [|now apply list_lookup_insert_ne].
    destruct (flt _ _); [|reflexivity]. now apply list_lookup_insert_ne.
Qed.

Lemma CheckRT_body_lengths R t K th2 keys1 keys2 inl i (m : Match) st :
  length (st_vbGood (CheckRT_body R t K th2 keys1 keys2 inl i m st)) =
    length (st_vbGood st) /\
  length (st_vP3D (CheckRT_body R t K th2 keys1 keys2 inl i m st)) =
    length (st_vP3D st).
Proof.
  unfold CheckRT_body.
  destruct (negb (inl !!! i)); [now split|].
  destruct (CheckRT_verdict _ _ _ _ _ _) as [| |p c]; simpl; [| now split |].
  - split; [apply length_insert | reflexivity].
  - split; [|apply length_insert].
    destruct (flt _ _); [apply length_insert | reflexivity].
Qed.

Lemma CheckRT_loop_other R t K th2 keys1 keys2 inl (ms : list Match) j :
  forall i st, j ∉ ms.*1 ->
  st_vbGood (CheckRT_loop R t K th2 keys1 keys2 inl i ms st) !! j =
    st_vbGood st !! j /\
  st_vP3D (CheckRT_loop R t K th2 keys1 keys2 inl i ms st) !! j =
    st_vP3D st !! j.
Proof.
  induction ms as [|m ms IH]; intros i st Hj; simpl; [now split|].
  rewrite fmap_cons, not_elem_of_cons in Hj. destruct Hj as [Hne Hj].
  destruct (IH (S i) (CheckRT_body R t K th2 keys1 keys2 inl i m st) Hj)
    as [-> ->].
  now apply CheckRT_body_other.
Qed.

Lemma CheckRT_loop_lengths R t K th2 keys1 keys2 inl (ms : list Match) :
  forall i st,
  length (st_vbGood (CheckRT_loop R t K th2 keys1 keys2 inl i ms st)) =
    length (st_vbGood st) /\
  length (st_vP3D (CheckRT_loop R t K th2 keys1 keys2 inl i ms st)) =
    length (st_vP3D st).
Proof.
  induction ms as [|m ms IH]; intros i st; simpl; [now split|].
  destruct (IH (S i) (CheckRT_body R t K th2 keys1 keys2 inl i m st))
    as [-> ->].
  apply CheckRT_body_lengths.
Qed.

Lemma CheckRT_loop_app R t K th2 keys1 keys2 inl (pre post : list Match) :
  forall i st,
  CheckRT_loop R t K th2 keys1 keys2 inl i (pre ++ post) st =
  CheckRT_loop R t K th2 keys1 keys2 inl (i + length pre) post
    (CheckRT_loop R t K th2 keys1 keys2 inl i pre st).
Proof.
  induction pre as [|m pre IH]; intros i st; simpl.
  - now rewrite Nat.add_0_r.
  - rewrite IH. f_equal. lia.
Qed.

(** At the end of [CheckRT], for the match at position [i] when the first
    indices of the matches are distinct. *)
Lemma CheckRT_low_parallax_final R t keys1 keys2 (ms : list Match) inl K v
  th2 i (m : Match) p c :
  NoDup ms.*1 -> ms !! i = Some m -> (m.1 < length keys1)%nat ->
  inl !!! i = true ->
  CheckRT_verdict R t K th2 (keys1 !!! m.1) (keys2 !!! m.2) = Survives p c ->
  fge (to_double c) d0_99998 = true ->
  r_vbGood (CheckRT R t keys1 keys2 ms inl K v th2) !! m.1 = Some false /\
  r_vP3D (CheckRT R t keys1 keys2 ms inl K v th2) !! m.1 = Some p.
Proof.
  intros Hnd Hi Hlt Hin Hv Hc.
  destruct (list_elem_of_split_length ms i m Hi) as (pre & post & -> & Hlen).
  rewrite fmap_app, fmap_cons in Hnd.
  apply NoDup_app in Hnd as (_ & Hpre & Hpost).
  apply NoDup_cons in Hpost as [Hpost _].
  assert (Hpre' : m.1 ∉ pre.*1).
  { intros Hel. apply (Hpre _ Hel). left. }
  unfold CheckRT, CheckRT_final. simpl.
  rewrite CheckRT_loop_app. simpl. rewrite <- Hlen.
  set (st := CheckRT_loop R t K th2 keys1 keys2 inl 0 pre
               (CheckRT_init keys1 v)).
  destruct (CheckRT_loop_other R t K th2 keys1 keys2 inl post m.1 (S i)
              (CheckRT_body R t K th2 keys1 keys2 inl i m st) Hpost)
    as [-> ->].
  rewrite (CheckRT_body_low_parallax _ _ _ _ _ _ _ _ _ _ p c Hin Hv Hc).
  simpl. split.
  - destruct (CheckRT_loop_other R t K th2 keys1 keys2 inl pre m.1 0%nat
                (CheckRT_init keys1 v) Hpre') as [Hg _].
    fold st in Hg. rewrite Hg. simpl. now apply lookup_replicate_2.
  - apply list_lookup_insert_eq.
    destruct (CheckRT_loop_lengths R t K th2 keys1 keys2 inl pre 0%nat
                (CheckRT_init keys1 v)) as [_ Hl].
    fold st in Hl. rewrite Hl. simpl. now rewrite resize_length.
Qed.

(** ** ReconstructF *)

Lemma ReconstructF_decide_rejects N R1 R2 t1 t2 c1 c2 c3 c4 minParallax
  minTriangulated :
  Z.max (nGood c1) (Z.max (nGood c2) (Z.max (nGood c3) (nGood c4)))
    < nMinGood_of N minTriangulated \/
  1 < similar (Z.max (nGood c1) (Z.max (nGood c2) (Z.max (nGood c3) (nGood c4))))
        (nGood c1) +
      similar (Z.max (nGood c1) (Z.max (nGood c2) (Z.max (nGood c3) (nGood c4))))
        (nGood c2) +
      similar (Z.max (nGood c1) (Z.max (nGood c2) (Z.max (nGood c3) (nGood c4))))
        (nGood c3) +
      similar (Z.max (nGood c1) (Z.max (nGood c2) (Z.max (nGood c3) (nGood c4))))
        (nGood c4) ->
  ReconstructF_decide N R1 R2 t1 t2 c1 c2 c3 c4 minParallax minTriangulated
    = None.
Proof.
  intros Hrej. unfold ReconstructF_decide.
  set (mg := Z.max _ _) in *.
  destruct Hrej as [Hlt | Hsim].
  - apply Z.ltb_lt in Hlt. now rewrite Hlt.
  - apply Z.ltb_lt in Hsim. rewrite Hsim. now rewrite orb_true_r.
Qed.

(** C2, as the code has it. [ReconstructF] rejects (returns false with
    [R21] and [t21] left empty and [vP3D], [vbTriangulated] untouched)
    whenever the highest count [maxGood] over the four hypotheses (R1,t),
    (R2,t), (R1,-t), (R2,-t) is less than
    [max(static_cast<int>(0.9*N), minTriangulated)], the product truncated to
    an integer, or whenever more than one of the four counts is strictly
    greater than the double [0.7*maxGood]. *)
Theorem C2_reconstructF_rejects (s : InitializerState) (inl : list bool)
  (F21 K : Mat) (o : OutParams) (minParallax : float) (minTriangulated : Z) :
  maxGoodF s inl F21 K < nMinGood_of (count_true inl) minTriangulated \/
  1 < nsimilarF s inl F21 K ->
  ReconstructF s inl F21 K o minParallax minTriangulated =
    (false, mkOutParams emptyMat emptyMat (vP3D o) (vbTriangulated o)).
Proof.
  unfold maxGoodF, nsimilarF, countsF, ReconstructF.
  destruct (DecomposeE F21 K) as [[R1 R2] t]. intros Hrej.
  now rewrite ReconstructF_decide_rejects.
Qed.

(** ** ReconstructH *)

(** Past the degeneracy test, [ReconstructH] accepts exactly when the final
    test of the code holds, and then copies the best hypothesis out. *)
Lemma ReconstructH_accepts_iff s inl H21 K o minParallax minTriangulated :
  degenerateH (cv_singularH H21 K) = false ->
  ((ReconstructH s inl H21 K o minParallax minTriangulated).1 = true <->
   acceptH (count_true inl) (bestH s inl H21 K) minParallax minTriangulated
     = true) /\
  ((ReconstructH s inl H21 K o minParallax minTriangulated).1 = false ->
   (ReconstructH s inl H21 K o minParallax minTriangulated).2 = o).
Proof.
  intros Hd. unfold ReconstructH. rewrite Hd.
  destruct (acceptH _ _ _ _); simpl; split; try split; congruence.
Qed.

(** ** The parallax tests of the two reconstructions *)







(** ** ReconstructLine *)

(** The matches built from a positional vector have their first index
    inside that vector: for line matches, inside the lines of frame 1. *)
Lemma build_matches_first (v : list Z) : forall (k : nat) (m : Match),
  m ∈ build_matches k v -> (k <= m.1 < k + length v)%nat.
Proof.
  induction v as [|j v IH]; intros k m Hm; simpl in *.
  - inversion Hm.
  - destruct (0 <=? j).
    + apply elem_of_cons in Hm as [-> | Hm]; [simpl; lia|].
      apply IH in Hm. lia.
    + apply IH in Hm. lia.
Qed.

Lemma ReconstructLine_body_cases s K R t (m : Match) o n :
  sized n o ->
  match ReconstructLine_accept s K R t m with
  | None => ReconstructLine_body s K R t m o = Some o
  | Some _ =>
      if decide (m.1 < n)%nat
      then exists o', ReconstructLine_body s K R t m o = Some o' /\ sized n o'
      else ReconstructLine_body s K R t m o = None
  end.
Proof.
  intros (HS & HE & HT). unfold ReconstructLine_body.
  destruct (ReconstructLine_accept s K R t m) as [[pS pE]|]; [|reflexivity].
  destruct (decide (m.1 < n)%nat) as [Hlt|Hge].
  - rewrite !write_at_Some by lia. simpl. eexists. split; [reflexivity|].
    unfold sized. simpl. rewrite !length_insert. auto.
  - rewrite (write_at_None m.1 pS) by lia. reflexivity.
Qed.

Lemma ReconstructLine_loop_None s K R t (ms : list Match) n : forall o,
  sized n o ->
  (ReconstructLine_loop s K R t ms o = None <->
   Exists (fun m : Match =>
             is_Some (ReconstructLine_accept s K R t m) /\ (n <= m.1)%nat) ms) /\
  (forall o', ReconstructLine_loop s K R t ms o = Some o' -> sized n o').
Proof.
  induction ms as [|m ms IH]; intros o Ho; simpl.
  - split; [|intros o' [= <-]; exact Ho].
    split; [discriminate | intros Hex; inversion Hex].
  - pose proof (ReconstructLine_body_cases s K R t m o n Ho) as Hb.
    destruct (ReconstructLine_accept s K R t m) as [pp|] eqn:Hacc.
    + destruct (decide (m.1 < n)%nat) as [Hlt|Hge].
      * destruct Hb as (o1 & -> & Ho1). simpl.
        destruct (IH o1 Ho1) as [IH1 IH2]. split; [|exact IH2].
        rewrite IH1, Exists_cons. split; [now right|].
        intros [[_ Hn]|Hex]; [lia | exact Hex].
      * rewrite Hb. simpl. split; [|discriminate].
        split; [|reflexivity]. intros _. apply Exists_cons. left.
        split; [now exists pp | lia].
    + rewrite Hb. simpl. destruct (IH o Ho) as [IH1 IH2]. split; [|exact IH2].
      rewrite IH1, Exists_cons. split; [now right|].
      intros [[Hs _]|Hex]; [|exact Hex].
      destruct Hs as [x Hx]. simpl in Hx. congruence.
Qed.

Lemma ReconstructLine_sized n o :
  sized n (mkLineOut (resize n zero3 (vLineS3D o)) (resize n zero3 (vLineE3D o))
             (resize n false (vbLineTriangulated o))).
Proof. unfold sized. simpl. now rewrite !resize_length. Qed.

Lemma ReconstructLine_None s (ms : list Match) K R t o :
  ReconstructLine s ms K R t o = None <->
  Exists (fun m : Match =>
            is_Some (ReconstructLine_accept s K R t m) /\
            (length (mvKeys1 s) <= m.1)%nat) ms.
Proof.
  unfold ReconstructLine.
  apply (ReconstructLine_loop_None s K R t ms (length (mvKeys1 s)) _
           (ReconstructLine_sized _ o)).
Qed.

End WithKernel.

(** C10. In [CheckRT], a match whose triangulated point passes the
    cheirality and reprojection tests but has [cosParallax >= 0.99998] is
    counted in [nGood] and its point stored in [vP3D] while [vbGood] is
    left as it is (false at the end, when the first indices of the matches
    are distinct); hence for every input the returned [nGood] is at least
    the number of true entries of [vbGood], and for some input it is
    strictly greater. *)
Theorem C10_checkRT_counts_low_parallax :
  (forall (cv : CvKernel) R t K th2 keys1 keys2 inl i (m : Match) st p c,
     inl !!! i = true ->
     CheckRT_verdict R t K th2 (keys1 !!! m.1) (keys2 !!! m.2) = Survives p c ->
     fge (to_double c) d0_99998 = true ->
     CheckRT_body R t K th2 keys1 keys2 inl i m st =
       mkCheckRTState (st_nGood st + 1) (<[m.1 := p]> (st_vP3D st))
         (st_vbGood st) (st_vCosParallax st ++ [c])) /\
  (forall (cv : CvKernel) R t keys1 keys2 (ms : list Match) inl K v th2 i
     (m : Match) p c,
     NoDup ms.*1 -> ms !! i = Some m -> (m.1 < length keys1)%nat ->
     inl !!! i = true ->
     CheckRT_verdict R t K th2 (keys1 !!! m.1) (keys2 !!! m.2) = Survives p c ->
     fge (to_double c) d0_99998 = true ->
     r_vbGood (CheckRT R t keys1 keys2 ms inl K v th2) !! m.1 = Some false /\
     r_vP3D (CheckRT R t keys1 keys2 ms inl K v th2) !! m.1 = Some p) /\
  (forall (cv : CvKernel) R t keys1 keys2 ms inl K v th2,
     count_true (r_vbGood (CheckRT R t keys1 keys2 ms inl K v th2)) <=
     nGood (CheckRT R t keys1 keys2 ms inl K v th2)) /\
  (exists (cv : CvKernel) R t keys1 keys2 ms inl K v th2,
     count_true (r_vbGood (CheckRT R t keys1 keys2 ms inl K v th2)) <
     nGood (CheckRT R t keys1 keys2 ms inl K v th2)).
Proof.
  split; [intros; now apply CheckRT_body_low_parallax|].
  split; [intros; now apply CheckRT_low_parallax_final with (i := i) (c := c)|].
  split.
  - intros cv R t keys1 keys2 ms inl K v th2.
    apply (CheckRT_final_inv R t keys1 keys2 ms inl K v th2).
  - exists scen_cv, [[fl 1]], [[fl 1]], (keys 1 (fl 1)), (keys 1 (fl 1)),
      (matches 1), (all_inliers 1), K1, [], (fl 4).
    vm_compute. reflexivity.
Qed.

(** C9. [ReconstructLine] resizes its three output vectors to the number
    of point features [mvKeys1.size()] and, for each accepted line match,
    writes at the index [vLineMatches[i].first]: a write falls outside the
    vectors exactly when an accepted match has a first index at or beyond
    that number; so every write is in bounds when every matched index is
    below the number of point features, that condition is needed as soon
    as the matches are accepted, and some input with a valid line index at
    or beyond the number of point features writes out of bounds. *)
Theorem C9_reconstructLine_write_bounds :
  (forall (cv : CvKernel) s ms K R t o o',
     ReconstructLine s ms K R t o = Some o' ->
     length (vLineS3D o') = length (mvKeys1 s) /\
     length (vLineE3D o') = length (mvKeys1 s) /\
     length (vbLineTriangulated o') = length (mvKeys1 s)) /\
  (forall (cv : CvKernel) s (ms : list Match) K R t o,
     ReconstructLine s ms K R t o = None <->
     Exists (fun m : Match =>
               is_Some (ReconstructLine_accept s K R t m) /\
               (length (mvKeys1 s) <= m.1)%nat) ms) /\
  (forall (cv : CvKernel) s (ms : list Match) K R t o,
     Forall (fun m : Match => (m.1 < length (mvKeys1 s))%nat) ms ->
     is_Some (ReconstructLine s ms K R t o)) /\
  (forall (cv : CvKernel) s (ms : list Match) K R t o,
     Forall (fun m : Match => is_Some (ReconstructLine_accept s K R t m)) ms ->
     is_Some (ReconstructLine s ms K R t o) ->
     Forall (fun m : Match => (m.1 < length (mvKeys1 s))%nat) ms) /\
  (exists (cv : CvKernel) s (m : Match) K R t o,
     (length (mvKeys1 s) <= m.1)%nat /\
     (m.1 < length (mvKeyLines1 s))%nat /\
     ReconstructLine s [m] K R t o = None).
Proof.
  split_and!.
  - intros cv s ms K R t o o' Hs. unfold ReconstructLine in Hs.
    apply (ReconstructLine_loop_None s K R t ms (length (mvKeys1 s)) _
             (ReconstructLine_sized _ o)) in Hs. exact Hs.
  - intros. apply ReconstructLine_None.
  - intros cv s ms K R t o Hall.
    destruct (ReconstructLine s ms K R t o) as [o'|] eqn:E; [now exists o'|].
    apply ReconstructLine_None in E.
    apply Exists_exists in E as (m & Hin & _ & Hge).
    rewrite Forall_forall in Hall. specialize (Hall m Hin). lia.
  - intros cv s ms K R t o Hacc [o' Hs].
    apply Forall_forall. intros m Hin.
    destruct (decide (m.1 < length (mvKeys1 s))%nat) as [Hlt|Hge]; [exact Hlt|].
    assert (Hn : ReconstructLine s ms K R t o = None).
    { apply ReconstructLine_None, Exists_exists. exists m.
      split; [exact Hin|].
      rewrite Forall_forall in Hacc. split; [now apply Hacc | lia]. }
    congruence.
  - exists scen_cv, (line_state 1 6), (5%nat, 5%nat), K1, [[fl 1]], [[fl 1]],
      lines0.
    split_and!; vm_compute; try reflexivity; lia.
Qed.

(** ** The reconstructions on the worked scenarios *)

Section OnScenario.
#[local] Existing Instance scen_cv.

(** A hundred inlier matches of which two hypotheses keep 100 and 80:
    [nsimilar = 2] and the reconstruction is rejected. *)
Lemma C2_reconstructF_rejects_witness :
  ReconstructF (init_state 100 (flit 5 10)) (all_inliers 100) (F_of 100 80) K1
    out_before minParallax0 50 =
  (false, mkOutParams emptyMat emptyMat (vP3D out_before)
            (vbTriangulated out_before)).
Proof.
  apply (C2_reconstructF_rejects (init_state 100 (flit 5 10))
           (all_inliers 100) (F_of 100 80) K1 out_before minParallax0 50).
  right. vm_compute. reflexivity.
Defined.

(** The truncation [static_cast<int>(0.9*N)] is the floor of [9*N/10] over
    the counts an image pair gives. *)
Lemma nMinGood_floor :
  forallb (fun n => double_to_int (dmul d0_9 (int_to_double (Z.of_nat n)))
                    =? 9 * Z.of_nat n / 10) (seq 0 5000) = true.
Proof. vm_compute. reflexivity. Qed.

(** C2 as the specification words it fails on two inputs.  With counts
    (100, 70, 0, 0) out of 100 inliers the second hypothesis reaches 70% of
    [maxGood], and with counts (90, 0, 0, 0) out of 101 inliers [maxGood]
    is below 0.9*101 = 90.9: the specification rejects both, the code
    accepts both ([70 > 0.7*100] is false, and [int(90.9) = 90]). *)
Lemma C2_reconstructF_counterexample :
  (countsF (init_state 100 (flit 5 10)) (all_inliers 100) (F_of 100 70) K1
     = (100, 70, 0, 0) /\
   count_true (all_inliers 100) = 100 /\
   spec_rejectF 100 100 70 0 0 = true /\
   (ReconstructF (init_state 100 (flit 5 10)) (all_inliers 100) (F_of 100 70)
      K1 out_before minParallax0 50).1 = true) /\
  (countsF (init_state 101 (flit 5 10)) (all_inliers 101) (F_of 90 0) K1
     = (90, 0, 0, 0) /\
   count_true (all_inliers 101) = 101 /\
   spec_rejectF 101 90 0 0 0 = true /\
   (ReconstructF (init_state 101 (flit 5 10)) (all_inliers 101) (F_of 90 0)
      K1 out_before minParallax0 50).1 = true).
Proof. split_and!; vm_compute; reflexivity. Qed.

(** C3. The specification accepts a best count equal to [minTriangulated]
    ("exactly 50 surviving triangulations passes the minimum").  With 50
    inliers, a best hypothesis that keeps all 50, no other hypothesis
    keeping any, and a parallax of 60 degrees, the three other conditions
    hold and [ReconstructH] returns false, leaving its outputs untouched:
    the code tests [bestGood > minTriangulated].  With 51 it accepts; and
    [ReconstructF], on the same 50 matches, accepts. *)
Theorem C3_reconstructH_rejects_best_equal_minimum :
  count_true (all_inliers 50) = 50 /\
  bestGood (bestH (init_state 50 (flit 5 10)) (all_inliers 50)
              (H_of [50; 0; 0; 0; 0; 0; 0; 0]) K1) = 50 /\
  secondBestGood (bestH (init_state 50 (flit 5 10)) (all_inliers 50)
                    (H_of [50; 0; 0; 0; 0; 0; 0; 0]) K1) = 0 /\
  bestParallax (bestH (init_state 50 (flit 5 10)) (all_inliers 50)
                  (H_of [50; 0; 0; 0; 0; 0; 0; 0]) K1) = fl 60 /\
  fge (fl 60) minParallax0 = true /\
  degenerateH (cv_singularH (H_of [50; 0; 0; 0; 0; 0; 0; 0]) K1) = false /\
  ReconstructH (init_state 50 (flit 5 10)) (all_inliers 50)
    (H_of [50; 0; 0; 0; 0; 0; 0; 0]) K1 out_before minParallax0 50 =
    (false, out_before) /\
  (ReconstructH (init_state 51 (flit 5 10)) (all_inliers 51)
     (H_of [51; 0; 0; 0; 0; 0; 0; 0]) K1 out_before minParallax0 50).1 = true /\
  (ReconstructF (init_state 50 (flit 5 10)) (all_inliers 50) (F_of 50 0) K1
     out_before minParallax0 50).1 = true.
Proof. split_and!; vm_compute; reflexivity. Qed.






End OnScenario.

End InitializerProofs.

(* ===================================================================== *)
(** * Properties of the local mapper *)
(* ===================================================================== *)

Module LocalMappingProofs.

Import Initializer LocalMapping Scenario SpecWords.

(** C7. The specification flags a covisible keyframe other than keyframe 0
    exactly when at least 90% of its valid MapPoints are seen by at least
    three other keyframes at the same or a finer scale.  [KeyFrameCulling]
    leaves keyframe 3 of [heap_ninety] unflagged although nine of its ten
    MapPoints (90%) are seen by three other keyframes at its own scale (it
    tests [nRedundantObservations > 0.9*nMPs]), and flags keyframe 3 of
    [heap_coarser] whose only MapPoint is seen by the three others at a
    coarser scale only (it counts [scaleLeveli <= scaleLevel+1]). *)
Theorem C7_keyFrameCulling_ninety_percent_and_scale :
  (mnId (kf_at heap_ninety 3%nat) = 3 /\
   GetVectorCovisibleKeyFrames (kf_at heap_ninety (mpCurrentKeyFrame mapper2))
     = [3%nat] /\
   culling_loop heap_ninety true 3%nat 0
     (GetMapPointMatches (kf_at heap_ninety 3%nat)) (0, 0) = (9, 10) /\
   spec_redundant heap_ninety 3%nat = true /\
   kf_isBad (kf_at (KeyFrameCulling mapper2 heap_ninety) 3%nat) = false) /\
  (mnId (kf_at heap_coarser 3%nat) = 3 /\
   GetVectorCovisibleKeyFrames (kf_at heap_coarser (mpCurrentKeyFrame mapper2))
     = [3%nat] /\
   culling_loop heap_coarser true 3%nat 0
     (GetMapPointMatches (kf_at heap_coarser 3%nat)) (0, 0) = (1, 1) /\
   spec_redundant heap_coarser 3%nat = false /\
   kf_isBad (kf_at (KeyFrameCulling mapper2 heap_coarser) 3%nat) = true).
Proof. split_and!; vm_compute; reflexivity. Qed.

(** C8 as the specification words it fails: after [RequestStop] then
    [Release] a freshly constructed mapper has [stopRequested] and
    [abortBA] set, against their constructor value false; and a mapper
    whose loop has been entered still has [abortBA] set. *)
Lemma C8_release_counterexample :
  control (Release (RequestStop (LocalMapping_new true))) <>
    control (LocalMapping_new true) /\
  mbAbortBA (Release (RequestStop (LocalMapping_new true))) = true /\
  mbStopRequested (Release (RequestStop (LocalMapping_new true))) = true /\
  mbAbortBA (LocalMapping_new true) = false /\
  mbStopRequested (LocalMapping_new true) = false /\
  mlNewKeyFrames (Run_enter (LocalMapping_new true)) = [] /\
  mbAbortBA (Release (RequestStop (Run_enter (LocalMapping_new true)))) = true /\
  control (Release (RequestStop (Run_enter (LocalMapping_new true)))) <>
    control (LocalMapping_new true).
Proof. split_and!; try reflexivity; discriminate. Qed.

(** [Release] writes [mbStopped], [mbStopRequested] and the queue only. *)
Lemma Release_other_members (s : State) :
  mbMonocular (Release s) = mbMonocular s /\
  mbResetRequested (Release s) = mbResetRequested s /\
  mbFinishRequested (Release s) = mbFinishRequested s /\
  mbFinished (Release s) = mbFinished s /\
  mbAbortBA (Release s) = mbAbortBA s /\
  mbNotStop (Release s) = mbNotStop s /\
  mbAcceptKeyFrames (Release s) = mbAcceptKeyFrames s /\
  mlpRecentAddedMapPoints (Release s) = mlpRecentAddedMapPoints s /\
  mlpRecentAddedMapLines (Release s) = mlpRecentAddedMapLines s /\
  mpCurrentKeyFrame (Release s) = mpCurrentKeyFrame s.
Proof.
  destruct s as [mono rr fr fin ab st sr ns ak q rp rl cur].
  unfold Release. simpl. destruct fin; split_and!; reflexivity.
Qed.

(** Only the assignment [mbAbortBA = false] of [Run] clears [mbAbortBA]. *)
Lemma call_keeps_abortBA (c : Call) (s : State) :
  c <> CallRun_clearAbortBA -> mbAbortBA s = true ->
  mbAbortBA (call c s) = true.
Proof.
  intros Hc Hs. destruct c; simpl; try exact Hs; try reflexivity;
    try congruence.
  - unfold Stop. destruct (_ && _); exact Hs.
  - unfold Release. destruct (mbFinished s); exact Hs.
  - unfold SetNotStop. destruct (_ && _); exact Hs.
  - unfold ResetIfRequested. destruct (mbResetRequested s); exact Hs.
Qed.

Lemma calls_keep_abortBA (cs : list Call) : forall s : State,
  CallRun_clearAbortBA ∉ cs -> mbAbortBA s = true ->
  mbAbortBA (calls cs s) = true.
Proof.
  induction cs as [|c cs IH]; intros s Hcs Hs; [exact Hs|].
  apply not_elem_of_cons in Hcs as [Hc Hcs].
  change (calls (c :: cs) s) with (calls cs (call c s)).
  apply IH; [exact Hcs|]. apply call_keeps_abortBA; [congruence|exact Hs].
Qed.

(** C8, as the code has it.  Let [Release] be called after [RequestStop],
    whatever calls [cs] were made on the mapper in between.  If
    [mbFinished] is false when [Release] runs, the keyframe queue is empty
    and the flags [stopped] and [stopRequested] hold their constructor
    value false afterwards; if [mbFinished] is true, as on a freshly
    constructed mapper, [Release] changes nothing.  [Release] writes no
    other member: [abortBA] and the remaining flags keep the value they had
    just before it, and [abortBA], which [RequestStop] set, is still set
    after [Release] unless the assignment [mbAbortBA = false] of the loop
    of [Run] was among the calls in between. *)
Theorem C8_release_after_requestStop (s : State) (cs : list Call) :
  let s1 := calls cs (RequestStop s) in
  (mbFinished s1 = false ->
   mlNewKeyFrames (Release s1) = [] /\
   mbStopped (Release s1) = mbStopped (LocalMapping_new true) /\
   mbStopRequested (Release s1) = mbStopRequested (LocalMapping_new true)) /\
  (mbFinished s1 = true -> Release s1 = s1) /\
  (mbAbortBA (Release s1) = mbAbortBA s1 /\
   mbResetRequested (Release s1) = mbResetRequested s1 /\
   mbFinishRequested (Release s1) = mbFinishRequested s1 /\
   mbFinished (Release s1) = mbFinished s1 /\
   mbNotStop (Release s1) = mbNotStop s1 /\
   mbAcceptKeyFrames (Release s1) = mbAcceptKeyFrames s1 /\
   mbMonocular (Release s1) = mbMonocular s1 /\
   mlpRecentAddedMapPoints (Release s1) = mlpRecentAddedMapPoints s1 /\
   mlpRecentAddedMapLines (Release s1) = mlpRecentAddedMapLines s1 /\
   mpCurrentKeyFrame (Release s1) = mpCurrentKeyFrame s1) /\
  (CallRun_clearAbortBA ∉ cs -> mbAbortBA (Release s1) = true).
Proof.
  intros s1.
  destruct (Release_other_members s1)
    as (Hmo & Hrr & Hfr & Hfin & Hab & Hns & Hak & Hrp & Hrl & Hcur).
  split_and!; try assumption.
  - intros Hf. unfold Release. rewrite Hf. split_and!; reflexivity.
  - intros Hf. unfold Release. rewrite Hf. reflexivity.
  - intros Hcs. rewrite Hab. apply calls_keep_abortBA; [exact Hcs|].
    reflexivity.
Qed.

(** C8 on a mapper whose loop has been entered, with [Stop] and
    [SetAcceptKeyFrames(false)] between [RequestStop] and [Release]. *)
Lemma C8_release_after_requestStop_witness :
  (mlNewKeyFrames
     (Release (calls [CallStop; CallSetAcceptKeyFrames false]
                 (RequestStop (Run_enter (LocalMapping_new true))))) = [] /\
   mbStopped
     (Release (calls [CallStop; CallSetAcceptKeyFrames false]
                 (RequestStop (Run_enter (LocalMapping_new true))))) =
     mbStopped (LocalMapping_new true) /\
   mbStopRequested
     (Release (calls [CallStop; CallSetAcceptKeyFrames false]
                 (RequestStop (Run_enter (LocalMapping_new true))))) =
     mbStopRequested (LocalMapping_new true)) /\
  mbAbortBA
    (Release (calls [CallStop; CallSetAcceptKeyFrames false]
                (RequestStop (Run_enter (LocalMapping_new true))))) = true.
Proof.
  pose proof (C8_release_after_requestStop (Run_enter (LocalMapping_new true))
                [CallStop; CallSetAcceptKeyFrames false])
    as (H1 & _ & _ & H4).
  split.
  - apply H1. reflexivity.
  - apply H4. intros Hin. apply elem_of_cons in Hin as [Hin|Hin];
      [discriminate|].
    apply elem_of_cons in Hin as [Hin|Hin]; [discriminate|].
    apply elem_of_nil in Hin. exact Hin.
Defined.

End LocalMappingProofs.

(* ===================================================================== *)
(** * Further properties of the initializer *)
(* ===================================================================== *)

Module InitializerMore.

Import Initializer Scenario FloatFacts InitializerProofs.

(** ** The order of the comparisons *)

Lemma flt_numbers a b : flt a b = true -> is_nan a = false /\ is_nan b = false.
Proof. destruct a, b; simpl; try discriminate; auto. Qed.

Lemma flt_false_rank a b :
  is_nan a = false -> is_nan b = false ->
  (flt a b = false <-> lex_le (rank b) (rank a)).
Proof.
  intros Ha Hb. rewrite <- (fle_rank b a Hb Ha). split.
  - apply not_flt_fle; assumption.
  - apply fle_not_flt.
Qed.

Lemma flt_true_rank a b :
  flt a b = true ->
  is_nan a = false /\ is_nan b = false /\ ~ lex_le (rank b) (rank a).
Proof.
  intros H. destruct (flt_numbers a b H) as [Ha Hb]. split_and!; try assumption.
  rewrite <- (flt_false_rank a b Ha Hb). congruence.
Qed.

Lemma rank_flt_true a b :
  is_nan a = false -> is_nan b = false -> ~ lex_le (rank b) (rank a) ->
  flt a b = true.
Proof.
  intros Ha Hb H. destruct (flt a b) eqn:E; [reflexivity|].
  apply (flt_false_rank a b Ha Hb) in E. contradiction.
Qed.

Lemma flt_nan_l a b : is_nan a = true -> flt a b = false.
Proof. destruct a; try discriminate. reflexivity. Qed.

Lemma flt_nan_r a b : is_nan b = true -> flt a b = false.
Proof. destruct b; try discriminate. destruct a; reflexivity. Qed.

Lemma flt_irrefl a : flt a a = false.
Proof.
  destruct (flt a a) eqn:E; [|reflexivity].
  apply flt_asym in E as E'. congruence.
Qed.

Lemma flt_trans a b c : flt a b = true -> flt b c = true -> flt a c = true.
Proof.
  intros H1 H2. apply flt_true_rank in H1 as (Ha & Hb & H1).
  apply flt_true_rank in H2 as (_ & Hc & H2).
  apply rank_flt_true; try assumption. unfold lex_le in *. lia.
Qed.

Lemma flt_false_trans a b c :
  is_nan b = false ->
  flt b a = false -> flt c b = false -> is_nan a = false -> is_nan c = false ->
  flt c a = false.
Proof.
  intros Hb H1 H2 Ha Hc.
  apply (flt_false_rank b a Hb Ha) in H1. apply (flt_false_rank c b Hc Hb) in H2.
  apply (flt_false_rank c a Hc Ha). unfold lex_le in *. lia.
Qed.

Lemma flt_le_false a b c :
  flt a b = true -> flt c b = false -> is_nan c = false -> flt c a = false.
Proof.
  intros H1 H2 Hc. apply flt_true_rank in H1 as (Ha & Hb & H1).
  apply (flt_false_rank c b Hc Hb) in H2.
  apply (flt_false_rank c a Hc Ha). unfold lex_le in *. lia.
Qed.

Section KeepBest.
Context {X : Type} (f : X -> Mat) (g : Mat -> float * list bool).

Lemma keep_best_fold (l : list X) : forall b0 : Best,
  is_nan b0.1.2 = false ->
  let r := fold_left (fun best x => keep_best best (f x) (g (f x))) l b0 in
  (r = b0 \/
   Exists (fun x => r = ((g (f x)).2, (g (f x)).1, f x) /\
                    fgt (g (f x)).1 b0.1.2 = true) l) /\
  Forall (fun x => fgt (g (f x)).1 r.1.2 = false) l /\
  fgt b0.1.2 r.1.2 = false /\ is_nan r.1.2 = false.
Proof.
  induction l as [|x l IH]; intros b0 Hb0; simpl.
  - split_and!; auto. apply flt_irrefl.
  - assert (Hk : keep_best b0 (f x) (g (f x)) =
                 if flt b0.1.2 (g (f x)).1
                 then ((g (f x)).2, (g (f x)).1, f x) else b0) by reflexivity.
    rewrite Hk. clear Hk. unfold fgt in *.
    destruct (flt b0.1.2 (g (f x)).1) eqn:E.
    + destruct (flt_numbers _ _ E) as [_ Hx].
      destruct (IH ((g (f x)).2, (g (f x)).1, f x) Hx) as (H1 & H2 & H3 & H4).
      simpl in *. split_and!; try assumption.
      * right. destruct H1 as [->|H1].
        -- apply Exists_cons_hd. split; [reflexivity|assumption].
        -- apply Exists_cons_tl. eapply Exists_impl; [exact H1|].
           simpl. intros y [-> Hy]. split; [reflexivity|].
           simpl. eapply flt_trans; eassumption.
      * constructor; assumption.
      * eapply flt_le_false; eassumption.
    + destruct (IH b0 Hb0) as (H1 & H2 & H3 & H4).
      split_and!; try assumption.
      * destruct H1 as [H1|H1]; [left; assumption|right].
        apply Exists_cons_tl. assumption.
      * constructor; [|assumption].
        destruct (is_nan (g (f x)).1) eqn:Hn.
        -- apply flt_nan_r. assumption.
        -- eapply (flt_false_trans _ b0.1.2); eassumption.
Qed.
End KeepBest.

Lemma score_loop_length body ms sc : length (score_loop body ms sc).2 = length ms.
Proof.
  revert sc. induction ms as [|m ms IH]; intros sc; simpl; [reflexivity|].
  rewrite IH. reflexivity.
Qed.

Section WithSvd.
Context {svd : SvdKernel}.

(** X5. [FindHomography] returns one flag per match; its result is either
    the initial one (no flag set, score 0, [H21] as it was), or the matrix
    of one of the sample sets together with the score, above 0, and the
    flags that [CheckHomography] gives for that very matrix; and no sample
    set has a score above the returned one. *)
Theorem FindHomography_keeps_best (s : InitializerState)
  (mvSets : list (list nat)) (H21_in : Mat) :
  let r := FindHomography s mvSets H21_in in
  length r.1.1 = length (mvMatches12 s) /\
  (r = (replicate (length (mvMatches12 s)) false, fzero, H21_in) \/
   Exists (fun set =>
             r.2 = candidateH s set /\
             (r.1.2, r.1.1) = CheckHomography s r.2 (cv_inv r.2) (mSigma s) /\
             fgt r.1.2 fzero = true) mvSets) /\
  Forall (fun set =>
            fgt (CheckHomography s (candidateH s set)
                   (cv_inv (candidateH s set)) (mSigma s)).1 r.1.2 = false)
    mvSets.
Proof.
  intros r.
  destruct (keep_best_fold (candidateH s) (scoreH s) mvSets
              (replicate (length (mvMatches12 s)) false, fzero, H21_in)
              eq_refl) as (H1 & H2 & _ & _).
  fold (FindHomography s mvSets H21_in) in H1, H2. fold r in H1, H2.
  assert (Hor : r = (replicate (length (mvMatches12 s)) false, fzero, H21_in) \/
   Exists (fun set =>
             r.2 = candidateH s set /\
             (r.1.2, r.1.1) = CheckHomography s r.2 (cv_inv r.2) (mSigma s) /\
             fgt r.1.2 fzero = true) mvSets).
  { destruct H1 as [H1|H1]; [left; exact H1|right].
    eapply Exists_impl; [exact H1|]. simpl. intros set [-> Hs]. simpl.
    split_and!; try reflexivity; try assumption.
    unfold scoreH. destruct (CheckHomography _ _ _ _); reflexivity. }
  split_and!; try assumption.
  destruct Hor as [->|Hex].
  - simpl. apply length_replicate.
  - apply Exists_exists in Hex as (set & _ & _ & Heq & _).
    assert (Hl : r.1.1 = (CheckHomography s r.2 (cv_inv r.2) (mSigma s)).2)
      by (rewrite <- Heq; reflexivity).
    rewrite Hl. apply score_loop_length.
Qed.

(** X6. [FindFundamental] returns either its initial result (score 0,
    [F21] as it was, and as many false flags as the vector it was given had
    elements: its [N] is [vbMatchesInliers.size()], not the number of
    matches), or the matrix of one of
    the sample sets together with the score, above 0, and the flags, one per
    match, that [CheckFundamental] gives for that very matrix; and no sample
    set has a score above the returned one. *)
Theorem FindFundamental_keeps_best (s : InitializerState)
  (mvSets : list (list nat)) (vbMatchesInliers_in : list bool) (F21_in : Mat) :
  let r := FindFundamental s mvSets vbMatchesInliers_in F21_in in
  (r = (replicate (length vbMatchesInliers_in) false, fzero, F21_in) \/
   length r.1.1 = length (mvMatches12 s) /\
   Exists (fun set =>
             r.2 = candidateF s set /\
             (r.1.2, r.1.1) = CheckFundamental s r.2 (mSigma s) /\
             fgt r.1.2 fzero = true) mvSets) /\
  Forall (fun set =>
            fgt (CheckFundamental s (candidateF s set) (mSigma s)).1 r.1.2
            = false) mvSets.
Proof.
  intros r.
  destruct (keep_best_fold (candidateF s) (scoreF s) mvSets
              (replicate (length vbMatchesInliers_in) false, fzero, F21_in)
              eq_refl) as (H1 & H2 & _ & _).
  fold (FindFundamental s mvSets vbMatchesInliers_in F21_in) in H1, H2.
  fold r in H1, H2.
  split; [|exact H2].
  destruct H1 as [H1|H1]; [left; exact H1|right].
  assert (Hex : Exists (fun set =>
             r.2 = candidateF s set /\
             (r.1.2, r.1.1) = CheckFundamental s r.2 (mSigma s) /\
             fgt r.1.2 fzero = true) mvSets).
  { eapply Exists_impl; [exact H1|]. simpl. intros set [-> Hs]. simpl.
    split_and!; try reflexivity; try assumption.
    unfold scoreF. destruct (CheckFundamental _ _ _); reflexivity. }
  split; [|exact Hex].
  apply Exists_exists in Hex as (set & _ & _ & Heq & _).
  assert (Hl : r.1.1 = (CheckFundamental s r.2 (mSigma s)).2)
    by (rewrite <- Heq; reflexivity).
  rewrite Hl. apply score_loop_length.
Qed.

End WithSvd.

(** ** The matches and the sample sets of Initialize *)

Lemma build_matches_elem (v : list Z) : forall (k i j : nat),
  (i, j) ∈ build_matches k v <->
  exists z, (k <= i)%nat /\ v !! (i - k)%nat = Some z /\ 0 <= z /\ j = Z.to_nat z.
Proof.
  induction v as [|z0 v IH]; intros k i j; simpl.
  - split; [intros H; inversion H|intros (z & _ & H & _); discriminate].
  - assert (Hrest : (i, j) ∈ build_matches (S k) v <->
      exists z, (S k <= i)%nat /\ (z0 :: v) !! (i - k)%nat = Some z /\ 0 <= z
                /\ j = Z.to_nat z).
    { rewrite IH. split; intros (z & Hk & Hz & Hr); exists z; split_and!;
        try tauto; try lia.
      - replace (i - k)%nat with (S (i - S k)) by lia. exact Hz.
      - replace (i - k)%nat with (S (i - S k)) in Hz by lia. exact Hz. }
    destruct (0 <=? z0) eqn:E.
    + rewrite elem_of_cons, Hrest. split.
      * intros [Heq|(z & Hk & Hz & Hr)].
        -- injection Heq as -> ->. exists z0. rewrite Nat.sub_diag.
           split_and!; try reflexivity; lia.
        -- exists z. split_and!; try tauto; lia.
      * intros (z & Hk & Hz & Hp & Hj).
        destruct (decide (i = k)) as [->|Hne].
        -- left. rewrite Nat.sub_diag in Hz. simpl in Hz. congruence.
        -- right. exists z. split_and!; try assumption; lia.
    + rewrite Hrest. split.
      * intros (z & Hk & Hz & Hr). exists z. split_and!; try tauto; lia.
      * intros (z & Hk & Hz & Hp & Hj).
        destruct (decide (i = k)) as [->|Hne].
        -- rewrite Nat.sub_diag in Hz. simpl in Hz. injection Hz as ->. lia.
        -- exists z. split_and!; try assumption; lia.
Qed.

Lemma build_matches_ge (v : list Z) : forall (k : nat),
  Forall (fun m : Match => (k <= m.1)%nat) (build_matches k v).
Proof.
  induction v as [|z0 v IH]; intros k; simpl; [constructor|].
  assert (H : Forall (fun m : Match => (k <= m.1)%nat) (build_matches (S k) v)).
  { eapply Forall_impl; [apply IH|]. simpl. intros; lia. }
  destruct (0 <=? z0); [constructor; [simpl; lia|exact H]|exact H].
Qed.

Lemma build_matches_sorted (v : list Z) : forall (k : nat),
  StronglySorted lt (map fst (build_matches k v)).
Proof.
  induction v as [|z0 v IH]; intros k; simpl; [constructor|].
  destruct (0 <=? z0); [|apply IH].
  simpl. constructor; [apply IH|].
  apply Forall_fmap. eapply Forall_impl; [apply (build_matches_ge v (S k))|].
  simpl. intros; lia.
Qed.

Lemma sorted_lt_NoDup (l : list nat) : StronglySorted lt l -> NoDup l.
Proof.
  induction 1 as [|a l Hs IH Hf]; constructor; [|assumption].
  intros Hin. rewrite Forall_forall in Hf. specialize (Hf _ Hin). lia.
Qed.

Lemma build_matches_NoDup (v : list Z) (k : nat) :
  NoDup (map fst (build_matches k v)).
Proof. apply sorted_lt_NoDup, build_matches_sorted. Qed.

(** X1. Step 1 of [Initialize] keeps exactly the non-negative entries of
    [vMatches12]: the pair [(i, j)] is in [mvMatches12] if and only if
    [vMatches12[i] = j >= 0]; the first indices of the pairs are strictly
    increasing, hence pairwise distinct. *)
Theorem Initialize_matches_are_the_nonnegative_entries (vMatches12 : list Z) :
  StronglySorted lt (map fst (build_matches 0 vMatches12)) /\
  NoDup (map fst (build_matches 0 vMatches12)) /\
  forall i j : nat,
    (i, j) ∈ build_matches 0 vMatches12 <->
    exists z, vMatches12 !! i = Some z /\ 0 <= z /\ j = Z.to_nat z.
Proof.
  split_and!.
  - apply build_matches_sorted.
  - apply build_matches_NoDup.
  - intros i j. rewrite build_matches_elem. rewrite Nat.sub_0_r.
    split; intros (z & H); exists z; split_and!; try tauto; lia.
Qed.

Lemma fill_matched1_spec (v : list Z) : forall (k : nat) (mb : list bool),
  match fill_matched1 k v mb with
  | Some mb' =>
      (v <> [] -> (k + length v <= length mb)%nat) /\
      length mb' = length mb /\
      forall i : nat,
        mb' !! i =
        if decide (k <= i < k + length v)%nat
        then (fun z => 0 <=? z) <$> v !! (i - k)%nat
        else mb !! i
  | None => (length mb < k + length v)%nat
  end.
Proof.
  induction v as [|z v IH]; intros k mb; simpl.
  - split_and!; try reflexivity; try congruence. intros i.
    destruct (decide _); [lia|reflexivity].
  - unfold write_at. destruct (decide (k < length mb)%nat) as [Hk|Hk]; simpl;
      [|lia].
    specialize (IH (S k) (<[k := 0 <=? z]> mb)).
    destruct (fill_matched1 (S k) v (<[k := 0 <=? z]> mb)) as [mb'|].
    + rewrite length_insert in IH. destruct IH as (H1 & H2 & H3).
      split_and!; try lia.
      { intros _. destruct v; [simpl; lia|]. specialize (H1 ltac:(discriminate)). simpl in *. lia. }
      intros i. rewrite H3.
      destruct (decide (S k <= i < S k + length v)%nat) as [Hi|Hi].
      * destruct (decide _) as [_|Hn]; [|lia].
        replace (i - k)%nat with (S (i - S k)) by lia. reflexivity.
      * destruct (decide (i = k)) as [->|Hne].
        -- rewrite list_lookup_insert_eq by lia.
           destruct (decide _) as [_|Hn]; [|lia]. rewrite Nat.sub_diag.
           reflexivity.
        -- rewrite list_lookup_insert_ne by lia.
           destruct (decide _) as [Hc|_]; [lia|reflexivity].
    + rewrite length_insert in IH. lia.
Qed.

(** X2. Step 1 of [Initialize] writes [mvbMatched1[i]] for every index [i]
    of [vMatches12], after resizing [mvbMatched1] to [mvKeys1.size()]: every
    write is inside the vector exactly when [vMatches12] has at most
    [mvKeys1.size()] entries; then [mvbMatched1] has [mvKeys1.size()]
    entries, the entry [i] of an index of [vMatches12] is true exactly when
    [i] is the first index of a match, and the entries past [vMatches12] are
    those the resized vector had. *)
Theorem Initialize_matched_flags (s : InitializerState) (vMatches12 : list Z)
  (mvbMatched1 : list bool) :
  (is_Some (Initialize_step1 s vMatches12 mvbMatched1) <->
   (length vMatches12 <= length (mvKeys1 s))%nat) /\
  forall ms mb, Initialize_step1 s vMatches12 mvbMatched1 = Some (ms, mb) ->
    ms = build_matches 0 vMatches12 /\
    length mb = length (mvKeys1 s) /\
    (forall i : nat, (i < length vMatches12)%nat ->
       (mb !! i = Some true <-> exists j : nat, (i, j) ∈ ms)) /\
    (forall i : nat, (length vMatches12 <= i)%nat ->
       mb !! i = resize (length (mvKeys1 s)) false mvbMatched1 !! i).
Proof.
  unfold Initialize_step1.
  pose proof (fill_matched1_spec vMatches12 0
                (resize (length (mvKeys1 s)) false mvbMatched1)) as H.
  rewrite resize_length in H.
  destruct (fill_matched1 0 vMatches12 _) as [mb'|]; simpl.
  - destruct H as (H1 & H2 & H3). split.
    + split; [intros _|intros _; eexists; reflexivity].
      destruct vMatches12; [simpl; lia|]. specialize (H1 ltac:(discriminate)). lia.
    + intros ms mb [= <- <-]. split_and!; try reflexivity; try assumption.
      * intros i Hi. rewrite H3. destruct (decide _) as [_|Hn]; [|lia].
        rewrite Nat.sub_0_r.
        destruct (lookup_lt_is_Some_2 vMatches12 i Hi) as [z Hz]. rewrite Hz.
        simpl. split.
        -- intros [= Hp]. exists (Z.to_nat z). apply build_matches_elem.
           exists z. rewrite Nat.sub_0_r. split_and!; try assumption; lia.
        -- intros (j & Hj). apply build_matches_elem in Hj as (z' & _ & Hz' & Hp & _).
           rewrite Nat.sub_0_r in Hz'. f_equal. apply Z.leb_le. congruence.
      * intros i Hi. rewrite H3. destruct (decide _) as [Hc|_]; [lia|reflexivity].
  - split.
    + split; [intros [x Hx]; discriminate|lia].
    + intros ms mb Hx. discriminate.
Qed.

Lemma draw_perm (randi : Z) (v : list nat) idx v' :
  draw randi v = Some (idx, v') -> Permutation v (idx :: v').
Proof.
  unfold draw. destruct (randi <? 0); [discriminate|].
  set (n := Z.to_nat randi). intros H.
  destruct (v !! n) as [x|] eqn:Hx; simpl in H; [|discriminate].
  destruct (last v) as [b|] eqn:Hb; simpl in H; [|discriminate].
  injection H as <- <-.
  apply list_elem_of_split_length in Hx as (l1 & l2 & -> & Hn).
  destruct (decide (l2 = [])) as [->|Hne].
  - replace (<[n:=b]> (l1 ++ [x])) with (l1 ++ [b]).
    2:{ rewrite Hn. rewrite insert_app_r_alt by lia. rewrite Nat.sub_diag. reflexivity. }
    rewrite length_app. simpl. replace (length l1 + 1 - 1)%nat with (length l1) by lia.
    rewrite take_app_length. symmetry. apply Permutation_cons_append.
  - destruct (exists_last Hne) as (l2' & b' & ->).
    assert (b' = b).
    { assert (Heq : l1 ++ x :: l2' ++ [b'] = (l1 ++ x :: l2') ++ [b'])
        by (rewrite <- app_assoc; reflexivity).
      rewrite Heq, last_snoc in Hb. congruence. }
    subst b'.
    replace (<[n:=b]> (l1 ++ x :: l2' ++ [b])) with (l1 ++ b :: l2' ++ [b]).
    2:{ rewrite Hn. rewrite insert_app_r_alt by lia. rewrite Nat.sub_diag. reflexivity. }
    replace (length (l1 ++ x :: l2' ++ [b]) - 1)%nat with (length (l1 ++ b :: l2'))
      by (rewrite !length_app; simpl; rewrite length_app; simpl; lia).
    replace (l1 ++ b :: l2' ++ [b]) with ((l1 ++ b :: l2') ++ [b])
      by (rewrite <- app_assoc; reflexivity).
    rewrite take_app_length.
    rewrite <- Permutation_middle. apply perm_skip.
    apply Permutation_app_head. symmetry. apply Permutation_cons_append.
Qed.

Lemma draw_Some (randi : Z) (v : list nat) :
  0 <= randi <= Z.of_nat (length v) - 1 -> is_Some (draw randi v).
Proof.
  intros H. unfold draw. destruct (randi <? 0) eqn:E; [lia|].
  destruct (lookup_lt_is_Some_2 v (Z.to_nat randi)) as [x Hx]; [lia|].
  rewrite Hx. simpl.
  destruct (last v) as [b|] eqn:Hb; simpl; [eexists; reflexivity|].
  apply last_None in Hb. subst v. discriminate.
Qed.

Lemma select_set_Some (rnd : RandomSource) : in_range rnd ->
  forall (j k : nat) (v : list nat), (j <= length v)%nat ->
  exists set rest, select_set rnd k j v = Some set /\ length set = j /\
                   Permutation v (set ++ rest).
Proof.
  intros Hr. induction j as [|j IH]; intros k v Hj; simpl.
  - exists [], v. split_and!; reflexivity.
  - destruct (draw_Some (rnd k 0 (Z.of_nat (length v) - 1)) v) as [[idx v'] Hd].
    { apply Hr. lia. }
    rewrite Hd. simpl. apply draw_perm in Hd.
    destruct (IH (S k) v') as (set & rest & Hs & Hl & Hp).
    { apply Permutation_length in Hd. simpl in Hd. lia. }
    rewrite Hs. simpl. exists (idx :: set), rest. split_and!; try reflexivity.
    + simpl. lia.
    + rewrite Hd. simpl. apply perm_skip. exact Hp.
Qed.

Lemma select_set_short (rnd : RandomSource) :
  forall (j k : nat) (v : list nat), (length v < j)%nat ->
  select_set rnd k j v = None.
Proof.
  induction j as [|j IH]; intros k v Hj; simpl; [lia|].
  destruct (draw _ v) as [[idx v']|] eqn:Hd; simpl; [|reflexivity].
  apply draw_perm in Hd. apply Permutation_length in Hd. simpl in Hd.
  rewrite IH by lia. reflexivity.
Qed.

Lemma select_sets_Some (rnd : RandomSource) (N : nat) :
  in_range rnd -> (8 <= N)%nat -> forall n it : nat,
  exists mvSets,
    select_sets rnd N it n = Some mvSets /\
    length mvSets = n /\
    Forall (fun set => length set = 8%nat /\ NoDup set /\
                       Forall (fun idx => (idx < N)%nat) set) mvSets.
Proof.
  intros Hr HN. induction n as [|n IH]; intros it; cbn [select_sets].
  - exists []. split_and!; try reflexivity. constructor.
  - destruct (select_set_Some rnd Hr 8 (8 * it)%nat (seq 0 N))
      as (set & rest & Hs & Hl & Hp).
    { rewrite length_seq. exact HN. }
    rewrite Hs. simpl. destruct (IH (S it)) as (sets & Hss & Hls & Hf).
    rewrite Hss. simpl. exists (set :: sets). split_and!; try reflexivity.
    + simpl. lia.
    + constructor; [|exact Hf]. split_and!; try assumption.
      * assert (Hnd : NoDup (set ++ rest)).
        { rewrite <- Hp. apply NoDup_seq. }
        apply NoDup_app in Hnd. tauto.
      * apply Forall_forall. intros idx Hin.
        assert (Hin' : idx ∈ seq 0 N).
        { rewrite Hp. apply elem_of_app. left. exact Hin. }
        apply elem_of_seq in Hin'. lia.
Qed.

(** X3. With at least eight matches and a random source that respects
    its bounds, step 2 of [Initialize] draws [mMaxIterations] sets, each of
    eight pairwise distinct indices of matches (the drawn index is replaced
    by the last available one, which is then removed). *)
Theorem Initialize_sample_sets_distinct (rnd : RandomSource)
  (N mMaxIterations : nat) :
  in_range rnd -> (8 <= N)%nat ->
  exists mvSets,
    Initialize_step2 rnd N mMaxIterations = Some mvSets /\
    length mvSets = mMaxIterations /\
    Forall (fun set => length set = 8%nat /\ NoDup set /\
                       Forall (fun idx => (idx < N)%nat) set) mvSets.
Proof. intros Hr HN. apply select_sets_Some; assumption. Qed.

(** X4. With fewer than eight matches and at least one iteration, step 2
    of [Initialize] indexes [vAvailableIndices] outside its bounds, whatever
    the random source returns: the first set exhausts the available
    indices. *)
Theorem Initialize_sample_sets_need_eight (rnd : RandomSource)
  (N mMaxIterations : nat) :
  (N < 8)%nat -> (0 < mMaxIterations)%nat ->
  Initialize_step2 rnd N mMaxIterations = None.
Proof.
  intros HN Hn. unfold Initialize_step2.
  destruct mMaxIterations as [|n]; [lia|]. cbn [select_sets].
  rewrite select_set_short; [reflexivity|]. rewrite length_seq. exact HN.
Qed.

Lemma Initialize_sample_sets_distinct_witness :
  exists mvSets,
    Initialize_step2 first_index 9 2 = Some mvSets /\
    length mvSets = 2%nat /\
    Forall (fun set => length set = 8%nat /\ NoDup set /\
                       Forall (fun idx => (idx < 9)%nat) set) mvSets.
Proof.
  apply (Initialize_sample_sets_distinct first_index 9 2).
  - intros k lo hi H. unfold first_index. lia.
  - lia.
Defined.

Lemma Initialize_sample_sets_need_eight_witness :
  Initialize_step2 first_index 7 1 = None.
Proof. apply (Initialize_sample_sets_need_eight first_index 7 1); lia. Defined.

(** ** CheckRT *)

Lemma count_true_bounds (l : list bool) : 0 <= count_true l <= Z.of_nat (length l).
Proof. induction l as [|[] l IH]; simpl; lia. Qed.

Lemma lookup_total_seq (l : list bool) :
  (fun k => l !!! k) <$> seq 0 (length l) = l.
Proof.
  apply list_eq. intros k. rewrite list_lookup_fmap.
  destruct (decide (k < length l)%nat) as [Hk|Hk].
  - rewrite lookup_seq_lt by lia. simpl.
    destruct (lookup_lt_is_Some_2 l k Hk) as [x Hx].
    rewrite Hx. f_equal. apply list_lookup_total_correct. exact Hx.
  - rewrite lookup_seq_ge by lia. simpl. symmetry. apply lookup_ge_None. lia.
Qed.

Section WithKernel.
Context {cv : CvKernel}.

Lemma CheckRT_body_nGood (R t K : Mat) th2 keys1 keys2 (inl : list bool) (i : nat)
  (m : Match) (st : CheckRTState) :
  st_nGood st <= st_nGood (CheckRT_body R t K th2 keys1 keys2 inl i m st)
    <= st_nGood st + (if (inl !!! i : bool) then 1 else 0).
Proof.
  unfold CheckRT_body. destruct (inl !!! i); simpl; [|lia].
  destruct (CheckRT_verdict _ _ _ _ _ _); simpl; lia.
Qed.

Lemma CheckRT_loop_nGood (R t K : Mat) th2 keys1 keys2 (inl : list bool)
  (ms : list Match) :
  forall i st,
  st_nGood st <= st_nGood (CheckRT_loop R t K th2 keys1 keys2 inl i ms st)
    <= st_nGood st + count_true ((fun k => inl !!! k) <$> seq i (length ms)).
Proof.
  induction ms as [|m ms IH]; intros i st; [simpl; lia|].
  cbn [CheckRT_loop length]. rewrite <- cons_seq, fmap_cons. cbn [count_true].
  specialize (IH (S i) (CheckRT_body R t K th2 keys1 keys2 inl i m st)).
  pose proof (CheckRT_body_nGood R t K th2 keys1 keys2 inl i m st).
  destruct (inl !!! i); lia.
Qed.

(** X7. [CheckRT] returns [vP3D] and [vbGood] with one entry per key point
    of the first image, and a count [nGood] between 0 and the number of
    matches; an index that is the first index of no match is left false in
    [vbGood] and keeps in [vP3D] what the resized vector had. *)
Theorem CheckRT_sizes_and_count (R t : Mat) (keys1 keys2 : list KeyPoint)
  (ms : list Match) (inl : list bool) (K : Mat) (v : list Point3f)
  (th2 : float) :
  let c := CheckRT R t keys1 keys2 ms inl K v th2 in
  length (r_vP3D c) = length keys1 /\
  length (r_vbGood c) = length keys1 /\
  0 <= nGood c <= Z.of_nat (length ms) /\
  (forall k : nat, k ∉ ms.*1 ->
     r_vbGood c !! k = replicate (length keys1) false !! k /\
     r_vP3D c !! k = resize (length keys1) zero3 v !! k).
Proof.
  intros c. unfold c, CheckRT, CheckRT_final. simpl.
  destruct (CheckRT_loop_lengths R t K th2 keys1 keys2 inl ms 0%nat
              (CheckRT_init keys1 v)) as [Hg Hp].
  pose proof (CheckRT_loop_nGood R t K th2 keys1 keys2 inl ms 0%nat
                (CheckRT_init keys1 v)) as Hn.
  simpl in Hg, Hp, Hn. rewrite length_replicate in Hg.
  rewrite resize_length in Hp.
  pose proof (count_true_bounds ((fun k => inl !!! k) <$> seq 0 (length ms))) as Hb.
  rewrite length_fmap, length_seq in Hb.
  split_and!; try assumption; try lia.
  intros k Hk.
  apply (CheckRT_loop_other R t K th2 keys1 keys2 inl ms k 0%nat
           (CheckRT_init keys1 v) Hk).
Qed.

(** X8. When there is one inlier flag per match, the count [nGood]
    returned by [CheckRT] is at most the number of flags set: matches that
    are not inliers are never counted. *)
Theorem CheckRT_counts_at_most_the_inliers (R t : Mat)
  (keys1 keys2 : list KeyPoint) (ms : list Match) (inl : list bool) (K : Mat)
  (v : list Point3f) (th2 : float) :
  length inl = length ms ->
  nGood (CheckRT R t keys1 keys2 ms inl K v th2) <= count_true inl.
Proof.
  intros Hl. unfold CheckRT, CheckRT_final. simpl.
  pose proof (CheckRT_loop_nGood R t K th2 keys1 keys2 inl ms 0%nat
                (CheckRT_init keys1 v)) as Hn.
  rewrite <- Hl, lookup_total_seq in Hn. simpl in Hn. lia.
Qed.

Lemma CheckRT_body_flag (R t K : Mat) th2 keys1 keys2 (inl : list bool) (i : nat)
  (m : Match) (st : CheckRTState) (k : nat) :
  st_vbGood (CheckRT_body R t K th2 keys1 keys2 inl i m st) !! k = Some true ->
  st_vbGood st !! k = Some true \/
  (m.1 = k /\ inl !!! i = true /\
   exists p c,
     CheckRT_verdict R t K th2 (keys1 !!! m.1) (keys2 !!! m.2) = Survives p c /\
     flt (to_double c) d0_99998 = true).
Proof.
  unfold CheckRT_body. destruct (inl !!! i); simpl; [|tauto].
  destruct (CheckRT_verdict _ _ _ _ _ _) as [| |p c] eqn:Hv; simpl; [|tauto|].
  - destruct (decide (m.1 = k)) as [<-|Hne].
    + intros H. apply list_lookup_insert_Some in H.
      destruct H as [(_ & H & _)|(H & _)]; congruence.
    + rewrite list_lookup_insert_ne by assumption. tauto.
  - destruct (flt (to_double c) d0_99998) eqn:Hc; [|tauto].
    destruct (decide (m.1 = k)) as [<-|Hne].
    + intros _. right. split_and!; try reflexivity. exists p, c. split; reflexivity || assumption.
    + rewrite list_lookup_insert_ne by assumption. tauto.
Qed.

Lemma CheckRT_loop_flag (R t K : Mat) th2 keys1 keys2 (inl : list bool)
  (ms : list Match) (k : nat) :
  forall i st,
  st_vbGood (CheckRT_loop R t K th2 keys1 keys2 inl i ms st) !! k = Some true ->
  st_vbGood st !! k = Some true \/
  exists (j : nat) (m : Match),
    ms !! j = Some m /\ m.1 = k /\ inl !!! (i + j)%nat = true /\
    exists p c,
      CheckRT_verdict R t K th2 (keys1 !!! m.1) (keys2 !!! m.2) = Survives p c /\
      flt (to_double c) d0_99998 = true.
Proof.
  induction ms as [|m ms IH]; intros i st H; simpl in H; [tauto|].
  apply IH in H. destruct H as [H|(j & m' & Hj & Hm & Hi & Hv)].
  - apply CheckRT_body_flag in H. destruct H as [H|(Hm & Hi & Hv)]; [tauto|].
    right. exists 0%nat, m. rewrite Nat.add_0_r. split_and!; try assumption. reflexivity.
  - right. exists (S j), m'. replace (i + S j)%nat with (S i + j)%nat by lia.
    split_and!; assumption.
Qed.

(** X9. An entry [k] of [vbGood] is true after [CheckRT] only if [k] is
    the first index of a match flagged as inlier whose triangulation passes
    all the tests with a cosine of parallax below 0.99998. *)
Theorem CheckRT_flags_only_inlier_matches (R t : Mat)
  (keys1 keys2 : list KeyPoint) (ms : list Match) (inl : list bool) (K : Mat)
  (v : list Point3f) (th2 : float) (k : nat) :
  r_vbGood (CheckRT R t keys1 keys2 ms inl K v th2) !! k = Some true ->
  exists (i : nat) (m : Match),
    ms !! i = Some m /\ m.1 = k /\ inl !!! i = true /\
    exists p c,
      CheckRT_verdict R t K th2 (keys1 !!! k) (keys2 !!! m.2) = Survives p c /\
      flt (to_double c) d0_99998 = true.
Proof.
  unfold CheckRT, CheckRT_final. simpl. intros H.
  apply CheckRT_loop_flag in H. destruct H as [H|(j & m & Hj & Hm & Hi & Hv)].
  - simpl in H. apply lookup_replicate in H. destruct H; discriminate.
  - exists j, m. rewrite <- Hm. split_and!; try assumption. reflexivity.
Qed.

End WithKernel.

Section OnScenario.
#[local] Existing Instance scen_cv.

Lemma CheckRT_counts_at_most_the_inliers_witness :
  nGood (CheckRT [[fl 1]] [[fl 1]] (keys 2 (flit 5 10)) (keys 2 (flit 5 10))
           (matches 2) [true; false] K1 [] (fl 4)) <= count_true [true; false].
Proof.
  apply (CheckRT_counts_at_most_the_inliers [[fl 1]] [[fl 1]]
           (keys 2 (flit 5 10)) (keys 2 (flit 5 10)) (matches 2) [true; false]
           K1 [] (fl 4)).
  reflexivity.
Defined.

Lemma CheckRT_flags_only_inlier_matches_witness :
  exists (i : nat) (m : Match),
    matches 2 !! i = Some m /\ m.1 = 0%nat /\ [true; false] !!! i = true /\
    exists p c,
      CheckRT_verdict [[fl 1]] [[fl 1]] K1 (fl 4)
        (keys 2 (flit 5 10) !!! 0%nat) (keys 2 (flit 5 10) !!! m.2)
        = Survives p c /\
      flt (to_double c) d0_99998 = true.
Proof.
  apply (CheckRT_flags_only_inlier_matches [[fl 1]] [[fl 1]]
           (keys 2 (flit 5 10)) (keys 2 (flit 5 10)) (matches 2) [true; false]
           K1 [] (fl 4) 0%nat).
  vm_compute. reflexivity.
Defined.

End OnScenario.

Section WithKernel.
Context {cv : CvKernel}.

Lemma CheckRT_body_count (R t K : Mat) th2 keys1 keys2 (inl : list bool)
  (i : nat) (m : Match) (st : CheckRTState) :
  st_nGood (CheckRT_body R t K th2 keys1 keys2 inl i m st) =
  st_nGood st +
  (if (inl !!! i : bool) && survives R t K th2 keys1 keys2 m then 1 else 0).
Proof.
  unfold CheckRT_body, survives. destruct (inl !!! i); simpl; [|lia].
  destruct (CheckRT_verdict _ _ _ _ _ _); simpl; lia.
Qed.

Lemma CheckRT_loop_count (R t K : Mat) th2 keys1 keys2 (inl : list bool)
  (ms : list Match) : forall i st,
  st_nGood (CheckRT_loop R t K th2 keys1 keys2 inl i ms st) =
  st_nGood st +
  count_true (imap (fun j m => (inl !!! (i + j)%nat : bool)
                               && survives R t K th2 keys1 keys2 m) ms).
Proof.
  induction ms as [|m ms IH]; intros i st; [simpl; lia|].
  cbn [CheckRT_loop]. rewrite IH, CheckRT_body_count. rewrite imap_cons.
  cbn [count_true]. rewrite Nat.add_0_r.
  assert (Hext :
    imap ((fun j m0 => (inl !!! (i + j)%nat : bool)
                       && survives R t K th2 keys1 keys2 m0) ∘ S) ms =
    imap (fun j m0 => (inl !!! (S i + j)%nat : bool)
                      && survives R t K th2 keys1 keys2 m0) ms).
  { apply imap_ext. intros j x _. simpl.
    replace (i + S j)%nat with (S (i + j)) by lia. reflexivity. }
  rewrite Hext. destruct (_ && _); lia.
Qed.

(** X26. The count [nGood] returned by [CheckRT] is exactly the number of
    matches that are flagged as inliers and pass all the tests of the loop. *)
Theorem CheckRT_counts_the_surviving_inliers (R t : Mat)
  (keys1 keys2 : list KeyPoint) (ms : list Match) (inl : list bool) (K : Mat)
  (v : list Point3f) (th2 : float) :
  nGood (CheckRT R t keys1 keys2 ms inl K v th2) =
  count_true (imap (fun i m => (inl !!! i : bool)
                               && survives R t K th2 keys1 keys2 m) ms).
Proof.
  unfold CheckRT, CheckRT_final. simpl. rewrite CheckRT_loop_count. simpl.
  reflexivity.
Qed.

Lemma CheckRT_body_at (R t K : Mat) th2 keys1 keys2 (inl : list bool)
  (i : nat) (m : Match) (st : CheckRTState) :
  (m.1 < length (st_vbGood st))%nat -> (m.1 < length (st_vP3D st))%nat ->
  st_vbGood st !! m.1 = Some false ->
  st_vbGood (CheckRT_body R t K th2 keys1 keys2 inl i m st) !! m.1 =
    Some (inl !!! i && triangulated R t K th2 keys1 keys2 m) /\
  (forall p c, inl !!! i = true ->
     CheckRT_verdict R t K th2 (keys1 !!! m.1) (keys2 !!! m.2) = Survives p c ->
     st_vP3D (CheckRT_body R t K th2 keys1 keys2 inl i m st) !! m.1 = Some p).
Proof.
  intros Hg Hp Hf. unfold CheckRT_body, triangulated.
  destruct (inl !!! i); simpl; [|split; [exact Hf|discriminate]].
  destruct (CheckRT_verdict _ _ _ _ _ _) as [| |p c]; simpl.
  - split; [|discriminate]. apply list_lookup_insert_eq. exact Hg.
  - split; [exact Hf|discriminate].
  - split.
    + destruct (flt (to_double c) d0_99998); [|exact Hf].
      apply list_lookup_insert_eq. exact Hg.
    + intros p' c' _ [= <- <-]. apply list_lookup_insert_eq. exact Hp.
Qed.

(** X27. When the first indices of the matches are pairwise distinct, as
    those built by [Initialize] are, [CheckRT] leaves in [vbGood], at the
    first index of each match, whether the match is an inlier that passes all
    the tests with a cosine of parallax below 0.99998, and in [vP3D] the
    triangulated point of each inlier match that passes the tests. *)
Theorem CheckRT_on_distinct_first_indices (R t : Mat)
  (keys1 keys2 : list KeyPoint) (ms : list Match) (inl : list bool) (K : Mat)
  (v : list Point3f) (th2 : float) (i : nat) (m : Match) :
  NoDup ms.*1 -> ms !! i = Some m -> (m.1 < length keys1)%nat ->
  r_vbGood (CheckRT R t keys1 keys2 ms inl K v th2) !! m.1 =
    Some (inl !!! i && triangulated R t K th2 keys1 keys2 m) /\
  (forall p c, inl !!! i = true ->
     CheckRT_verdict R t K th2 (keys1 !!! m.1) (keys2 !!! m.2) = Survives p c ->
     r_vP3D (CheckRT R t keys1 keys2 ms inl K v th2) !! m.1 = Some p).
Proof.
  intros Hnd Hi Hlt.
  destruct (list_elem_of_split_length ms i m Hi) as (pre & post & -> & Hlen).
  rewrite fmap_app, fmap_cons in Hnd.
  apply NoDup_app in Hnd as (_ & Hpre & Hpost).
  apply NoDup_cons in Hpost as [Hpost _].
  assert (Hpre' : m.1 ∉ pre.*1).
  { intros Hel. apply (Hpre _ Hel). left. }
  unfold CheckRT, CheckRT_final. simpl.
  rewrite CheckRT_loop_app. simpl. rewrite <- Hlen.
  set (st := CheckRT_loop R t K th2 keys1 keys2 inl 0 pre
               (CheckRT_init keys1 v)).
  destruct (CheckRT_loop_other R t K th2 keys1 keys2 inl post m.1 (S i)
              (CheckRT_body R t K th2 keys1 keys2 inl i m st) Hpost)
    as [-> ->].
  destruct (CheckRT_loop_other R t K th2 keys1 keys2 inl pre m.1 0%nat
              (CheckRT_init keys1 v) Hpre') as [Hg _].
  destruct (CheckRT_loop_lengths R t K th2 keys1 keys2 inl pre 0%nat
              (CheckRT_init keys1 v)) as [Hlg Hlp].
  fold st in Hg, Hlg, Hlp. simpl in Hg, Hlg, Hlp.
  rewrite length_replicate in Hlg. rewrite resize_length in Hlp.
  apply CheckRT_body_at.
  - rewrite Hlg. exact Hlt.
  - rewrite Hlp. exact Hlt.
  - rewrite Hg. apply lookup_replicate_2. exact Hlt.
Qed.

End WithKernel.

Section OnScenario.
#[local] Existing Instance scen_cv.

Lemma CheckRT_on_distinct_first_indices_witness :
  r_vbGood (CheckRT [[fl 1]] [[fl 1]] (keys 2 (flit 5 10))
              (keys 2 (flit 5 10)) (matches 2) [true; false] K1 [] (fl 4))
    !! (0%nat, 0%nat).1 =
    Some ([true; false] !!! 0%nat
          && triangulated [[fl 1]] [[fl 1]] K1 (fl 4) (keys 2 (flit 5 10))
               (keys 2 (flit 5 10)) (0%nat, 0%nat)) /\
  (forall p c, [true; false] !!! 0%nat = true ->
     CheckRT_verdict [[fl 1]] [[fl 1]] K1 (fl 4)
       (keys 2 (flit 5 10) !!! (0%nat, 0%nat).1)
       (keys 2 (flit 5 10) !!! (0%nat, 0%nat).2) = Survives p c ->
     r_vP3D (CheckRT [[fl 1]] [[fl 1]] (keys 2 (flit 5 10))
               (keys 2 (flit 5 10)) (matches 2) [true; false] K1 [] (fl 4))
       !! (0%nat, 0%nat).1 = Some p).
Proof.
  apply (CheckRT_on_distinct_first_indices [[fl 1]] [[fl 1]]
           (keys 2 (flit 5 10)) (keys 2 (flit 5 10)) (matches 2) [true; false]
           K1 [] (fl 4) 0%nat (0%nat, 0%nat)).
  - apply (bool_decide_unpack (NoDup (matches 2).*1)). vm_compute. exact I.
  - reflexivity.
  - vm_compute. lia.
Defined.

End OnScenario.

(** ** The two reconstructions *)

Lemma best_loop_snoc (cs : list CheckRTResult) (c : CheckRTResult) :
  forall (i : nat) (b : BestState),
  best_loop i (cs ++ [c]) b = best_step (i + length cs) c (best_loop i cs b).
Proof.
  induction cs as [|c0 cs IH]; intros i b; simpl.
  - rewrite Nat.add_0_r. reflexivity.
  - rewrite IH. f_equal. lia.
Qed.

Lemma best_loop_inv (cs : list CheckRTResult) :
  best_inv cs (best_loop 0 cs best_init).
Proof.
  induction cs as [|c cs IH] using rev_ind.
  - unfold best_inv. simpl. split_and!; try lia; try constructor; try reflexivity.
  - rewrite best_loop_snoc. simpl.
    set (b := best_loop 0 cs best_init) in *.
    destruct IH as (Hle & Hall & Hzero & Hpos).
    unfold best_step.
    destruct (bestGood b <? nGood c) eqn:E1; [apply Z.ltb_lt in E1|apply Z.ltb_ge in E1].
    + (* new best *)
      unfold best_inv. simpl. split_and!; try lia.
      * apply Forall_app. split; [|constructor; [lia|constructor]].
        eapply Forall_impl; [exact Hall|]. simpl. intros; lia.
      * intros _. exists (length cs), c.
        rewrite lookup_app_r by lia. rewrite Nat.sub_diag.
        rewrite take_app_length.
        rewrite drop_app_ge by lia.
        replace (S (length cs) - length cs)%nat with 1%nat by lia.
        simpl. rewrite app_nil_r.
        split_and!; try reflexivity.
        -- eapply Forall_impl; [exact Hall|]. simpl. intros; lia.
        -- exact Hall.
        -- destruct (decide (bestGood b = 0)) as [Hz|Hnz]; [left; exact Hz|right].
           destruct Hpos as (i & c' & _ & Hi & Hg & _); [lia|].
           apply Exists_exists. exists c'. split; [|exact Hg].
           eapply list_elem_of_lookup_2. exact Hi.
    + destruct (secondBestGood b <? nGood c) eqn:E2;
        [apply Z.ltb_lt in E2|apply Z.ltb_ge in E2].
      * (* new second best *)
        unfold best_inv. simpl. split_and!; try lia.
        -- apply Forall_app. split; [exact Hall|constructor; [lia|constructor]].
        -- intros Hp. destruct (Hpos Hp) as (i & c' & Hi & Hl & Hg & Hpar & Hp3 & Htr & Hlt & Hoth & _).
           assert (Hilt : (i < length cs)%nat) by (apply lookup_lt_is_Some; eauto).
           exists i, c'. rewrite lookup_app_l by lia.
           rewrite take_app_le by lia. rewrite drop_app_le by lia.
           split_and!; try assumption.
           ++ rewrite app_assoc. apply Forall_app. split.
              ** eapply Forall_impl; [exact Hoth|]. simpl. intros; lia.
              ** constructor; [lia|constructor].
           ++ right. rewrite app_assoc. apply Exists_app. right.
              constructor. reflexivity.
      * unfold best_inv. split_and!; try lia.
        -- apply Forall_app. split; [exact Hall|constructor; [lia|constructor]].
        -- intros Hp. destruct (Hpos Hp) as (i & c' & Hi & Hl & Hg & Hpar & Hp3 & Htr & Hlt & Hoth & Hex).
           assert (Hilt : (i < length cs)%nat) by (apply lookup_lt_is_Some; eauto).
           exists i, c'. rewrite lookup_app_l by lia.
           rewrite take_app_le by lia. rewrite drop_app_le by lia.
           split_and!; try assumption.
           ++ rewrite app_assoc. apply Forall_app. split; [exact Hoth|].
              constructor; [lia|constructor].
           ++ destruct Hex as [Hex|Hex]; [left; exact Hex|right].
              rewrite app_assoc. apply Exists_app. left. exact Hex.
Qed.

Section WithKernel.
Context {cv : CvKernel}.

Lemma CheckRT_hyp_nonneg s inl K R t : 0 <= nGood (CheckRT_hyp s inl K R t).
Proof.
  destruct (CheckRT_final_inv R t (mvKeys1 s) (mvKeys2 s) (mvMatches12 s) inl K
              [] (th2_of s)) as [Hn _].
  unfold CheckRT_hyp, CheckRT. simpl. lia.
Qed.

Lemma CheckRT_hyp_lengths s inl K R t :
  length (r_vP3D (CheckRT_hyp s inl K R t)) = length (mvKeys1 s) /\
  length (r_vbGood (CheckRT_hyp s inl K R t)) = length (mvKeys1 s).
Proof.
  unfold CheckRT_hyp, CheckRT, CheckRT_final. simpl.
  destruct (CheckRT_loop_lengths R t K (th2_of s) (mvKeys1 s) (mvKeys2 s) inl
              (mvMatches12 s) 0%nat (CheckRT_init (mvKeys1 s) [])) as [Hg Hp].
  simpl in Hg, Hp. rewrite length_replicate in Hg. rewrite resize_length in Hp.
  split; assumption.
Qed.

Lemma ReconstructF_decide_Some N R1 R2 t1 t2 c1 c2 c3 c4 minParallax
  minTriangulated R t c :
  ReconstructF_decide N R1 R2 t1 t2 c1 c2 c3 c4 minParallax minTriangulated
    = Some (R, t, c) ->
  (R, t, c) ∈ [(R1, t1, c1); (R2, t1, c2); (R1, t2, c3); (R2, t2, c4)] /\
  nGood c = Z.max (nGood c1) (Z.max (nGood c2) (Z.max (nGood c3) (nGood c4))) /\
  nMinGood_of N minTriangulated <= nGood c /\
  fgt (parallax c) minParallax = true.
Proof.
  unfold ReconstructF_decide. set (mg := Z.max _ _).
  destruct (mg <? nMinGood_of N minTriangulated) eqn:E; simpl; [discriminate|].
  apply Z.ltb_ge in E.
  destruct (1 <? _); [discriminate|].
  destruct (mg =? nGood c1) eqn:E1.
  { apply Z.eqb_eq in E1. destruct (fgt (parallax c1) minParallax) eqn:P;
      [|discriminate]. intros [= <- <- <-]. split_and!; try assumption; try lia.
    set_solver. }
  destruct (mg =? nGood c2) eqn:E2.
  { apply Z.eqb_eq in E2. destruct (fgt (parallax c2) minParallax) eqn:P;
      [|discriminate]. intros [= <- <- <-]. split_and!; try assumption; try lia.
    set_solver. }
  destruct (mg =? nGood c3) eqn:E3.
  { apply Z.eqb_eq in E3. destruct (fgt (parallax c3) minParallax) eqn:P;
      [|discriminate]. intros [= <- <- <-]. split_and!; try assumption; try lia.
    set_solver. }
  destruct (mg =? nGood c4) eqn:E4; [|discriminate].
  apply Z.eqb_eq in E4. destruct (fgt (parallax c4) minParallax) eqn:P;
    [|discriminate]. intros [= <- <- <-]. split_and!; try assumption; try lia.
  set_solver.
Qed.

(** X10. When [ReconstructF] returns true, [R21] and [t21] are one of the
    four hypotheses (R1,t), (R2,t), (R1,-t), (R2,-t), [vP3D] and
    [vbTriangulated] are what [CheckRT] gives for that hypothesis (one entry
    per key point of the first image), its count is [maxGood] and at least
    [max(int(0.9*N), minTriangulated)], and its parallax is above
    [minParallax]. *)
Theorem ReconstructF_success (s : InitializerState) (inl : list bool)
  (F21 K : Mat) (o o' : OutParams) (minParallax : float) (minTriangulated : Z) :
  ReconstructF s inl F21 K o minParallax minTriangulated = (true, o') ->
  exists R t,
    (R, t) ∈ [((DecomposeE F21 K).1.1, (DecomposeE F21 K).2);
              ((DecomposeE F21 K).1.2, (DecomposeE F21 K).2);
              ((DecomposeE F21 K).1.1, negMat (DecomposeE F21 K).2);
              ((DecomposeE F21 K).1.2, negMat (DecomposeE F21 K).2)] /\
    o' = mkOutParams R t (r_vP3D (CheckRT_hyp s inl K R t))
           (r_vbGood (CheckRT_hyp s inl K R t)) /\
    nGood (CheckRT_hyp s inl K R t) = maxGoodF s inl F21 K /\
    nMinGood_of (count_true inl) minTriangulated <= maxGoodF s inl F21 K /\
    fgt (parallax (CheckRT_hyp s inl K R t)) minParallax = true /\
    length (vP3D o') = length (mvKeys1 s) /\
    length (vbTriangulated o') = length (mvKeys1 s).
Proof.
  unfold ReconstructF, maxGoodF, countsF.
  destruct (DecomposeE F21 K) as [[R1 R2] t0]. simpl.
  destruct (ReconstructF_decide _ _ _ _ _ _ _ _ _ _ _) as [[[R t] c]|] eqn:Hd;
    [|discriminate].
  intros [= <-]. apply ReconstructF_decide_Some in Hd as (Hin & Hmax & Hmin & Hpar).
  exists R, t.
  assert (Hc : c = CheckRT_hyp s inl K R t /\
               (R, t) ∈ [(R1, t0); (R2, t0); (R1, negMat t0); (R2, negMat t0)]).
  { rewrite !elem_of_cons in Hin. rewrite !elem_of_cons.
    destruct Hin as [H|[H|[H|[H|H]]]];
      try (injection H as -> -> ->; split; [reflexivity|tauto]).
    inversion H. }
  destruct Hc as [-> Hin'].
  destruct (CheckRT_hyp_lengths s inl K R t) as [Hl1 Hl2].
  split_and!; try assumption; try reflexivity.
  unfold CheckRT_hyp, CheckRT in Hmax, Hmin. simpl in Hmax, Hmin. lia.
Qed.

(** X13. When [Initialize] returns false, [vP3D] and [vbTriangulated] are
    as they were before the call; [R21] and [t21] are as they were when the
    homography was tried, and empty when the fundamental matrix was tried. *)
Theorem Initialize_failure_keeps_points (s : InitializerState) (r : RansacOut)
  (o : OutParams) :
  (Initialize s r o).2.1 = false ->
  vP3D (Initialize s r o).2.2 = vP3D o /\
  vbTriangulated (Initialize s r o).2.2 = vbTriangulated o /\
  match (Initialize s r o).1 with
  | ModelH => R21 (Initialize s r o).2.2 = R21 o /\
              t21 (Initialize s r o).2.2 = t21 o
  | ModelF => R21 (Initialize s r o).2.2 = emptyMat /\
              t21 (Initialize s r o).2.2 = emptyMat
  end.
Proof.
  unfold Initialize. destruct (fgt (to_double (RH_of r)) d0_40); simpl.
  - unfold ReconstructH. destruct (degenerateH _); simpl; [tauto|].
    destruct (acceptH _ _ _ _); simpl; [discriminate|tauto].
  - unfold ReconstructF. destruct (DecomposeE _ _) as [[R1 R2] t0].
    destruct (ReconstructF_decide _ _ _ _ _ _ _ _ _ _ _) as [[[R t] c]|];
      simpl; [discriminate|tauto].
Qed.

(** X11. The loop of [ReconstructH] over the hypotheses computes the
    highest count [bestGood] and the highest count among the other
    hypotheses [secondBestGood] (both 0 when no hypothesis has a positive
    count, [bestSolutionIdx] being then -1); [bestSolutionIdx] is the first
    hypothesis that reaches [bestGood], and the parallax, points and flags
    kept are those of that hypothesis. *)
Theorem ReconstructH_best_and_second_best (s : InitializerState)
  (inl : list bool) (H21 K : Mat) :
  let cs := map (fun h : Mat * Mat => CheckRT_hyp s inl K h.1 h.2)
              (cv_hypothesesH H21 K) in
  let b := bestH s inl H21 K in
  0 <= secondBestGood b <= bestGood b /\
  Forall (fun c => nGood c <= bestGood b) cs /\
  (bestGood b = 0 -> bestSolutionIdx b = -1 /\ secondBestGood b = 0) /\
  (0 < bestGood b ->
   exists (i : nat) (c : CheckRTResult),
     bestSolutionIdx b = Z.of_nat i /\ cs !! i = Some c /\
     nGood c = bestGood b /\ bestParallax b = parallax c /\
     bestP3D b = r_vP3D c /\ bestTriangulated b = r_vbGood c /\
     Forall (fun c' => nGood c' < bestGood b) (take i cs) /\
     Forall (fun c' => nGood c' <= secondBestGood b)
       (take i cs ++ drop (S i) cs) /\
     (secondBestGood b = 0 \/
      Exists (fun c' => nGood c' = secondBestGood b)
        (take i cs ++ drop (S i) cs))).
Proof. intros cs b. apply (best_loop_inv cs). Qed.

(** X12. When [ReconstructH] returns true (with [minTriangulated >= 0]),
    [R21] and [t21] are the hypothesis at a valid index of the list of
    hypotheses, the first one to reach the highest count; [vP3D] and
    [vbTriangulated] are what [CheckRT] gives for it (one entry per key
    point of the first image), its count is above [minTriangulated] and its
    parallax at least [minParallax]. *)
Theorem ReconstructH_success (s : InitializerState) (inl : list bool)
  (H21 K : Mat) (o o' : OutParams) (minParallax : float) (minTriangulated : Z) :
  0 <= minTriangulated ->
  ReconstructH s inl H21 K o minParallax minTriangulated = (true, o') ->
  exists (i : nat) (R t : Mat),
    cv_hypothesesH H21 K !! i = Some (R, t) /\
    o' = mkOutParams R t (r_vP3D (CheckRT_hyp s inl K R t))
           (r_vbGood (CheckRT_hyp s inl K R t)) /\
    minTriangulated < nGood (CheckRT_hyp s inl K R t) /\
    Forall (fun h : Mat * Mat =>
              nGood (CheckRT_hyp s inl K h.1 h.2)
              <= nGood (CheckRT_hyp s inl K R t)) (cv_hypothesesH H21 K) /\
    Forall (fun h : Mat * Mat =>
              nGood (CheckRT_hyp s inl K h.1 h.2)
              < nGood (CheckRT_hyp s inl K R t))
      (take i (cv_hypothesesH H21 K)) /\
    fge (parallax (CheckRT_hyp s inl K R t)) minParallax = true /\
    length (vP3D o') = length (mvKeys1 s) /\
    length (vbTriangulated o') = length (mvKeys1 s).
Proof.
  intros Hmt. unfold ReconstructH.
  destruct (degenerateH _); [discriminate|].
  destruct (acceptH _ _ _ _) eqn:Hacc; [|discriminate].
  intros [= <-].
  unfold acceptH in Hacc. rewrite !andb_true_iff in Hacc.
  destruct Hacc as [[[_ Hpar] Hgt] _]. apply Z.ltb_lt in Hgt.
  pose proof (best_loop_inv
                (map (fun h : Mat * Mat => CheckRT_hyp s inl K h.1 h.2)
                   (cv_hypothesesH H21 K))) as Hinv.
  fold (bestH s inl H21 K) in Hinv.
  set (b := bestH s inl H21 K) in *.
  destruct Hinv as (_ & Hall & _ & Hpos).
  destruct Hpos as (i & c & Hi & Hl & Hg & Hp & Hp3 & Htr & Hlt & _); [lia|].
  rewrite list_lookup_fmap in Hl.
  destruct (cv_hypothesesH H21 K !! i) as [[R t]|] eqn:Hh; [|discriminate].
  simpl in Hl. injection Hl as <-.
  exists i, R, t.
  rewrite Hi, Nat2Z.id. rewrite (nth_lookup_Some _ _ _ _ Hh). simpl.
  rewrite Hp3, Htr.
  destruct (CheckRT_hyp_lengths s inl K R t) as [Hl1 Hl2].
  assert (Hall' : Forall (fun h : Mat * Mat =>
              nGood (CheckRT_hyp s inl K h.1 h.2)
              <= nGood (CheckRT_hyp s inl K R t)) (cv_hypothesesH H21 K)).
  { rewrite Hg.
    exact (proj1 (Forall_fmap _ (fun c => nGood c <= bestGood b) _) Hall). }
  assert (Hlt' : Forall (fun h : Mat * Mat =>
              nGood (CheckRT_hyp s inl K h.1 h.2)
              < nGood (CheckRT_hyp s inl K R t))
      (take i (cv_hypothesesH H21 K))).
  { rewrite Hg.
    pose proof (fmap_take (fun h : Mat * Mat => CheckRT_hyp s inl K h.1 h.2) i
                  (cv_hypothesesH H21 K)) as Ht.
    change (take i (map (fun h : Mat * Mat => CheckRT_hyp s inl K h.1 h.2)
                      (cv_hypothesesH H21 K)))
      with (take i ((fun h : Mat * Mat => CheckRT_hyp s inl K h.1 h.2)
                      <$> cv_hypothesesH H21 K)) in Hlt.
    rewrite <- Ht in Hlt.
    exact (proj1 (Forall_fmap _ (fun c => nGood c < bestGood b) _) Hlt). }
  assert (Hpar' : fge (parallax (CheckRT_hyp s inl K R t)) minParallax = true)
    by (rewrite <- Hp; exact Hpar).
  assert (Hgt' : minTriangulated < nGood (CheckRT_hyp s inl K R t))
    by (rewrite Hg; exact Hgt).
  split_and!; first [reflexivity | assumption].
Qed.

End WithKernel.

Section OnScenario.
#[local] Existing Instance scen_cv.

Lemma ReconstructF_success_witness :
  exists R t,
    (R, t) ∈ [((DecomposeE (F_of 10 0) K1).1.1, (DecomposeE (F_of 10 0) K1).2);
              ((DecomposeE (F_of 10 0) K1).1.2, (DecomposeE (F_of 10 0) K1).2);
              ((DecomposeE (F_of 10 0) K1).1.1, negMat (DecomposeE (F_of 10 0) K1).2);
              ((DecomposeE (F_of 10 0) K1).1.2, negMat (DecomposeE (F_of 10 0) K1).2)] /\
    (ReconstructF (init_state 10 (flit 5 10)) (all_inliers 10) (F_of 10 0)
       K1 out_before minParallax0 5).2 =
      mkOutParams R t
        (r_vP3D (CheckRT_hyp (init_state 10 (flit 5 10)) (all_inliers 10) K1 R t))
        (r_vbGood (CheckRT_hyp (init_state 10 (flit 5 10)) (all_inliers 10) K1 R t)) /\
    nGood (CheckRT_hyp (init_state 10 (flit 5 10)) (all_inliers 10) K1 R t)
      = maxGoodF (init_state 10 (flit 5 10)) (all_inliers 10) (F_of 10 0) K1 /\
    nMinGood_of (count_true (all_inliers 10)) 5
      <= maxGoodF (init_state 10 (flit 5 10)) (all_inliers 10) (F_of 10 0) K1 /\
    fgt (parallax (CheckRT_hyp (init_state 10 (flit 5 10)) (all_inliers 10) K1 R t))
      minParallax0 = true /\
    length (vP3D (ReconstructF (init_state 10 (flit 5 10)) (all_inliers 10)
                    (F_of 10 0) K1 out_before minParallax0 5).2) =
      length (mvKeys1 (init_state 10 (flit 5 10))) /\
    length (vbTriangulated (ReconstructF (init_state 10 (flit 5 10))
                    (all_inliers 10) (F_of 10 0) K1 out_before minParallax0 5).2) =
      length (mvKeys1 (init_state 10 (flit 5 10))).
Proof.
  apply (ReconstructF_success (init_state 10 (flit 5 10)) (all_inliers 10)
           (F_of 10 0) K1 out_before).
  vm_compute. reflexivity.
Defined.

Lemma ReconstructH_success_witness :
  exists (i : nat) (R t : Mat),
    cv_hypothesesH (H_of [3; 0; 0; 0; 0; 0; 0; 0]) K1 !! i = Some (R, t) /\
    (ReconstructH (init_state 3 (flit 5 10)) (all_inliers 3)
       (H_of [3; 0; 0; 0; 0; 0; 0; 0]) K1 out_before minParallax0 2).2 =
      mkOutParams R t
        (r_vP3D (CheckRT_hyp (init_state 3 (flit 5 10)) (all_inliers 3) K1 R t))
        (r_vbGood (CheckRT_hyp (init_state 3 (flit 5 10)) (all_inliers 3) K1 R t)) /\
    2 < nGood (CheckRT_hyp (init_state 3 (flit 5 10)) (all_inliers 3) K1 R t) /\
    Forall (fun h : Mat * Mat =>
              nGood (CheckRT_hyp (init_state 3 (flit 5 10)) (all_inliers 3) K1
                       h.1 h.2)
              <= nGood (CheckRT_hyp (init_state 3 (flit 5 10)) (all_inliers 3)
                          K1 R t))
      (cv_hypothesesH (H_of [3; 0; 0; 0; 0; 0; 0; 0]) K1) /\
    Forall (fun h : Mat * Mat =>
              nGood (CheckRT_hyp (init_state 3 (flit 5 10)) (all_inliers 3) K1
                       h.1 h.2)
              < nGood (CheckRT_hyp (init_state 3 (flit 5 10)) (all_inliers 3)
                         K1 R t))
      (take i (cv_hypothesesH (H_of [3; 0; 0; 0; 0; 0; 0; 0]) K1)) /\
    fge (parallax (CheckRT_hyp (init_state 3 (flit 5 10)) (all_inliers 3) K1
                     R t)) minParallax0 = true /\
    length (vP3D (ReconstructH (init_state 3 (flit 5 10)) (all_inliers 3)
                    (H_of [3; 0; 0; 0; 0; 0; 0; 0]) K1 out_before minParallax0
                    2).2) = length (mvKeys1 (init_state 3 (flit 5 10))) /\
    length (vbTriangulated (ReconstructH (init_state 3 (flit 5 10))
                    (all_inliers 3) (H_of [3; 0; 0; 0; 0; 0; 0; 0]) K1
                    out_before minParallax0 2).2) =
      length (mvKeys1 (init_state 3 (flit 5 10))).
Proof.
  apply (ReconstructH_success (init_state 3 (flit 5 10)) (all_inliers 3)
           (H_of [3; 0; 0; 0; 0; 0; 0; 0]) K1 out_before).
  - lia.
  - vm_compute. reflexivity.
Defined.

End OnScenario.

(** ** The lines, and the symmetry of the scorers *)

Section WithKernel.
Context {cv : CvKernel}.

Lemma ReconstructLine_body_writes s K R t (m : Match) o o' :
  ReconstructLine_body s K R t m o = Some o' ->
  (forall k : nat, k <> m.1 \/ ReconstructLine_accept s K R t m = None ->
     vLineS3D o' !! k = vLineS3D o !! k /\
     vLineE3D o' !! k = vLineE3D o !! k /\
     vbLineTriangulated o' !! k = vbLineTriangulated o !! k) /\
  (is_Some (ReconstructLine_accept s K R t m) ->
     vbLineTriangulated o' !! m.1 = Some true).
Proof.
  unfold ReconstructLine_body.
  destruct (ReconstructLine_accept s K R t m) as [[pS pE]|] eqn:Hacc.
  - unfold write_at.
    destruct (decide (m.1 < length (vLineS3D o))%nat); simpl; [|discriminate].
    destruct (decide (m.1 < length (vLineE3D o))%nat); simpl; [|discriminate].
    destruct (decide (m.1 < length (vbLineTriangulated o))%nat); simpl;
      [|discriminate].
    intros [= <-]. simpl. split.
    + intros k [Hk|Hk]; [|discriminate].
      rewrite !list_lookup_insert_ne by congruence. auto.
    + intros _. apply list_lookup_insert_eq. assumption.
  - intros [= <-]. split; [auto|]. intros [x Hx]. discriminate.
Qed.

Lemma ReconstructLine_loop_writes s K R t (ms : list Match) (k : nat) :
  forall o o', ReconstructLine_loop s K R t ms o = Some o' ->
  (vbLineTriangulated o' !! k = Some true <->
   vbLineTriangulated o !! k = Some true \/ accepted_at s K R t ms k) /\
  (~ accepted_at s K R t ms k ->
   vLineS3D o' !! k = vLineS3D o !! k /\
   vLineE3D o' !! k = vLineE3D o !! k).
Proof.
  unfold accepted_at.
  induction ms as [|m ms IH]; intros o o' H; simpl in H.
  - injection H as <-. split.
    + split; [tauto|]. intros [H|H]; [exact H|inversion H].
    + auto.
  - destruct (ReconstructLine_body s K R t m o) as [o1|] eqn:Hb; simpl in H;
      [|discriminate].
    destruct (IH o1 o' H) as [IH1 IH2].
    destruct (ReconstructLine_body_writes s K R t m o o1 Hb) as [Hw1 Hw2].
    split.
    + rewrite IH1, Exists_cons. split.
      * intros [Ht|Hex]; [|tauto].
        destruct (decide (k = m.1)) as [->|Hne].
        -- destruct (ReconstructLine_accept s K R t m) as [pp|] eqn:Hacc.
           ++ right. left. split; [reflexivity|eexists; reflexivity].
           ++ left. destruct (Hw1 m.1 (or_intror eq_refl)) as (_ & _ & <-).
              exact Ht.
        -- left. destruct (Hw1 k (or_introl Hne)) as (_ & _ & <-). exact Ht.
      * intros [Ht|[[<- Hacc]|Hex]]; [|left; apply Hw2, Hacc|tauto].
        destruct (decide (k = m.1)) as [->|Hne].
        -- destruct (ReconstructLine_accept s K R t m) as [pp|] eqn:Hacc.
           ++ left. apply Hw2. eexists; reflexivity.
           ++ left. destruct (Hw1 m.1 (or_intror eq_refl)) as (_ & _ & ->).
              exact Ht.
        -- left. destruct (Hw1 k (or_introl Hne)) as (_ & _ & ->). exact Ht.
    + intros Hn. rewrite Exists_cons in Hn.
      destruct IH2 as [-> ->]; [tauto|].
      assert (Hc : k <> m.1 \/ ReconstructLine_accept s K R t m = None).
      { destruct (decide (k = m.1)) as [->|Hne]; [|left; exact Hne].
        right. destruct (ReconstructLine_accept s K R t m) eqn:Hacc; [|reflexivity].
        exfalso. apply Hn. left. split; [reflexivity|eexists; reflexivity]. }
      destruct (Hw1 k Hc) as (-> & -> & _). auto.
Qed.

(** X14. When all its writes are in bounds, [ReconstructLine] sets
    [vbLineTriangulated[k]] exactly for the indices [k] that are the first
    index of a match it keeps (besides those already set in the resized
    vector), and leaves the end points at every other index as the resized
    vectors had them. *)
Theorem ReconstructLine_writes_only_accepted (s : InitializerState)
  (ms : list Match) (K R t : Mat) (o o' : LineOut) :
  ReconstructLine s ms K R t o = Some o' ->
  forall k : nat,
    (vbLineTriangulated o' !! k = Some true <->
     resize (length (mvKeys1 s)) false (vbLineTriangulated o) !! k = Some true \/
     accepted_at s K R t ms k) /\
    (~ accepted_at s K R t ms k ->
     vLineS3D o' !! k = resize (length (mvKeys1 s)) zero3 (vLineS3D o) !! k /\
     vLineE3D o' !! k = resize (length (mvKeys1 s)) zero3 (vLineE3D o) !! k).
Proof.
  unfold ReconstructLine. intros H k.
  apply (ReconstructLine_loop_writes s K R t ms k _ _ H).
Qed.

(** X15. When [vLineMatches12] has at most as many entries as there are
    lines and as there are key points in the first image, [Initialize] with
    lines writes [mvbLineMatched1] and, through [ReconstructLine], the three
    line vectors inside their bounds; and when the reconstruction of the
    points fails, the three line vectors are left as they were. *)
Theorem InitializeLines_writes_in_bounds (s : InitializerState) (r : RansacOut)
  (vLineMatches12 : list Z) (mvbLineMatched1 : list bool) (o : OutParams)
  (lo : LineOut) :
  (length vLineMatches12 <= length (mvKeyLines1 s))%nat ->
  (length vLineMatches12 <= length (mvKeys1 s))%nat ->
  is_Some (Initialize_line_matches s vLineMatches12 mvbLineMatched1) /\
  is_Some (InitializeLines s r vLineMatches12 o lo).2 /\
  ((InitializeLines s r vLineMatches12 o lo).1.2.1 = false ->
   (InitializeLines s r vLineMatches12 o lo).2 = Some lo).
Proof.
  intros Hl Hk. split_and!.
  - unfold Initialize_line_matches.
    pose proof (fill_matched1_spec vLineMatches12 0
                  (resize (length (mvKeyLines1 s)) false mvbLineMatched1)) as H.
    rewrite resize_length in H.
    destruct (fill_matched1 0 vLineMatches12 _); simpl; [eexists; reflexivity|lia].
  - unfold InitializeLines. destruct (Initialize s r o) as [mdl [b o1]].
    simpl. destruct b; simpl; [|eexists; reflexivity].
    destruct (ReconstructLine _ _ _ _ _ _) as [x|] eqn:E; [eexists; reflexivity|].
    apply ReconstructLine_None in E.
    apply Exists_exists in E as (m & Hin & _ & Hge).
    apply build_matches_first in Hin. lia.
  - unfold InitializeLines. destruct (Initialize s r o) as [mdl [b o1]].
    simpl. destruct b; simpl; [discriminate|reflexivity].
Qed.

End WithKernel.

(** X16. The inlier flags of [CheckHomography] and of [CheckFundamental]
    do not depend on which image is called the first: exchanging the two
    images (with [H21] and [H12] exchanged, or [F21] transposed) gives the
    same flags. *)
Theorem scorers_flags_symmetric (s : InitializerState) (H21 H12 F21 : Mat)
  (sigma : float) :
  (CheckHomography (swap_frames s) H12 H21 sigma).2 =
    (CheckHomography s H21 H12 sigma).2 /\
  (CheckFundamental (swap_frames s) (transpose3 F21) sigma).2 =
    (CheckFundamental s F21 sigma).2.
Proof.
  split.
  - unfold CheckHomography.
    rewrite (score_loop_flags _ _ _ _
               (CheckHomography_body_flag (swap_frames s) H12 H21 sigma)).
    rewrite (score_loop_flags _ _ _ _
               (CheckHomography_body_flag s H21 H12 sigma)).
    simpl. rewrite <- list_fmap_compose. apply list_fmap_ext.
    intros i m _. simpl. unfold both_pass. apply andb_comm.
  - unfold CheckFundamental.
    rewrite (score_loop_flags _ _ _ _
               (CheckFundamental_body_flag (swap_frames s) (transpose3 F21) sigma)).
    rewrite (score_loop_flags _ _ _ _
               (CheckFundamental_body_flag s F21 sigma)).
    simpl. rewrite <- list_fmap_compose. apply list_fmap_ext.
    intros i m _. simpl. unfold both_pass. apply andb_comm.
Qed.

(** X17. [SkewSymmetricMatrix] returns a 3x3 matrix with a zero diagonal
    whose entry (i,j) is the negation of its entry (j,i). *)
Theorem SkewSymmetricMatrix_antisymmetric (v : Mat) :
  let S := SkewSymmetricMatrix v in
  at_ S 0 0 = fzero /\ at_ S 1 1 = fzero /\ at_ S 2 2 = fzero /\
  at_ S 0 1 = fneg (at_ S 1 0) /\ at_ S 0 2 = fneg (at_ S 2 0) /\
  at_ S 1 2 = fneg (at_ S 2 1) /\
  at_ S 1 0 = fneg (at_ S 0 1) /\ at_ S 2 0 = fneg (at_ S 0 2) /\
  at_ S 2 1 = fneg (at_ S 1 2) /\
  length S = 3%nat /\ Forall (fun row => length row = 3%nat) S.
Proof.
  assert (Hn : forall x : float, fneg (fneg x) = x)
    by (intros [[]|[]| |[] ? ?]; reflexivity).
  simpl. unfold at_. simpl. rewrite !Hn.
  split_and!; try reflexivity. repeat constructor.
Qed.

Section OnScenario.
#[local] Existing Instance scen_cv.

Lemma ReconstructLine_writes_only_accepted_witness :
  exists o',
    ReconstructLine (line_state 6 6) [(5%nat, 5%nat)] K1 [[fl 1]] [[fl 1]]
      lines0 = Some o' /\
    forall k : nat,
      (vbLineTriangulated o' !! k = Some true <->
       resize (length (mvKeys1 (line_state 6 6))) false
         (vbLineTriangulated lines0) !! k = Some true \/
       accepted_at (line_state 6 6) K1 [[fl 1]] [[fl 1]] [(5%nat, 5%nat)] k) /\
      (~ accepted_at (line_state 6 6) K1 [[fl 1]] [[fl 1]] [(5%nat, 5%nat)] k ->
       vLineS3D o' !! k =
         resize (length (mvKeys1 (line_state 6 6))) zero3 (vLineS3D lines0) !! k /\
       vLineE3D o' !! k =
         resize (length (mvKeys1 (line_state 6 6))) zero3 (vLineE3D lines0) !! k).
Proof.
  eexists. split; [vm_compute; reflexivity|].
  apply (ReconstructLine_writes_only_accepted (line_state 6 6)
           [(5%nat, 5%nat)] K1 [[fl 1]] [[fl 1]] lines0).
  vm_compute. reflexivity.
Defined.

End OnScenario.

Section OnScenario.
#[local] Existing Instance scen_cv.

Lemma Initialize_failure_keeps_points_witness :
  vP3D (Initialize (init_state 3 (flit 5 10))
          (ransac_of 3 1 0 (H_of [3; 0; 0; 0; 0; 0; 0; 0]) (F_of 3 0))
          out_before).2.2 = vP3D out_before /\
  vbTriangulated (Initialize (init_state 3 (flit 5 10))
          (ransac_of 3 1 0 (H_of [3; 0; 0; 0; 0; 0; 0; 0]) (F_of 3 0))
          out_before).2.2 = vbTriangulated out_before /\
  match (Initialize (init_state 3 (flit 5 10))
          (ransac_of 3 1 0 (H_of [3; 0; 0; 0; 0; 0; 0; 0]) (F_of 3 0))
          out_before).1 with
  | ModelH =>
      R21 (Initialize (init_state 3 (flit 5 10))
          (ransac_of 3 1 0 (H_of [3; 0; 0; 0; 0; 0; 0; 0]) (F_of 3 0))
          out_before).2.2 = R21 out_before /\
      t21 (Initialize (init_state 3 (flit 5 10))
          (ransac_of 3 1 0 (H_of [3; 0; 0; 0; 0; 0; 0; 0]) (F_of 3 0))
          out_before).2.2 = t21 out_before
  | ModelF =>
      R21 (Initialize (init_state 3 (flit 5 10))
          (ransac_of 3 1 0 (H_of [3; 0; 0; 0; 0; 0; 0; 0]) (F_of 3 0))
          out_before).2.2 = emptyMat /\
      t21 (Initialize (init_state 3 (flit 5 10))
          (ransac_of 3 1 0 (H_of [3; 0; 0; 0; 0; 0; 0; 0]) (F_of 3 0))
          out_before).2.2 = emptyMat
  end.
Proof.
  apply (Initialize_failure_keeps_points (init_state 3 (flit 5 10))
           (ransac_of 3 1 0 (H_of [3; 0; 0; 0; 0; 0; 0; 0]) (F_of 3 0))
           out_before).
  vm_compute. reflexivity.
Defined.

Lemma InitializeLines_writes_in_bounds_witness :
  is_Some (Initialize_line_matches (line_state 6 6) [5; -1; 2] []) /\
  is_Some (InitializeLines (line_state 6 6)
             (ransac_of 0 1 0 (H_of [3; 0; 0; 0; 0; 0; 0; 0]) (F_of 3 0))
             [5; -1; 2] out_before lines0).2 /\
  ((InitializeLines (line_state 6 6)
      (ransac_of 0 1 0 (H_of [3; 0; 0; 0; 0; 0; 0; 0]) (F_of 3 0))
      [5; -1; 2] out_before lines0).1.2.1 = false ->
   (InitializeLines (line_state 6 6)
      (ransac_of 0 1 0 (H_of [3; 0; 0; 0; 0; 0; 0; 0]) (F_of 3 0))
      [5; -1; 2] out_before lines0).2 = Some lines0).
Proof.
  apply (InitializeLines_writes_in_bounds (line_state 6 6)
           (ransac_of 0 1 0 (H_of [3; 0; 0; 0; 0; 0; 0; 0]) (F_of 3 0))
           [5; -1; 2] [] out_before lines0); vm_compute; lia.
Defined.

End OnScenario.

End InitializerMore.

(* ===================================================================== *)
(** * Further properties of the local mapper *)
(* ===================================================================== *)

Module LocalMappingMore.

Import Initializer LocalMapping Scenario.

(** ** The control flags and the queue *)

Lemma call_stop_inv (c : Call) (s : State) :
  c <> CallSetFinish -> stop_inv s -> stop_inv (call c s).
Proof.
  unfold stop_inv. intros Hc Hs.
  destruct c; simpl; try exact Hs; try congruence;
    try (intros H; destruct (Hs H); auto; fail).
  - unfold Stop.
    destruct (mbStopRequested s) eqn:E1, (mbNotStop s) eqn:E2; simpl;
      rewrite ?E1, ?E2; intuition congruence.
  - unfold Release. destruct (mbFinished s); simpl; [exact Hs|discriminate].
  - unfold SetNotStop.
    destruct flag, (mbStopped s) eqn:E; simpl; rewrite ?E;
      intuition congruence.
  - unfold ResetIfRequested. destruct (mbResetRequested s); simpl; exact Hs.
Qed.

Lemma calls_stop_inv (cs : list Call) : forall s : State,
  CallSetFinish ∉ cs -> stop_inv s -> stop_inv (calls cs s).
Proof.
  induction cs as [|c cs IH]; intros s Hn Hs; simpl; [exact Hs|].
  apply not_elem_of_cons in Hn as [Hc Hn].
  apply IH; [exact Hn|]. apply call_stop_inv; [congruence|exact Hs].
Qed.

(** X18. Whatever calls are made on a new mapper, [SetFinish] apart,
    the mapper is stopped only while a stop request is pending and
    [mbNotStop] is false: [Stop] never stops a mapper protected by
    [SetNotStop(true)], and [SetNotStop(true)] never protects a stopped
    one. *)
Theorem stopped_implies_requested_and_not_protected (bMonocular : bool)
  (cs : list Call) :
  CallSetFinish ∉ cs ->
  isStopped (calls cs (LocalMapping_new bMonocular)) = true ->
  stopRequested (calls cs (LocalMapping_new bMonocular)) = true /\
  mbNotStop (calls cs (LocalMapping_new bMonocular)) = false.
Proof.
  intros Hn. apply (calls_stop_inv cs (LocalMapping_new bMonocular) Hn).
  intros H. discriminate.
Qed.

Lemma stopped_implies_requested_and_not_protected_witness :
  stopRequested (calls [CallSetNotStop true; CallRequestStop; CallStop;
                        CallSetNotStop false; CallStop]
                   (LocalMapping_new true)) = true /\
  mbNotStop (calls [CallSetNotStop true; CallRequestStop; CallStop;
                    CallSetNotStop false; CallStop]
               (LocalMapping_new true)) = false.
Proof.
  apply (stopped_implies_requested_and_not_protected true
           [CallSetNotStop true; CallRequestStop; CallStop;
            CallSetNotStop false; CallStop]).
  - intros H. repeat (apply elem_of_cons in H as [H|H]; [discriminate|]).
    inversion H.
  - reflexivity.
Defined.

Lemma call_keeps (c : Call) (s : State) :
  mbMonocular (call c s) = mbMonocular s /\
  (mbFinishRequested s = true -> mbFinishRequested (call c s) = true) /\
  mpCurrentKeyFrame (call c s) = mpCurrentKeyFrame s.
Proof.
  destruct c; simpl; try (split_and!; [reflexivity|tauto|reflexivity]).
  - unfold Stop. destruct (_ && _); simpl; split_and!; try reflexivity; tauto.
  - unfold Release. destruct (mbFinished s); simpl; split_and!; try reflexivity; tauto.
  - unfold SetNotStop. destruct (_ && _); simpl; split_and!; try reflexivity; tauto.
  - unfold ResetIfRequested. destruct (mbResetRequested s); simpl; split_and!;
      try reflexivity; tauto.
Qed.

(** X19. Once [RequestFinish] has been called, [CheckFinish] holds after
    any further calls: no member function clears [mbFinishRequested]; and no
    call changes [mbMonocular]. *)
Theorem finish_request_is_never_withdrawn (cs : list Call) (s : State) :
  CheckFinish (calls cs (RequestFinish s)) = true /\
  mbMonocular (calls cs s) = mbMonocular s.
Proof.
  split.
  - assert (H : forall s0, mbFinishRequested s0 = true ->
                           mbFinishRequested (calls cs s0) = true).
    { induction cs as [|c cs IH]; intros s0 H0; simpl; [exact H0|].
      apply IH. apply call_keeps. exact H0. }
    apply H. reflexivity.
  - revert s. induction cs as [|c cs IH]; intros s; simpl; [reflexivity|].
    rewrite IH. apply call_keeps.
Qed.

(** X20. [InsertKeyFrame] appends to the queue and sets [mbAbortBA];
    after a series of insertions [CheckNewKeyFrames] holds exactly when the
    queue is not empty, and [ProcessNewKeyFrame] then takes the oldest
    keyframe as [mpCurrentKeyFrame] and leaves the others in their order. *)
Theorem keyframes_leave_the_queue_in_insertion_order (s : State)
  (ks : list KFptr) :
  let s' := calls (CallInsertKeyFrame <$> ks) s in
  mlNewKeyFrames s' = mlNewKeyFrames s ++ ks /\
  (ks <> [] -> mbAbortBA s' = true) /\
  match mlNewKeyFrames s ++ ks with
  | [] => CheckNewKeyFrames s' = false /\ ProcessNewKeyFrame_front s' = None
  | pKF :: rest =>
      CheckNewKeyFrames s' = true /\
      exists s'', ProcessNewKeyFrame_front s' = Some s'' /\
                  mpCurrentKeyFrame s'' = pKF /\ mlNewKeyFrames s'' = rest
  end.
Proof.
  intros s'.
  assert (H : mlNewKeyFrames s' = mlNewKeyFrames s ++ ks /\
              (ks <> [] -> mbAbortBA s' = true)).
  { unfold s'. clear s'. revert s.
    induction ks as [|k ks IH]; intros s.
    - simpl. rewrite app_nil_r. split; [reflexivity|congruence].
    - rewrite fmap_cons.
      change (calls (CallInsertKeyFrame k :: (CallInsertKeyFrame <$> ks)) s)
        with (calls (CallInsertKeyFrame <$> ks) (InsertKeyFrame k s)).
      destruct (IH (InsertKeyFrame k s)) as [IH1 IH2]. split.
      + rewrite IH1. simpl. rewrite <- app_assoc. reflexivity.
      + intros _. destruct ks as [|k' ks]; [reflexivity|].
        apply IH2. discriminate. }
  destruct H as [H1 H2]. split_and!; try assumption.
  unfold CheckNewKeyFrames, ProcessNewKeyFrame_front. rewrite H1.
  destruct (mlNewKeyFrames s ++ ks) as [|pKF rest]; [split; reflexivity|].
  split; [reflexivity|]. eexists. split; [reflexivity|]. split; reflexivity.
Qed.

(** ** The culling of the recent MapPoints and MapLines *)

Lemma lm_at_SetBadFlag lms p q :
  lm_at (lm_SetBadFlag lms p) q =
  if decide (q = p) then set_bad (lm_at lms p) else lm_at lms q.
Proof.
  destruct (decide (q = p)) as [->|Hne];
    unfold lm_at at 1; unfold lm_SetBadFlag; cbv zeta.
  - rewrite lookup_insert_eq. reflexivity.
  - rewrite lookup_insert_ne by congruence. reflexivity.
Qed.

Lemma cull_recent_gen (th cur : Z) (lms : gmap nat Landmark) (lit : list nat) :
  forall (done : list nat) (lms' : gmap nat Landmark),
  (forall q, lm_at lms' q = culled th cur done lms q) ->
  (cull_recent th cur lit lms').1 =
    filter (fun p => cull_keeps th cur (lm_at lms p) = true) lit /\
  (forall q, lm_at (cull_recent th cur lit lms').2 q
             = culled th cur (done ++ lit) lms q).
Proof.
  induction lit as [|p lit IH]; intros done lms' Hd.
  - simpl. split; [reflexivity|]. intros q. rewrite app_nil_r. apply Hd.
  - assert (Hstep : forall lms1,
      (forall q, lm_at lms1 q = culled th cur (done ++ [p]) lms q) ->
      (cull_recent th cur lit lms1).1 =
        filter (fun p => cull_keeps th cur (lm_at lms p) = true) lit /\
      (forall q, lm_at (cull_recent th cur lit lms1).2 q
                 = culled th cur (done ++ p :: lit) lms q)).
    { intros lms1 H1. destruct (IH (done ++ [p]) lms1 H1) as [I1 I2].
      split; [exact I1|]. intros q. rewrite I2. rewrite <- app_assoc.
      reflexivity. }
    cbn [cull_recent]. rewrite filter_cons.
    pose proof (Hd p) as Hp. unfold culled in Hp.
    destruct (bool_decide (p ∈ done) && negb (lm_isBad (lm_at lms p))
              && cull_flags th cur (lm_at lms p)) eqn:Hdone.
    + (* flagged at an earlier place of the list *)
      rewrite Hp. simpl.
      apply andb_true_iff in Hdone as [Hdone Hfl].
      apply andb_true_iff in Hdone as [Hin Hnb].
      apply bool_decide_eq_true in Hin.
      destruct (decide (cull_keeps th cur (lm_at lms p) = true)) as [Hk|Hk].
      { unfold cull_keeps in Hk. rewrite Hfl in Hk. simpl in Hk.
        rewrite andb_false_r in Hk. discriminate. }
      apply Hstep. intros q. rewrite Hd. unfold culled.
      destruct (decide (q = p)) as [->|Hne].
      * rewrite !bool_decide_eq_true_2; [reflexivity| |exact Hin].
        apply elem_of_app. left. exact Hin.
      * rewrite (bool_decide_ext (q ∈ done ++ [p]) (q ∈ done)); [reflexivity|].
        rewrite elem_of_app, list_elem_of_singleton. tauto.
    + rewrite Hp.
      assert (Hsame : forall q, q <> p ->
                culled th cur (done ++ [p]) lms q = culled th cur done lms q).
      { intros q Hne. unfold culled.
        rewrite (bool_decide_ext (q ∈ done ++ [p]) (q ∈ done)); [reflexivity|].
        rewrite elem_of_app, list_elem_of_singleton. tauto. }
      assert (Hpin : bool_decide (p ∈ done ++ [p]) = true).
      { apply bool_decide_eq_true. apply elem_of_app. right. left. }
      destruct (lm_isBad (lm_at lms p)) eqn:Hbad.
      { assert (Hk : cull_keeps th cur (lm_at lms p) = false)
          by (unfold cull_keeps; rewrite Hbad; reflexivity).
        rewrite decide_False by congruence.
        apply Hstep. intros q. destruct (decide (q = p)) as [->|Hne].
        - rewrite Hp. unfold culled. rewrite Hbad. rewrite andb_false_r.
          reflexivity.
        - rewrite Hsame by exact Hne. apply Hd. }
      destruct (flt (lm_GetFoundRatio (lm_at lms p)) f0_25) eqn:Hr.
      { assert (Hk : cull_keeps th cur (lm_at lms p) = false)
          by (unfold cull_keeps, cull_flags; rewrite Hbad, Hr; reflexivity).
        rewrite decide_False by congruence.
        apply Hstep. intros q. rewrite lm_at_SetBadFlag.
        destruct (decide (q = p)) as [->|Hne].
        - rewrite Hp. unfold culled, cull_flags. rewrite Hpin, Hbad, Hr.
          reflexivity.
        - rewrite Hsame by exact Hne. apply Hd. }
      destruct ((2 <=? age cur (lm_at lms p))
                && (lm_Observations (lm_at lms p) <=? th)) eqn:Ha.
      { assert (Hk : cull_keeps th cur (lm_at lms p) = false)
          by (unfold cull_keeps, cull_flags; rewrite Hbad, Hr, Ha; reflexivity).
        rewrite decide_False by congruence.
        apply Hstep. intros q. rewrite lm_at_SetBadFlag.
        destruct (decide (q = p)) as [->|Hne].
        - rewrite Hp. unfold culled, cull_flags. rewrite Hpin, Hbad, Hr, Ha.
          reflexivity.
        - rewrite Hsame by exact Hne. apply Hd. }
      assert (Hnone : forall q, lm_at lms' q = culled th cur (done ++ [p]) lms q).
      { intros q. destruct (decide (q = p)) as [->|Hne].
        - rewrite Hp. unfold culled, cull_flags. rewrite Hbad, Hr, Ha.
          rewrite andb_false_r. reflexivity.
        - rewrite Hsame by exact Hne. apply Hd. }
      destruct (3 <=? age cur (lm_at lms p)) eqn:H3.
      { assert (Hk : cull_keeps th cur (lm_at lms p) = false)
          by (unfold cull_keeps, cull_flags; rewrite Hbad, Hr, Ha, H3;
              reflexivity).
        rewrite decide_False by congruence. apply Hstep, Hnone. }
      assert (Hk : cull_keeps th cur (lm_at lms p) = true)
        by (unfold cull_keeps, cull_flags; rewrite Hbad, Hr, Ha, H3;
            reflexivity).
      rewrite decide_True by exact Hk.
      destruct (Hstep lms' Hnone) as [I1 I2]. simpl. rewrite I1.
      split; [reflexivity|exact I2].
Qed.

Lemma cull_recent_spec (th cur : Z) (lit : list nat) (lms : gmap nat Landmark) :
  (cull_recent th cur lit lms).1 =
    filter (fun p => cull_keeps th cur (lm_at lms p) = true) lit /\
  (forall q, lm_at (cull_recent th cur lit lms).2 q = culled th cur lit lms q).
Proof.
  apply (cull_recent_gen th cur lms lit [] lms).
  intros q. unfold culled. rewrite bool_decide_eq_false_2; [reflexivity|].
  apply not_elem_of_nil.
Qed.

Lemma cull_recent_idem (th cur : Z) (lit : list nat) (lms : gmap nat Landmark) :
  (cull_recent th cur (cull_recent th cur lit lms).1
     (cull_recent th cur lit lms).2).1 = (cull_recent th cur lit lms).1 /\
  forall q,
    lm_at (cull_recent th cur (cull_recent th cur lit lms).1
             (cull_recent th cur lit lms).2).2 q =
    lm_at (cull_recent th cur lit lms).2 q.
Proof.
  destruct (cull_recent_spec th cur lit lms) as [H1 H2].
  destruct (cull_recent_spec th cur (cull_recent th cur lit lms).1
              (cull_recent th cur lit lms).2) as [G1 G2].
  assert (Hkeep : forall p, cull_keeps th cur (lm_at lms p) = true ->
            lm_at (cull_recent th cur lit lms).2 p = lm_at lms p).
  { intros p Hk. rewrite H2. unfold culled. unfold cull_keeps in Hk.
    destruct (cull_flags th cur (lm_at lms p)).
    - rewrite andb_false_r in Hk. discriminate.
    - rewrite andb_false_r. reflexivity. }
  split.
  - rewrite G1, H1. clear G1 G2 H1 H2.
    set (lms2 := (cull_recent th cur lit lms).2) in *. clearbody lms2.
    induction lit as [|p lit IH]; [reflexivity|].
    rewrite filter_cons.
    destruct (decide (cull_keeps th cur (lm_at lms p) = true)) as [Hk|Hk];
      [|exact IH].
    rewrite filter_cons. rewrite (Hkeep p Hk). rewrite decide_True by exact Hk.
    f_equal. exact IH.
  - intros q. rewrite G2. unfold culled at 1.
    destruct (bool_decide _ && _ && _) eqn:E; [|reflexivity].
    apply andb_true_iff in E as [E Hfl]. apply andb_true_iff in E as [Hin Hnb].
    apply bool_decide_eq_true in Hin. rewrite H1 in Hin.
    apply list_elem_of_filter in Hin as [Hk _].
    rewrite (Hkeep q Hk) in Hfl. unfold cull_keeps in Hk. rewrite Hfl in Hk.
    rewrite andb_false_r in Hk. discriminate.
Qed.

(** X21. [MapPointCulling] and [MapLineCulling] leave on their list, in
    the same order, exactly the elements that, before the call, were not
    bad, had a found ratio not below 0.25 and an age below 3 keyframes, and
    either an age below 2 or more than [nThObs] observations; they flag bad
    exactly the elements of the list that were not bad and have a found
    ratio below 0.25 or an age of at least 2 with at most [nThObs]
    observations; the flags and the queue of the mapper and the other list
    are unchanged. *)
Theorem recent_culling_is_a_filter (s : State) (h : Heap)
  (points lines : gmap nat Landmark) :
  let cur := mnId (kf_at h (mpCurrentKeyFrame s)) in
  let th := nThObs_of s in
  (mlpRecentAddedMapPoints (MapPointCulling s h points).1 =
     filter (fun p => cull_keeps th cur (lm_at points p) = true)
       (mlpRecentAddedMapPoints s) /\
   (forall p, lm_at (MapPointCulling s h points).2 p =
              culled th cur (mlpRecentAddedMapPoints s) points p) /\
   control (MapPointCulling s h points).1 = control s /\
   mlpRecentAddedMapLines (MapPointCulling s h points).1 =
     mlpRecentAddedMapLines s) /\
  (mlpRecentAddedMapLines (MapLineCulling s h lines).1 =
     filter (fun p => cull_keeps th cur (lm_at lines p) = true)
       (mlpRecentAddedMapLines s) /\
   (forall p, lm_at (MapLineCulling s h lines).2 p =
              culled th cur (mlpRecentAddedMapLines s) lines p) /\
   control (MapLineCulling s h lines).1 = control s /\
   mlpRecentAddedMapPoints (MapLineCulling s h lines).1 =
     mlpRecentAddedMapPoints s).
Proof.
  intros cur th. unfold MapPointCulling, MapLineCulling. simpl.
  destruct (cull_recent_spec th cur (mlpRecentAddedMapPoints s) points)
    as [P1 P2].
  destruct (cull_recent_spec th cur (mlpRecentAddedMapLines s) lines)
    as [L1 L2].
  split_and!; try assumption; reflexivity.
Qed.

Lemma cull_keeps_true th cur lm :
  cull_keeps th cur lm = true ->
  lm_isBad lm = false /\ flt (lm_GetFoundRatio lm) f0_25 = false /\
  age cur lm < 3 /\ (age cur lm < 2 \/ th < lm_Observations lm).
Proof.
  unfold cull_keeps, cull_flags. intros H.
  apply andb_true_iff in H as [H H3]. apply andb_true_iff in H as [Hb Hf].
  apply negb_true_iff in Hb, Hf, H3. apply orb_false_iff in Hf as [Hr Ha].
  apply Z.leb_gt in H3. apply andb_false_iff in Ha.
  split_and!; try assumption.
  destruct Ha as [Ha|Ha]; [left; apply Z.leb_gt, Ha|right; apply Z.leb_gt, Ha].
Qed.

Lemma cull_survivors th cur lit lms :
  Forall (fun p =>
            lm_at (cull_recent th cur lit lms).2 p = lm_at lms p /\
            lm_isBad (lm_at lms p) = false /\
            flt (lm_GetFoundRatio (lm_at lms p)) f0_25 = false /\
            age cur (lm_at lms p) < 3 /\
            (age cur (lm_at lms p) < 2 \/ th < lm_Observations (lm_at lms p)))
    (cull_recent th cur lit lms).1.
Proof.
  destruct (cull_recent_spec th cur lit lms) as [H1 H2].
  apply Forall_forall. intros p Hin. rewrite H1 in Hin.
  apply list_elem_of_filter in Hin as [Hk _].
  split; [|apply cull_keeps_true; exact Hk].
  rewrite H2. unfold culled. unfold cull_keeps in Hk.
  destruct (cull_flags th cur (lm_at lms p)).
  - rewrite andb_false_r in Hk. discriminate.
  - rewrite andb_false_r. reflexivity.
Qed.

(** X22. The elements that [MapPointCulling] and [MapLineCulling] leave
    on their list are untouched, not bad, with a found ratio not below 0.25
    and younger than 3 keyframes; running the culling again with the same
    current keyframe changes neither the list nor the elements. *)
Theorem recent_culling_survivors_and_idempotence (s : State) (h : Heap)
  (points lines : gmap nat Landmark) :
  let cur := mnId (kf_at h (mpCurrentKeyFrame s)) in
  let th := nThObs_of s in
  let good (before after : gmap nat Landmark) (p : nat) :=
    lm_at after p = lm_at before p /\
    lm_isBad (lm_at before p) = false /\
    flt (lm_GetFoundRatio (lm_at before p)) f0_25 = false /\
    age cur (lm_at before p) < 3 /\
    (age cur (lm_at before p) < 2 \/ th < lm_Observations (lm_at before p)) in
  Forall (good points (MapPointCulling s h points).2)
    (mlpRecentAddedMapPoints (MapPointCulling s h points).1) /\
  Forall (good lines (MapLineCulling s h lines).2)
    (mlpRecentAddedMapLines (MapLineCulling s h lines).1) /\
  (let r := MapPointCulling s h points in
   (MapPointCulling r.1 h r.2).1 = r.1 /\
   forall p, lm_at (MapPointCulling r.1 h r.2).2 p = lm_at r.2 p) /\
  (let r := MapLineCulling s h lines in
   (MapLineCulling r.1 h r.2).1 = r.1 /\
   forall p, lm_at (MapLineCulling r.1 h r.2).2 p = lm_at r.2 p).
Proof.
  intros cur th good. unfold good, th, cur. clear good th cur.
  unfold MapPointCulling, MapLineCulling, nThObs_of. simpl.
  split_and!.
  - apply cull_survivors.
  - apply cull_survivors.
  - destruct (cull_recent_idem (if mbMonocular s then 2 else 3)
                (mnId (kf_at h (mpCurrentKeyFrame s)))
                (mlpRecentAddedMapPoints s) points) as [-> _]. reflexivity.
  - apply cull_recent_idem.
  - destruct (cull_recent_idem (if mbMonocular s then 2 else 3)
                (mnId (kf_at h (mpCurrentKeyFrame s)))
                (mlpRecentAddedMapLines s) lines) as [-> _]. reflexivity.
  - apply cull_recent_idem.
Qed.

(** ** KeyFrameCulling *)

Lemma kf_at_SetBadFlag_eq h p q :
  kf_at (SetBadFlag h p) q =
  if decide (q = p)
  then mkKeyFrame (mnId (kf_at h p)) (kf_mvKeysUn (kf_at h p))
         (GetMapPointMatches (kf_at h p)) (mvDepth (kf_at h p))
         (mThDepth (kf_at h p)) (GetVectorCovisibleKeyFrames (kf_at h p)) true
  else kf_at h q.
Proof.
  unfold SetBadFlag. unfold kf_at at 1. simpl.
  destruct (decide (q = p)) as [->|Hne].
  - rewrite lookup_insert_eq. reflexivity.
  - rewrite lookup_insert_ne by congruence. reflexivity.
Qed.

Lemma kf_at_SetBadFlag h p q :
  mnId (kf_at (SetBadFlag h p) q) = mnId (kf_at h q) /\
  (q <> p -> kf_isBad (kf_at (SetBadFlag h p) q) = kf_isBad (kf_at h q)) /\
  (kf_isBad (kf_at h q) = true -> kf_isBad (kf_at (SetBadFlag h p) q) = true) /\
  GetVectorCovisibleKeyFrames (kf_at (SetBadFlag h p) q)
    = GetVectorCovisibleKeyFrames (kf_at h q).
Proof.
  rewrite kf_at_SetBadFlag_eq.
  destruct (decide (q = p)) as [->|Hne]; simpl;
    split_and!; try reflexivity; intuition congruence.
Qed.

Lemma KeyFrameCulling_loop_flags monocular (l : list KFptr) : forall h p,
  mnId (kf_at (KeyFrameCulling_loop monocular l h) p) = mnId (kf_at h p) /\
  (kf_isBad (kf_at h p) = true ->
   kf_isBad (kf_at (KeyFrameCulling_loop monocular l h) p) = true) /\
  (kf_isBad (kf_at (KeyFrameCulling_loop monocular l h) p) = kf_isBad (kf_at h p)
   \/ (p ∈ l /\ mnId (kf_at h p) <> 0 /\
       kf_isBad (kf_at (KeyFrameCulling_loop monocular l h) p) = true)).
Proof.
  induction l as [|k l IH]; intros h p; simpl.
  - split_and!; auto.
  - destruct (mnId (kf_at h k) =? 0) eqn:E0.
    + destruct (IH h p) as (I1 & I2 & I3). split_and!; try assumption.
      destruct I3 as [I3|(Hin & Hid & Hb)]; [left; exact I3|right].
      split_and!; try assumption. right. exact Hin.
    + apply Z.eqb_neq in E0. destruct (redundant h monocular k).
      * destruct (IH (SetBadFlag h k) p) as (I1 & I2 & I3).
        destruct (kf_at_SetBadFlag h k p) as (S1 & S2 & S3 & _).
        split_and!.
        -- congruence.
        -- intros Hb. apply I2, S3, Hb.
        -- destruct I3 as [I3|(Hin & Hid & Hb)].
           ++ destruct (decide (p = k)) as [->|Hne].
              ** destruct (kf_isBad (kf_at h k)) eqn:Hbk.
                 --- left. rewrite I3. apply S3. reflexivity.
                 --- right. split_and!; [left|exact E0|].
                     rewrite I3, kf_at_SetBadFlag_eq.
                     rewrite decide_True by reflexivity. reflexivity.
              ** left. rewrite I3. apply S2. exact Hne.
           ++ right. split_and!; [right; exact Hin|congruence|exact Hb].
      * destruct (IH h p) as (I1 & I2 & I3). split_and!; try assumption.
        destruct I3 as [I3|(Hin & Hid & Hb)]; [left; exact I3|right].
        split_and!; try assumption. right. exact Hin.
Qed.

(** X23. [KeyFrameCulling] changes the bad flag only of keyframes that
    are covisible with the current keyframe and whose id is not 0, and only
    by setting it; with no covisible keyframe it changes nothing. *)
Theorem KeyFrameCulling_flags_only_covisible_keyframes (s : State) (h : Heap)
  (p : KFptr) :
  let h' := KeyFrameCulling s h in
  let local := GetVectorCovisibleKeyFrames (kf_at h (mpCurrentKeyFrame s)) in
  (kf_isBad (kf_at h' p) = kf_isBad (kf_at h p) \/
   (p ∈ local /\ mnId (kf_at h p) <> 0 /\ kf_isBad (kf_at h' p) = true)) /\
  (kf_isBad (kf_at h p) = true -> kf_isBad (kf_at h' p) = true) /\
  (local = [] -> h' = h).
Proof.
  intros h' local. unfold h', KeyFrameCulling. fold local.
  destruct (KeyFrameCulling_loop_flags (mbMonocular s) local h p)
    as (_ & H2 & H3).
  split_and!; try assumption. intros ->. reflexivity.
Qed.

Lemma count_observers_min h pKF scaleLevel th (obs : list (KFptr * nat)) :
  forall n, n < th ->
  count_observers h pKF scaleLevel th obs n =
  Z.min th (n + Z.of_nat (length (filter
     (fun o => sees_near_scale h pKF scaleLevel o = true) obs))).
Proof.
  induction obs as [|[k idx] obs IH]; intros n Hn.
  - simpl. lia.
  - cbn [count_observers]. rewrite filter_cons.
    destruct (decide (k = pKF)) as [->|Hne].
    + assert (Hs : sees_near_scale h pKF scaleLevel (pKF, idx) = false).
      { unfold sees_near_scale. simpl.
        rewrite bool_decide_eq_true_2 by reflexivity. reflexivity. }
      rewrite decide_False by congruence. apply IH. exact Hn.
    + destruct (octave (kf_mvKeysUn (kf_at h k) !!! idx) <=? scaleLevel + 1)
        eqn:E.
      * assert (Hs : sees_near_scale h pKF scaleLevel (k, idx) = true).
        { unfold sees_near_scale. simpl.
          rewrite bool_decide_eq_false_2 by exact Hne. exact E. }
        rewrite decide_True by exact Hs. simpl length.
        destruct (th <=? n + 1) eqn:Et.
        -- apply Z.leb_le in Et. lia.
        -- apply Z.leb_gt in Et. rewrite IH by lia. lia.
      * assert (Hs : sees_near_scale h pKF scaleLevel (k, idx) = false).
        { unfold sees_near_scale. simpl.
          rewrite bool_decide_eq_false_2 by exact Hne. exact E. }
        rewrite decide_False by congruence. apply IH. exact Hn.
Qed.

(** X24. The inner loop of [KeyFrameCulling] returns the number of
    observations of the MapPoint by other keyframes at a level at most one
    above that of the keyframe examined, capped at [thObs = 3] (the loop
    leaves at the third one). *)
Theorem count_observers_saturates (h : Heap) (pKF : KFptr) (scaleLevel : Z)
  (observations : list (KFptr * nat)) :
  count_observers h pKF scaleLevel thObs observations 0 =
  Z.min 3 (Z.of_nat (length (filter
     (fun o => sees_near_scale h pKF scaleLevel o = true) observations))).
Proof.
  rewrite count_observers_min by (unfold thObs; lia). reflexivity.
Qed.

Lemma culling_body_counts h monocular pKF i pMP (acc : Z * Z) :
  let acc' := culling_body h monocular pKF i pMP acc in
  acc.1 <= acc'.1 /\ acc'.1 - acc.1 <= acc'.2 - acc.2 /\
  acc'.2 - acc.2 <= match pMP with Some _ => 1 | None => 0 end.
Proof.
  unfold culling_body. destruct pMP as [p|]; simpl; [|lia].
  destruct (mp_isBad (mp_at h p)); simpl; [lia|].
  destruct (negb monocular && _); simpl; [lia|].
  destruct (thObs <? mp_Observations (mp_at h p)); simpl; [|lia].
  destruct (thObs <=? _); simpl; lia.
Qed.

Lemma culling_loop_counts h monocular pKF (l : list (option MPptr)) :
  forall i (acc : Z * Z),
  let acc' := culling_loop h monocular pKF i l acc in
  acc.1 <= acc'.1 /\ acc'.1 - acc.1 <= acc'.2 - acc.2 /\
  acc'.2 - acc.2 <= Z.of_nat (length (filter is_Some l)).
Proof.
  induction l as [|pMP l IH]; intros i acc; simpl.
  - lia.
  - pose proof (culling_body_counts h monocular pKF i pMP acc) as Hb.
    pose proof (IH (S i) (culling_body h monocular pKF i pMP acc)) as Hl.
    simpl in Hb, Hl. rewrite filter_cons.
    destruct pMP as [p|].
    + rewrite decide_True by (eexists; reflexivity). simpl length. lia.
    + rewrite decide_False by (intros [x Hx]; discriminate). lia.
Qed.

(** X25. For every keyframe examined by [KeyFrameCulling],
    [0 <= nRedundantObservations <= nMPs], [nMPs] is at most the number of
    MapPoints of the keyframe that are not null, and a keyframe with
    [nMPs = 0] is not flagged. *)
Theorem KeyFrameCulling_counts (h : Heap) (monocular : bool) (pKF : KFptr) :
  let acc := culling_loop h monocular pKF 0
               (GetMapPointMatches (kf_at h pKF)) (0, 0) in
  0 <= acc.1 <= acc.2 /\
  acc.2 <= Z.of_nat (length (filter is_Some (GetMapPointMatches (kf_at h pKF)))) /\
  (acc.2 = 0 -> redundant h monocular pKF = false).
Proof.
  intros acc.
  pose proof (culling_loop_counts h monocular pKF
                (GetMapPointMatches (kf_at h pKF)) 0%nat (0, 0)) as H.
  simpl in H. fold acc in H. split_and!; try lia.
  intros H0. unfold redundant. fold acc.
  assert (H1 : acc.1 = 0) by lia. rewrite H0, H1. vm_compute. reflexivity.
Qed.

End LocalMappingMore.
